(** * UnityPackageLogAnalysis: the rule-matching engine

  A shallow embedding of [services/analysisEngine.ts] ([analyzeLog]) and of
  the group sorting of [pages/Analyzer.tsx] ([groupedIssues]), with the
  properties of the engine proved over it.

  Conventions.
  - A JavaScript string is a Rocq [string]; each character stands for one
    code unit in the range U+0000..U+00FF, so [String.length] is the
    [.length] of the source.
  - A JavaScript array is a [list]; an index or a number that the source
    computes with is a [Z].
  - The host objects the engine calls ([RegExp], [console], the clocks)
    are explicit: the pattern engine is a type class, the console is an
    output list and the clock readings are inputs. *)

From Stdlib Require Import ZArith List String Ascii Bool Lia.
From Stdlib Require Import Permutation Sorted.
Import ListNotations.

Local Open Scope string_scope.
Local Open Scope list_scope.
Local Open Scope Z_scope.

(** ** JavaScript primitives used by the engine *)

Module Js.

(** Character constants. *)
Definition LF : ascii := Ascii.ascii_of_nat 10.
Definition CR : ascii := Ascii.ascii_of_nat 13.
Definition BACKSLASH : ascii := Ascii.ascii_of_nat 92.

(** The one-character string ['\n'] and the two-character string ['\\n']. *)
Definition newline : string := String LF EmptyString.
Definition escapedNewline : string := String BACKSLASH (String "n" EmptyString).

(** [s.length]. *)
Definition length (s : string) : Z := Z.of_nat (String.length s).

(** [s.includes(k)]: [k] occurs in [s] at some position (case-sensitive). *)
Fixpoint includes (s k : string) : bool :=
  String.prefix k s ||
  match s with
  | EmptyString => false
  | String _ s' => includes s' k
  end.

(** White space and line terminators removed by [trim], within U+0000..U+00FF:
    TAB, LF, VT, FF, CR, SPACE and NBSP. *)
Definition isWhiteSpace (c : ascii) : bool :=
  let n := Ascii.nat_of_ascii c in
  (Nat.leb 9 n && Nat.leb n 13) || Nat.eqb n 32 || Nat.eqb n 160.

Fixpoint trimStart (s : string) : string :=
  match s with
  | EmptyString => EmptyString
  | String c s' => if isWhiteSpace c then trimStart s' else s
  end.

Fixpoint trimEnd (s : string) : string :=
  match s with
  | EmptyString => EmptyString
  | String c s' =>
      match trimEnd s' with
      | EmptyString => if isWhiteSpace c then EmptyString else String c EmptyString
      | t => String c t
      end
  end.

(** [s.trim()]. *)
Definition trim (s : string) : string := trimEnd (trimStart s).

Definition startsWithLF (s : string) : bool :=
  match s with
  | String c _ => Ascii.eqb c LF
  | EmptyString => false
  end.

(** [s.split(/\r?\n/)]: the first piece and the pieces after it.  A line
    feed ends a piece; a carriage return is dropped only when a line feed
    follows it. *)
Fixpoint splitLinesFrom (s : string) : string * list string :=
  match s with
  | EmptyString => (EmptyString, [])
  | String c s' =>
      let '(piece, rest) := splitLinesFrom s' in
      if Ascii.eqb c LF then (EmptyString, piece :: rest)
      else if Ascii.eqb c CR && startsWithLF s' then (piece, rest)
      else (String c piece, rest)
  end.

Definition splitLines (s : string) : list string :=
  let '(piece, rest) := splitLinesFrom s in piece :: rest.

(** [s.split('\n')[0]]: the text before the first line feed. *)
Fixpoint firstPiece (s : string) : string :=
  match s with
  | EmptyString => EmptyString
  | String c s' => if Ascii.eqb c LF then EmptyString else String c (firstPiece s')
  end.

(** [a.join('\n')]. *)
Definition joinLines (a : list string) : string := String.concat newline a.

(** [a.slice(start, end)], with the clamping of relative indices that
    [Array.prototype.slice] performs. *)
Definition slice {A : Type} (a : list A) (start end_ : Z) : list A :=
  let len := Z.of_nat (List.length a) in
  let k := if start <? 0 then Z.max (len + start) 0 else Z.min start len in
  let final := if end_ <? 0 then Z.max (len + end_) 0 else Z.min end_ len in
  firstn (Z.to_nat (final - k)) (skipn (Z.to_nat k) a).

(** [a.sort(cmp)].  The sort of the language is stable: [x], which stood
    before every element of the already sorted tail, goes in front of the
    first [y] that [cmp] does not put before it ([cmp x y <= 0]). *)
Section Sort.
Context {A : Type} (cmp : A -> A -> Z).

Fixpoint insert (x : A) (sorted : list A) : list A :=
  match sorted with
  | [] => [x]
  | y :: rest => if cmp x y <=? 0 then x :: sorted else y :: insert x rest
  end.

Definition sort (a : list A) : list A := fold_right insert [] a.
End Sort.

(** [Math.round] of a duration given in microseconds, in milliseconds. *)
Definition roundMs (us : Z) : Z := (us + 500) / 1000.

End Js.

(** ** types.ts *)

Inductive ErrorSeverity := CRITICAL | ERROR | WARNING.

Module Rule.
Record LogRule := {
  id : string;
  name : string;
  regex : string;
  keywords : list string;
  solution : string;
  severity : ErrorSeverity;
  weight : Z
}.
End Rule.

Module Issue.
Record AnalyzedIssue := {
  ruleId : string;
  ruleName : string;
  severity : ErrorSeverity;
  solution : string;
  matchContent : string;
  lineNumber : Z;
  context : list string
}.
End Issue.

Module Report.
Record AnalysisReport := {
  fileName : string;
  totalLines : Z;
  timestamp : string;
  issues : list Issue.AnalyzedIssue;
  durationMs : Z
}.
End Report.

(** ** The host pattern engine

    [new RegExp(source, 'i')] either throws a [SyntaxError] (its message is
    kept) or gives a pattern object; [re.exec(s)] is [null] or a match array,
    of which the engine reads element 0, the matched text.  The patterns are
    built without the [g] and [y] flags, so [exec] keeps no state. *)

Class RegExpHost := {
  RegExp : Type;
  newRegExp : string -> string + RegExp;
  exec : RegExp -> string -> option string
}.

(** ** services/analysisEngine.ts *)

Module Engine.

(** One call of [console.error(message, e)]. *)
Record ConsoleEntry := {
  message : string;
  error : string
}.

(** The two readings of [performance.now()], in microseconds, and the text
    of [new Date().toISOString()]. *)
Record Clock := {
  startTime : Z;
  endTime : Z;
  isoNow : string
}.

(** [a.weight || 0]. *)
Definition weightOrZero (r : Rule.LogRule) : Z :=
  if Rule.weight r =? 0 then 0 else Rule.weight r.

(** The comparator of [rules.sort]: [(a, b) => (b.weight || 0) - (a.weight || 0)]. *)
Definition byWeightDesc (a b : Rule.LogRule) : Z := weightOrZero b - weightOrZero a.

(** Position of the first [>] of [s]. *)
Fixpoint indexOfGt (s : string) : option nat :=
  match s with
  | EmptyString => None
  | String c s' => if Ascii.eqb c ">" then Some O else option_map S (indexOfGt s')
  end.

(** Length of the match of [/\(\?P<[^>]+>/] at the head of [s], if any. *)
Definition namedGroupAt (s : string) : option nat :=
  match s with
  | String "(" (String "?" (String "P" (String "<" rest))) =>
      match indexOfGt rest with
      | Some (S n) => Some (4 + S n + 1)%nat
      | _ => None
      end
  | _ => None
  end.

(** [skip] characters of an earlier match are still to be dropped. *)
Fixpoint sanitizeFrom (skip : nat) (s : string) : string :=
  match s with
  | EmptyString => EmptyString
  | String c s' =>
      match skip with
      | S k => sanitizeFrom k s'
      | O =>
          match namedGroupAt s with
          | Some n => String "(" (sanitizeFrom (Nat.pred n) s')
          | None => String c (sanitizeFrom O s')
          end
      end
  end.

(** [r.regex.replace(/\(\?P<[^>]+>/g, '(')]. *)
Definition sanitize (regex : string) : string := sanitizeFrom O regex.

Definition CONTEXT_LINES : Z := 3.

Section WithHost.
Context {host : RegExpHost}.

(** An element of [compiledRules]: [{...r, regExp, isMultiline}]. *)
Record CompiledRule := {
  rule : Rule.LogRule;
  regExp : RegExp;
  isMultiline : bool
}.

(** The body of [rules.map(r => { try ... catch ... })]: the compiled rule or
    [null], and what the [catch] branch writes to the console. *)
Definition compileRule (r : Rule.LogRule) : option CompiledRule * list ConsoleEntry :=
  let safeRegex := sanitize (Rule.regex r) in
  let multiline :=
    Js.includes safeRegex Js.escapedNewline || Js.includes safeRegex Js.newline in
  match newRegExp safeRegex with
  | inr re => (Some {| rule := r; regExp := re; isMultiline := multiline |}, [])
  | inl e =>
      (None,
       [{| message :=
             ("Invalid Regex for rule " ++ Rule.name r ++ ": " ++ Rule.regex r)%string;
           error := e |}])
  end.

(** [.filter(r => r !== null)]. *)
Definition dropNull {A : Type} (a : list (option A)) : list A :=
  flat_map (fun o => match o with Some x => [x] | None => [] end) a.

Definition compileRules (rules : list Rule.LogRule) : list CompiledRule :=
  dropNull (map (fun r => fst (compileRule r)) rules).

Definition compileConsole (rules : list Rule.LogRule) : list ConsoleEntry :=
  flat_map (fun r => snd (compileRule r)) rules.

(** [rule.keywords.some(k => line.includes(k))]. *)
Definition hasKeyword (c : CompiledRule) (line : string) : bool :=
  existsb (fun k => Js.includes line k) (Rule.keywords (rule c)).

(** The keyword filter lets the rule through: the list is empty or one
    keyword occurs in the current line. *)
Definition keywordFilter (c : CompiledRule) (line : string) : bool :=
  negb ((0 <? Z.of_nat (List.length (Rule.keywords (rule c)))) && negb (hasKeyword c line)).

(** The text the pattern is run on: the current line, or for a multiline
    rule the lines [i .. i+9] joined by line feeds. *)
Definition candidate (lines : list string) (i : Z) (line : string) (c : CompiledRule) : string :=
  if isMultiline c then Js.joinLines (Js.slice lines i (i + 10)) else line.

Definition execRule (lines : list string) (i : Z) (line : string) (c : CompiledRule)
  : option string :=
  exec (regExp c) (candidate lines i line c).

(** The object pushed to [issues] when [c] matched at line [i] with
    [match[0] = m]. *)
Definition makeIssue (lines : list string) (i : Z) (line : string) (c : CompiledRule)
    (m : string) : Issue.AnalyzedIssue :=
  let start := Z.max 0 (i - CONTEXT_LINES) in
  let end_ := Z.min (Z.of_nat (List.length lines)) (i + CONTEXT_LINES + 1) in
  let context := Js.slice lines start end_ in
  let matchContent :=
    if isMultiline c then (Js.firstPiece m ++ "...")%string else Js.trim line in
  {| Issue.ruleId := Rule.id (rule c);
     Issue.ruleName := Rule.name (rule c);
     Issue.severity := Rule.severity (rule c);
     Issue.solution := Rule.solution (rule c);
     Issue.matchContent := matchContent;
     Issue.lineNumber := i + 1;
     Issue.context := context |}.

(** The inner loop [for (const rule of compiledRules)]: [continue] on a
    failed keyword filter or a failed pattern, [break] after the first push. *)
Fixpoint matchLine (lines : list string) (i : Z) (line : string)
    (compiled : list CompiledRule) : option Issue.AnalyzedIssue :=
  match compiled with
  | [] => None
  | c :: rest =>
      if negb (keywordFilter c line) then matchLine lines i line rest
      else
        match execRule lines i line c with
        | Some m => Some (makeIssue lines i line c m)
        | None => matchLine lines i line rest
        end
  end.

(** One turn of the outer loop [for (let i = 0; i < lines.length; i++)]. *)
Definition scanStep (lines : list string) (compiled : list CompiledRule)
    (issues : list Issue.AnalyzedIssue) (i : nat) : list Issue.AnalyzedIssue :=
  match nth_error lines i with
  | None => issues
  | Some line =>
      if 2000 <? Js.length line then issues
      else
        match matchLine lines (Z.of_nat i) line compiled with
        | Some issue => issues ++ [issue]
        | None => issues
        end
  end.

Definition scan (lines : list string) (compiled : list CompiledRule)
  : list Issue.AnalyzedIssue :=
  fold_left (scanStep lines compiled) (seq 0 (List.length lines)) [].

(** What a call leaves behind: the report the promise resolves to, the
    content of the array [rules] (the caller's [customRules] when it was
    given, sorted in place), and the lines written to the console. *)
Record Outcome := {
  report : Report.AnalysisReport;
  rulesAfter : list Rule.LogRule;
  consoleOut : list ConsoleEntry
}.

(** [analyzeLog(fileContent, fileName, customRules)].  [storedRules] is the
    array that [getRules()] returns when [customRules] is absent. *)
Definition analyzeLog (storedRules : list Rule.LogRule) (clock : Clock)
    (fileContent fileName : string) (customRules : option (list Rule.LogRule)) : Outcome :=
  let rules := match customRules with Some a => a | None => storedRules end in
  let rules := Js.sort byWeightDesc rules in
  let lines := Js.splitLines fileContent in
  let compiledRules := compileRules rules in
  let issues := scan lines compiledRules in
  {| report :=
       {| Report.fileName := fileName;
          Report.totalLines := Z.of_nat (List.length lines);
          Report.timestamp := isoNow clock;
          Report.issues := issues;
          Report.durationMs := Js.roundMs (endTime clock - startTime clock) |};
     rulesAfter := rules;
     consoleOut := compileConsole rules |}.

End WithHost.
End Engine.

(** ** A pattern engine for a fragment of the host's syntax

    An instance of [RegExpHost] on which the engine can be run: literal
    characters, [.], the escapes [\n \r \t \d] and escaped punctuation,
    groups [( )] and [(?: )], alternation and the greedy quantifiers
    [* + ?], matched by backtracking in the order of the host, ignoring case.
    Character classes, braces, anchors, lazy quantifiers, back references and
    the other escapes are outside the fragment; [parse] refuses them with a
    message that says so. *)

Module MiniRegExp.

Inductive node :=
| Empty
| Char (c : ascii)
| Dot
| Digit
| Seq (a b : node)
| Alt (a b : node)
| Star (a : node).

(** State of the last term of the open alternative. *)
Inductive last := NoTerm | Atom | Quantified.

(** A group being read: its closed alternatives and the terms of the open
    one, latest first. *)
Record frame := {
  closed : list node;
  terms : list node;
  lastTerm : last
}.

Definition emptyFrame : frame := {| closed := []; terms := []; lastTerm := NoTerm |}.

Definition seqOf (termsRev : list node) : node :=
  fold_left (fun acc t => Seq t acc) termsRev Empty.

Definition closeFrame (f : frame) : node :=
  fold_left (fun acc a => Alt a acc) (closed f) (seqOf (terms f)).

Definition pushTerm (f : frame) (t : node) : frame :=
  {| closed := closed f; terms := t :: terms f; lastTerm := Atom |}.

Definition nextAlternative (f : frame) : frame :=
  {| closed := seqOf (terms f) :: closed f; terms := []; lastTerm := NoTerm |}.

Definition quantify (q : ascii) (t : node) : node :=
  if Ascii.eqb q "*" then Star t
  else if Ascii.eqb q "+" then Seq t (Star t)
  else Alt t Empty.

Definition isQuantifier (c : ascii) : bool :=
  Ascii.eqb c "*" || Ascii.eqb c "+" || Ascii.eqb c "?".

Definition isAlphaNum (c : ascii) : bool :=
  let n := Ascii.nat_of_ascii c in
  (Nat.leb 48 n && Nat.leb n 57) || (Nat.leb 65 n && Nat.leb n 90)
  || (Nat.leb 97 n && Nat.leb n 122).

Definition outside (what : string) : string + node :=
  inl ("outside the modelled fragment: " ++ what)%string.

(** The term an escape [\e] stands for. *)
Definition escape (e : ascii) : option node :=
  if Ascii.eqb e "n" then Some (Char Js.LF)
  else if Ascii.eqb e "r" then Some (Char Js.CR)
  else if Ascii.eqb e "t" then Some (Char (Ascii.ascii_of_nat 9))
  else if Ascii.eqb e "d" then Some Digit
  else if isAlphaNum e then None
  else Some (Char e).

Fixpoint parseFrom (s : string) (top : frame) (stack : list frame) : string + node :=
  match s with
  | EmptyString =>
      match stack with
      | [] => inr (closeFrame top)
      | _ :: _ => inl "Unterminated group"%string
      end
  | String c s' =>
      if Ascii.eqb c "(" then
        match s' with
        | String "?" (String ":" s'') => parseFrom s'' emptyFrame (top :: stack)
        | String "?" _ => outside "(?"
        | _ => parseFrom s' emptyFrame (top :: stack)
        end
      else if Ascii.eqb c ")" then
        match stack with
        | [] => inl "Unmatched ')'"%string
        | parent :: stack' => parseFrom s' (pushTerm parent (closeFrame top)) stack'
        end
      else if Ascii.eqb c "|" then parseFrom s' (nextAlternative top) stack
      else if isQuantifier c then
        match lastTerm top, terms top with
        | Atom, t :: ts =>
            parseFrom s'
              {| closed := closed top; terms := quantify c t :: ts; lastTerm := Quantified |}
              stack
        | Quantified, _ =>
            if Ascii.eqb c "?" then outside "lazy quantifier"
            else inl "Nothing to repeat"%string
        | _, _ => inl "Nothing to repeat"%string
        end
      else if Ascii.eqb c Js.BACKSLASH then
        match s' with
        | EmptyString => inl "\ at end of pattern"%string
        | String e s'' =>
            match escape e with
            | Some t => parseFrom s'' (pushTerm top t) stack
            | None => outside "escape"
            end
        end
      else if Ascii.eqb c "[" || Ascii.eqb c "]" || Ascii.eqb c "{" || Ascii.eqb c "}"
              || Ascii.eqb c "^" || Ascii.eqb c "$" then outside (String c EmptyString)
      else if Ascii.eqb c "." then parseFrom s' (pushTerm top Dot) stack
      else parseFrom s' (pushTerm top (Char c)) stack
  end.

Definition parse (source : string) : string + node := parseFrom source emptyFrame [].

(** Case folding of the [i] flag on U+0000..U+00FF: a letter and its capital
    are the same character. *)
Definition canonicalize (c : ascii) : nat :=
  let n := Ascii.nat_of_ascii c in
  if (Nat.leb 97 n && Nat.leb n 122)
     || (Nat.leb 224 n && Nat.leb n 254 && negb (Nat.eqb n 247))
  then (n - 32)%nat else n.

Definition sameChar (c d : ascii) : bool := Nat.eqb (canonicalize c) (canonicalize d).

Definition isDigit (c : ascii) : bool :=
  let n := Ascii.nat_of_ascii c in Nat.leb 48 n && Nat.leb n 57.

Definition isLineTerminator (c : ascii) : bool := Ascii.eqb c Js.LF || Ascii.eqb c Js.CR.

(** Continuations receive the text that is left and give the text left after
    the whole match. *)
Definition cont := string -> option string.

(** A matcher that answers only through its continuation. *)
Definition continuationBound (body : string -> cont -> option string) : Prop :=
  (forall s k1 k2, (forall x, k1 x = k2 x) -> body s k1 = body s k2)
  /\ (forall s k, (forall x, k x = None) -> body s k = None).

(** Greedy repetition of [body]: one more turn first, then the rest of the
    pattern; a turn that consumes nothing is rejected, so [fuel], the length
    of the text, bounds the number of turns. *)
Fixpoint star (body : string -> cont -> option string) (fuel : nat) (s : string) (k : cont)
  : option string :=
  match fuel with
  | O => k s
  | S fuel' =>
      match
        body s (fun s' =>
                  if Nat.ltb (String.length s') (String.length s)
                  then star body fuel' s' k else None)
      with
      | Some r => Some r
      | None => k s
      end
  end.

Fixpoint matchNode (r : node) (s : string) (k : cont) : option string :=
  match r with
  | Empty => k s
  | Char c =>
      match s with
      | String d s' => if sameChar c d then k s' else None
      | EmptyString => None
      end
  | Dot =>
      match s with
      | String d s' => if isLineTerminator d then None else k s'
      | EmptyString => None
      end
  | Digit =>
      match s with
      | String d s' => if isDigit d then k s' else None
      | EmptyString => None
      end
  | Seq a b => matchNode a s (fun s' => matchNode b s' k)
  | Alt a b =>
      match matchNode a s k with
      | Some r => Some r
      | None => matchNode b s k
      end
  | Star a => star (matchNode a) (String.length s) s k
  end.

(** [re.exec(s)]: the leftmost match, as [match[0]]. *)
Fixpoint search (r : node) (s : string) : option string :=
  match matchNode r s Some with
  | Some rest => Some (String.substring 0 (String.length s - String.length rest) s)
  | None =>
      match s with
      | EmptyString => None
      | String _ s' => search r s'
      end
  end.

#[export] Instance host : RegExpHost := {|
  RegExp := node;
  newRegExp := parse;
  exec := search
|}.

End MiniRegExp.

(** ** pages/Analyzer.tsx: ordering of the issue groups *)

Module Analyzer.

Inductive SortOrder := severity_desc | count_desc | name_asc.

Record IssueGroup := {
  ruleId : string;
  ruleName : string;
  severity : ErrorSeverity;
  issues : list Issue.AnalyzedIssue
}.

Definition getSeverityWeight (sev : ErrorSeverity) : Z :=
  match sev with
  | CRITICAL => 3
  | ERROR => 2
  | _ => 1
  end.

(** [g.issues.length]. *)
Definition count (g : IssueGroup) : Z := Z.of_nat (List.length (issues g)).

Section WithLocale.
(** [a.localeCompare(b)] of the host. *)
Variable localeCompare : string -> string -> Z.

(** The comparator handed to [result.sort] in [groupedIssues]. *)
Definition compareGroups (sortOrder : SortOrder) (a b : IssueGroup) : Z :=
  match sortOrder with
  | severity_desc =>
      let wa := getSeverityWeight (severity a) in
      let wb := getSeverityWeight (severity b) in
      if negb (wa =? wb) then wb - wa else count b - count a
  | count_desc => count b - count a
  | name_asc => localeCompare (ruleName a) (ruleName b)
  end.

Definition sortGroups (sortOrder : SortOrder) (result : list IssueGroup) : list IssueGroup :=
  Js.sort (compareGroups sortOrder) result.

End WithLocale.
End Analyzer.

(** ** Vocabulary of the properties *)

Module Spec.
Import Engine.

Section WithHost.
Context {host : RegExpHost}.

(** The Issue that rule [r] alone yields at line [i]: the rule compiles, its
    keyword filter lets the line through and its pattern matches. *)
Definition issueOf (lines : list string) (i : Z) (line : string) (r : Rule.LogRule)
  : option Issue.AnalyzedIssue :=
  match fst (compileRule r) with
  | Some c =>
      if keywordFilter c line
      then option_map (makeIssue lines i line c) (execRule lines i line c)
      else None
  | None => None
  end.

Definition isSome {A : Type} (o : option A) : bool :=
  match o with Some _ => true | None => false end.

(** Rule [r] matches line [i] during a scan of [lines]. *)
Definition matchesAt (lines : list string) (i : nat) (r : Rule.LogRule) : bool :=
  match nth_error lines i with
  | Some line =>
      (Js.length line <=? 2000) && isSome (issueOf lines (Z.of_nat i) line r)
  | None => false
  end.

(** The first rule of the heaviest weight among those that [f] accepts. *)
Fixpoint heaviestFirst (f : Rule.LogRule -> bool) (rules : list Rule.LogRule)
  : option Rule.LogRule :=
  match rules with
  | [] => None
  | r :: rest =>
      if f r then
        match heaviestFirst f rest with
        | Some r' => if Rule.weight r <? Rule.weight r' then Some r' else Some r
        | None => Some r
        end
      else heaviestFirst f rest
  end.

(** The Issues of a report anchored at the 0-based line [i]. *)
Definition issuesAt (i : nat) (issues : list Issue.AnalyzedIssue) : list Issue.AnalyzedIssue :=
  filter (fun iss => Issue.lineNumber iss =? Z.of_nat i + 1) issues.

(** The Issues that one turn of the outer loop adds. *)
Definition lineIssues (lines : list string) (compiled : list CompiledRule) (i : nat)
  : list Issue.AnalyzedIssue :=
  match nth_error lines i with
  | None => []
  | Some line =>
      if 2000 <? Js.length line then []
      else
        match matchLine lines (Z.of_nat i) line compiled with
        | Some issue => [issue]
        | None => []
        end
  end.

(** The reading of the keyword filter as a mere prefilter: a rule with
    keywords, none of which occurs in the line, has a pattern that does not
    match the line. *)
Definition prefilterSound : Prop :=
  forall (r : Rule.LogRule) (c : CompiledRule) (line : string),
    fst (compileRule r) = Some c -> Rule.keywords r <> [] ->
    hasKeyword c line = false -> exec (regExp c) line = None.

(** A rule whose pattern names no line break: it is run on one line at a
    time, never on a window of lines. *)
Definition singleLine (r : Rule.LogRule) : bool :=
  negb (Js.includes (sanitize (Rule.regex r)) Js.escapedNewline
        || Js.includes (sanitize (Rule.regex r)) Js.newline).

(** What an Issue says, the lines of its context left aside. *)
Definition withoutContext (iss : Issue.AnalyzedIssue) : Issue.AnalyzedIssue :=
  {| Issue.ruleId := Issue.ruleId iss;
     Issue.ruleName := Issue.ruleName iss;
     Issue.severity := Issue.severity iss;
     Issue.solution := Issue.solution iss;
     Issue.matchContent := Issue.matchContent iss;
     Issue.lineNumber := Issue.lineNumber iss;
     Issue.context := [] |}.

(** [lines'] is [lines] with another line of more than 2000 characters at
    the place [i]. *)
Definition longLineReplaced (i : nat) (lines lines' : list string) : Prop :=
  List.length lines = List.length lines'
  /\ (forall j, j <> i -> nth_error lines j = nth_error lines' j)
  /\ exists l l',
       nth_error lines i = Some l /\ nth_error lines' i = Some l'
       /\ 2000 < Js.length l /\ 2000 < Js.length l'.

(** The reading of the length cap as an exclusion from matching: what a scan
    with [rules] reports does not depend on what an over-long line holds. *)
Definition capExcludes (rules : list Rule.LogRule) : Prop :=
  forall (stored : list Rule.LogRule) (clock : Clock) (fileName text text' : string)
         (i : nat),
    longLineReplaced i (Js.splitLines text) (Js.splitLines text') ->
    map withoutContext
      (Report.issues (report (analyzeLog stored clock text fileName (Some rules))))
    = map withoutContext
        (Report.issues (report (analyzeLog stored clock text' fileName (Some rules)))).

End WithHost.

(** The lines [a .. b] of [lines], both ends included. *)
Definition inclusive {A : Type} (lines : list A) (a b : Z) : list A :=
  firstn (Z.to_nat (b - a + 1)) (skipn (Z.to_nat a) lines).

(** [a] may stand before [b] in an array sorted with [cmp]. *)
Definition notAfter {A : Type} (cmp : A -> A -> Z) (a b : A) : Prop := cmp a b <= 0.

(** Non-increasing weights, the order [rules.sort] establishes. *)
Definition weightGe (a b : Rule.LogRule) : Prop := Rule.weight b <= Rule.weight a.

(** The order of [severity_desc]: heavier severity first, then more members. *)
Definition severityCountGe (a b : Analyzer.IssueGroup) : Prop :=
  let wa := Analyzer.getSeverityWeight (Analyzer.severity a) in
  let wb := Analyzer.getSeverityWeight (Analyzer.severity b) in
  wb < wa \/ (wb = wa /\ Analyzer.count b <= Analyzer.count a).

End Spec.

(** ** Sample rules and logs, run on the fragment engine *)

Module Sample.
Import Engine.

Definition clock1 : Clock :=
  {| startTime := 0; endTime := 1499; isoNow := "2024-05-01T10:00:00.000Z" |}.

Definition clock2 : Clock :=
  {| startTime := 7000; endTime := 9600; isoNow := "2024-05-01T10:00:05.000Z" |}.

Definition mkRule (id name regex : string) (keywords : list string)
    (severity : ErrorSeverity) (weight : Z) : Rule.LogRule :=
  {| Rule.id := id; Rule.name := name; Rule.regex := regex; Rule.keywords := keywords;
     Rule.solution := "see the knowledge base"; Rule.severity := severity;
     Rule.weight := weight |}.

Definition csError : Rule.LogRule :=
  mkRule "3" "C# compile" "error CS\d\d\d\d: (.*)" ["error"; "CS"] CRITICAL 100.

Definition buildFailed : Rule.LogRule :=
  mkRule "6" "Build failed" "Build (failed|Failed) (.*)" ["Build"; "failed"; "Failed"] CRITICAL 99.

Definition genericFailure : Rule.LogRule :=
  mkRule "7" "Generic failure" ".*(Failed|failed).*" ["Failed"; "failed"] ERROR 1.

Definition genericTwin : Rule.LogRule :=
  mkRule "8" "Generic twin" "failed" [] WARNING 1.

(** Unbalanced parenthesis. *)
Definition broken : Rule.LogRule :=
  mkRule "9" "Broken" "Build (failed" [] ERROR 50.

(** A pattern that accepts the empty string. *)
Definition anything : Rule.LogRule :=
  mkRule "10" "Anything" ".*" [] WARNING 0.

(** A multiline rule: a header line and an indented stack line after it. *)
Definition stackTrace : Rule.LogRule :=
  mkRule "11" "Exception with stack" "Exception: .*\n +at " [] ERROR 5.

Definition lines (l : list string) : string := Js.joinLines l.

Definition buildLog : string :=
  lines ["Build failed now: error CS0029: cannot convert"; "all good"].

Definition shoutedLog : string := lines ["BUILD FAILED in 3s"].

Definition traceLog : string :=
  lines ["start"; "NullReferenceException: boom"; "  at Foo.Bar()"; "end"].

(** A line of 2001 characters that ends in a text the generic rule accepts. *)
Definition longLine : string :=
  (String.concat "" (repeat "x" 1995) ++ "failed")%string.

Definition longLog : string :=
  lines ["one"; longLine; "step failed"; "two"].

(** Another line of 2001 characters, with nothing in it that a sample rule
    accepts, and the same log with that line in the place of [longLine]. *)
Definition otherLongLine : string := String.concat "" (repeat "y" 2001).

Definition otherLongLog : string :=
  lines ["one"; otherLongLine; "step failed"; "two"].

(** A rule that is multiline, since its second alternative names a line
    break, and whose first alternative lies within one line. *)
Definition windowRule : Rule.LogRule :=
  mkRule "12" "Window" "x+failed|zzz\nzzz" [] ERROR 5.

Definition stored : list Rule.LogRule := [csError; buildFailed; genericFailure].

Definition run (text : string) (rules : list Rule.LogRule) : Outcome :=
  analyzeLog (host := MiniRegExp.host) stored clock1 text "Editor.log" (Some rules).

Definition group (id name : string) (sev : ErrorSeverity) (n : nat) : Analyzer.IssueGroup :=
  {| Analyzer.ruleId := id; Analyzer.ruleName := name; Analyzer.severity := sev;
     Analyzer.issues :=
       repeat {| Issue.ruleId := id; Issue.ruleName := name; Issue.severity := sev;
                 Issue.solution := ""; Issue.matchContent := ""; Issue.lineNumber := 1;
                 Issue.context := [] |} n |}.

Definition groups : list Analyzer.IssueGroup :=
  [group "2" "beta" WARNING 9; group "1" "alpha" ERROR 1; group "3" "gamma" CRITICAL 2;
   group "4" "delta" ERROR 4].

(** Comparison by code units, a comparator with the sign symmetry of
    [localeCompare]. *)
Definition codeUnitCompare (a b : string) : Z :=
  match String.compare a b with
  | Lt => -1
  | Eq => 0
  | Gt => 1
  end.

End Sample.

From Stdlib Require Import DecimalString DecimalPos DecimalZ.

(** ** More vocabulary: what the scan guarantees beyond the claims *)

Module Vocabulary.
Import Engine.

(** Number of line feeds of a text. *)
Fixpoint countLF (s : string) : nat :=
  match s with
  | EmptyString => O
  | String c s' => if Ascii.eqb c Js.LF then S (countLF s') else countLF s'
  end.

(** The opening of a Python named group. *)
Definition namedGroupOpen : string := "(?P<".

(** Line numbers grow along a list of Issues. *)
Definition lineBefore (a b : Issue.AnalyzedIssue) : Prop :=
  Issue.lineNumber a < Issue.lineNumber b.

(** The array the scan works on: [customRules || getRules()]. *)
Definition rulesUsed (stored : list Rule.LogRule) (customRules : option (list Rule.LogRule))
  : list Rule.LogRule :=
  match customRules with
  | Some a => a
  | None => stored
  end.

Section WithHost.
Context {host : RegExpHost}.

(** The host accepts the pattern of the rule. *)
Definition compiles (r : Rule.LogRule) : bool := Spec.isSome (fst (compileRule r)).

End WithHost.
End Vocabulary.

(** ** More of the language: case mapping, rounding up, [Set] *)

(** [s.toLowerCase()], a function of the host.  It follows the Unicode
    case mappings, which depend on the characters around (a capital sigma is
    written one way at the end of a word and another way elsewhere) and can
    change the length of a text, so nothing is assumed of it but that the
    empty text is left as it is. *)
Class CaseHost := {
  toLowerCase : string -> string;
  toLowerCase_empty : toLowerCase EmptyString = EmptyString
}.

(** The lower-casing of the host on texts of U+0000..U+00FF, where it acts
    character by character: an instance to run the pages on. *)
Module Latin1.

(** The capitals A-Z and U+00C0..U+00DE but the multiplication sign go 32
    places up, the rest stays. *)
Definition lowerChar (c : ascii) : ascii :=
  let n := Ascii.nat_of_ascii c in
  if (Nat.leb 65 n && Nat.leb n 90)
     || (Nat.leb 192 n && Nat.leb n 222 && negb (Nat.eqb n 215))
  then Ascii.ascii_of_nat (n + 32) else c.

Fixpoint lower (s : string) : string :=
  match s with
  | EmptyString => EmptyString
  | String c s' => String (lowerChar c) (lower s')
  end.

Instance host : CaseHost := {| toLowerCase := lower; toLowerCase_empty := eq_refl |}.

End Latin1.

Module JsText.

(** [Math.ceil(n / d)] for integers [n] and [d > 0]. *)
Definition ceilDiv (n d : Z) : Z := - ((- n) / d).

End JsText.

(** A [Set<string>]: its elements in the order they were added, none twice. *)
Module JsSet.

Definition t : Type := list string.

(** [s.has(x)]. *)
Definition has (s : t) (x : string) : bool := existsb (String.eqb x) s.

(** [s.add(x)]. *)
Definition add (s : t) (x : string) : t := if has s x then s else s ++ [x].

(** [s.delete(x)]. *)
Definition delete (s : t) (x : string) : t :=
  filter (fun y => negb (String.eqb y x)) s.

(** [s.size]. *)
Definition size (s : t) : Z := Z.of_nat (List.length s).

(** [new Set(values)]. *)
Definition ofList (values : list string) : t := fold_left add values [].

End JsSet.

(** ** components/RuleSelector.tsx *)

Module RuleSelector.

(** The rules shown for a search text: the name or the pattern contains it,
    case ignored. *)
Definition filteredRules {text : CaseHost} (rules : list Rule.LogRule) (search : string)
  : list Rule.LogRule :=
  filter
    (fun r =>
       Js.includes (toLowerCase (Rule.name r)) (toLowerCase search)
       || Js.includes (toLowerCase (Rule.regex r)) (toLowerCase search))
    rules.

(** The set handed to [onSelectionChange] by a click on a rule. *)
Definition handleToggle (selectedIds : JsSet.t) (id : string) : JsSet.t :=
  let newSet := selectedIds in
  if JsSet.has newSet id then JsSet.delete newSet id else JsSet.add newSet id.

(** The set handed to [onSelectionChange] by "select all shown", or [None]
    when nothing is shown and the handler returns at once. *)
Definition handleSelectAll {text : CaseHost} (rules : list Rule.LogRule) (search : string)
    (selectedIds : JsSet.t) : option JsSet.t :=
  match filteredRules rules search with
  | [] => None
  | shown => Some (fold_left (fun newSet r => JsSet.add newSet (Rule.id r)) shown selectedIds)
  end.

Definition handleDeselectAll {text : CaseHost} (rules : list Rule.LogRule) (search : string)
    (selectedIds : JsSet.t) : option JsSet.t :=
  match filteredRules rules search with
  | [] => None
  | shown =>
      Some (fold_left (fun newSet r => JsSet.delete newSet (Rule.id r)) shown selectedIds)
  end.

End RuleSelector.

(** ** pages/KnowledgeBase.tsx: the list of rules and its pages *)

Module KnowledgeBase.

Definition PAGE_SIZE : Z := 8.

(** The predicate of [rules.filter]: the name, the pattern or a keyword
    contains the search term, case ignored. *)
Definition matchesSearch {text : CaseHost} (searchTerm : string) (r : Rule.LogRule) : bool :=
  Js.includes (toLowerCase (Rule.name r)) (toLowerCase searchTerm)
  || Js.includes (toLowerCase (Rule.regex r)) (toLowerCase searchTerm)
  || existsb
       (fun k => Js.includes (toLowerCase k) (toLowerCase searchTerm))
       (Rule.keywords r).

(** [rules.filter(...).sort((a, b) => (b.weight || 0) - (a.weight || 0))]. *)
Definition filteredRules {text : CaseHost} (rules : list Rule.LogRule) (searchTerm : string)
  : list Rule.LogRule :=
  Js.sort Engine.byWeightDesc (filter (matchesSearch searchTerm) rules).

Definition totalPages {text : CaseHost} (rules : list Rule.LogRule) (searchTerm : string) : Z :=
  JsText.ceilDiv (Z.of_nat (List.length (filteredRules rules searchTerm))) PAGE_SIZE.

Definition paginatedRules {text : CaseHost} (rules : list Rule.LogRule) (searchTerm : string)
    (currentPage : Z) : list Rule.LogRule :=
  Js.slice (filteredRules rules searchTerm)
    ((currentPage - 1) * PAGE_SIZE) (currentPage * PAGE_SIZE).

End KnowledgeBase.

(** ** pages/Analyzer.tsx: the rules that take part in a scan *)

Module AnalyzerPage.

(** The selection set up when the page is mounted:
    [new Set(rules.map(r => r.id))]. *)
Definition initialSelection (rules : list Rule.LogRule) : JsSet.t :=
  JsSet.ofList (map Rule.id rules).

(** [allRules.filter(r => selectedRuleIds.has(r.id))]. *)
Definition activeRules (allRules : list Rule.LogRule) (selectedRuleIds : JsSet.t)
  : list Rule.LogRule :=
  filter (fun r => JsSet.has selectedRuleIds (Rule.id r)) allRules.

(** The scan started by [handleFileSelect] on the text of the file. *)
Definition handleFileSelect {host : RegExpHost} (stored : list Rule.LogRule)
    (clock : Engine.Clock) (allRules : list Rule.LogRule) (selectedRuleIds : JsSet.t)
    (text fileName : string) : Engine.Outcome :=
  Engine.analyzeLog stored clock text fileName (Some (activeRules allRules selectedRuleIds)).

End AnalyzerPage.

(** ** services/analysisEngine.ts: the store of the rules

    [localStorage] is seen through the one item the module uses; it is taken
    to be available.  [INITIAL_RULES] is an array of the module, which
    [getRules] hands out itself when it falls back on it, so its content is
    part of the state. *)

Module JsArray.

(** [a.findIndex(p)]. *)
Fixpoint findIndex {A : Type} (p : A -> bool) (a : list A) : Z :=
  match a with
  | [] => -1
  | x :: rest =>
      if p x then 0
      else let i := findIndex p rest in if i <? 0 then -1 else i + 1
  end.

(** [a[index] = v] for an index of the array. *)
Fixpoint setAt {A : Type} (a : list A) (index : nat) (v : A) : list A :=
  match a, index with
  | [], _ => []
  | _ :: rest, O => v :: rest
  | x :: rest, S i => x :: setAt rest i v
  end.

End JsArray.

(** [JSON.stringify] and [JSON.parse] on arrays of rules; [parse] gives the
    message of the error it throws, or the array. *)
Class JsonHost := {
  stringify : list Rule.LogRule -> string;
  parse : string -> string + list Rule.LogRule
}.

Module Store.

Record World := {
  item : option string;
  INITIAL_RULES : list Rule.LogRule
}.

(** [localStorage.setItem(STORAGE_KEY, text)]. *)
Definition setItem (w : World) (text : string) : World :=
  {| item := Some text; INITIAL_RULES := INITIAL_RULES w |}.

(** The array [getRules] returns: one made by [JSON.parse], or
    [INITIAL_RULES] itself. *)
Inductive RulesArray :=
| Parsed (rules : list Rule.LogRule)
| Initial.

Definition content (w : World) (a : RulesArray) : list Rule.LogRule :=
  match a with
  | Parsed rules => rules
  | Initial => INITIAL_RULES w
  end.

Section WithJson.
Context {json : JsonHost}.

(** [getRules()], with what its [catch] branch writes to the console. *)
Definition getRulesArray (w : World) : RulesArray * list Engine.ConsoleEntry :=
  match item w with
  | Some stored =>
      if negb (String.eqb stored "") then
        match parse stored with
        | inr rules => (Parsed rules, [])
        | inl e =>
            (Initial, [{| Engine.message := "Error reading rules:"; Engine.error := e |}])
        end
      else (Initial, [])
  | None => (Initial, [])
  end.

Definition getRules (w : World) : list Rule.LogRule := content w (fst (getRulesArray w)).

(** The array [updated] of [saveRule]. *)
Definition upsert (current : list Rule.LogRule) (rule : Rule.LogRule)
  : list Rule.LogRule :=
  let index := JsArray.findIndex (fun r => String.eqb (Rule.id r) (Rule.id rule)) current in
  if 0 <=? index then JsArray.setAt current (Z.to_nat index) rule
  else current ++ [rule].

Definition saveRule (w : World) (rule : Rule.LogRule) : World :=
  setItem w (stringify (upsert (getRules w) rule)).

Definition saveRulesBulk (w : World) (rules : list Rule.LogRule) : World :=
  setItem w (stringify rules).

Definition deleteRule (w : World) (id : string) : World :=
  let current := getRules w in
  let updated := filter (fun r => negb (String.eqb (Rule.id r) id)) current in
  setItem w (stringify updated).

Definition clearRules (w : World) : World := setItem w (stringify []).

Definition resetRulesToDefaults (w : World) : World :=
  setItem w (stringify (INITIAL_RULES w)).

(** [initStorage()], run when the module is loaded. *)
Definition initStorage (w : World) : World :=
  match item w with
  | None => setItem w (stringify (INITIAL_RULES w))
  | Some _ => w
  end.

(** [analyzeLog(fileContent, fileName)] without [customRules]: the array of
    [getRules()] is sorted in place, and when that array is [INITIAL_RULES]
    the module's array is the one sorted. *)
Definition analyzeLogStored {host : RegExpHost} (w : World) (clock : Engine.Clock)
    (fileContent fileName : string) : Engine.Outcome * World :=
  let a := fst (getRulesArray w) in
  let outcome := Engine.analyzeLog (content w a) clock fileContent fileName None in
  (outcome,
   match a with
   | Parsed _ => w
   | Initial => {| item := item w; INITIAL_RULES := Engine.rulesAfter outcome |}
   end).

(** [upsert] told by recursion on the array: the first rule with the id is
    replaced, or the rule is added at the end. *)
Fixpoint replaceOrAppend (current : list Rule.LogRule) (rule : Rule.LogRule)
  : list Rule.LogRule :=
  match current with
  | [] => [rule]
  | r :: rest =>
      if String.eqb (Rule.id r) (Rule.id rule) then rule :: rest
      else r :: replaceOrAppend rest rule
  end.

(** The host reads back the array it wrote. *)
Definition readsBack (rules : list Rule.LogRule) : Prop :=
  parse (stringify rules) = inr rules /\ stringify rules <> "".

End WithJson.
End Store.

(** ** JSON text of rule arrays

    An instance of [JsonHost]: [stringify] writes the text [JSON.stringify]
    writes for an array of rules (no white space, the fields in the order
    they are declared in), and [parse] reads texts of that form; any other
    text is refused. *)

Module JsonText.

Definition DQUOTE : ascii := Ascii.ascii_of_nat 34.

Definition hexDigit (n : nat) : ascii :=
  if Nat.ltb n 10 then Ascii.ascii_of_nat (48 + n) else Ascii.ascii_of_nat (87 + n).

(** A character inside a string literal. *)
Definition escape (c : ascii) : string :=
  let n := Ascii.nat_of_ascii c in
  if Nat.eqb n 34 then String Js.BACKSLASH (String DQUOTE EmptyString)
  else if Nat.eqb n 92 then String Js.BACKSLASH (String Js.BACKSLASH EmptyString)
  else if Nat.eqb n 8 then String Js.BACKSLASH "b"
  else if Nat.eqb n 12 then String Js.BACKSLASH "f"
  else if Nat.eqb n 10 then String Js.BACKSLASH "n"
  else if Nat.eqb n 13 then String Js.BACKSLASH "r"
  else if Nat.eqb n 9 then String Js.BACKSLASH "t"
  else if Nat.ltb n 32 then
    String Js.BACKSLASH
      (String "u" (String "0" (String "0"
         (String (hexDigit (Nat.div n 16)) (String (hexDigit (Nat.modulo n 16)) EmptyString)))))
  else String c EmptyString.

Fixpoint escapeAll (s : string) : string :=
  match s with
  | EmptyString => EmptyString
  | String c s' => (escape c ++ escapeAll s')%string
  end.

Definition quote (s : string) : string :=
  String DQUOTE (escapeAll s ++ String DQUOTE EmptyString)%string.

Definition number (z : Z) : string := NilZero.string_of_int (Z.to_int z).

Definition severityName (sev : ErrorSeverity) : string :=
  match sev with
  | CRITICAL => "CRITICAL"
  | ERROR => "ERROR"
  | WARNING => "WARNING"
  end.

Definition array (elements : list string) : string :=
  ("[" ++ String.concat "," elements ++ "]")%string.

Definition field (key value : string) : string := (quote key ++ ":" ++ value)%string.

Definition object (r : Rule.LogRule) : string :=
  ("{" ++ String.concat ","
            [field "id" (quote (Rule.id r));
             field "name" (quote (Rule.name r));
             field "regex" (quote (Rule.regex r));
             field "keywords" (array (map quote (Rule.keywords r)));
             field "solution" (quote (Rule.solution r));
             field "severity" (quote (severityName (Rule.severity r)));
             field "weight" (number (Rule.weight r))]
       ++ "}")%string.

Definition write (rules : list Rule.LogRule) : string := array (map object rules).

(** Readers take the text left and give what they read and the text after. *)
Fixpoint expect (lit s : string) : option string :=
  match lit with
  | EmptyString => Some s
  | String a lit' =>
      match s with
      | String b s' => if Ascii.eqb a b then expect lit' s' else None
      | EmptyString => None
      end
  end.

Definition hexValue (c : ascii) : option nat :=
  let n := Ascii.nat_of_ascii c in
  if Nat.leb 48 n && Nat.leb n 57 then Some (n - 48)%nat
  else if Nat.leb 97 n && Nat.leb n 102 then Some (n - 87)%nat
  else if Nat.leb 65 n && Nat.leb n 70 then Some (n - 55)%nat
  else None.

Definition simpleEscape (e : ascii) : option ascii :=
  if Ascii.eqb e DQUOTE then Some DQUOTE
  else if Ascii.eqb e Js.BACKSLASH then Some Js.BACKSLASH
  else if Ascii.eqb e "/" then Some "/"%char
  else if Ascii.eqb e "b" then Some (Ascii.ascii_of_nat 8)
  else if Ascii.eqb e "f" then Some (Ascii.ascii_of_nat 12)
  else if Ascii.eqb e "n" then Some Js.LF
  else if Ascii.eqb e "r" then Some Js.CR
  else if Ascii.eqb e "t" then Some (Ascii.ascii_of_nat 9)
  else None.

(** The characters of a string literal, after its opening quote. *)
Fixpoint readChars (s : string) : option (string * string) :=
  match s with
  | EmptyString => None
  | String c rest =>
      if Ascii.eqb c DQUOTE then Some (EmptyString, rest)
      else if Ascii.eqb c Js.BACKSLASH then
        match rest with
        | String "u" (String "0" (String "0" (String h1 (String h2 rest')))) =>
            match hexValue h1, hexValue h2, readChars rest' with
            | Some a, Some b, Some (body, after) =>
                Some (String (Ascii.ascii_of_nat (16 * a + b)) body, after)
            | _, _, _ => None
            end
        | String e rest' =>
            match simpleEscape e, readChars rest' with
            | Some d, Some (body, after) => Some (String d body, after)
            | _, _ => None
            end
        | EmptyString => None
        end
      else if Nat.ltb (Ascii.nat_of_ascii c) 32 then None
      else
        match readChars rest with
        | Some (body, after) => Some (String c body, after)
        | None => None
        end
  end.

Definition readString (s : string) : option (string * string) :=
  match s with
  | String c rest => if Ascii.eqb c DQUOTE then readChars rest else None
  | EmptyString => None
  end.

(** The elements of an array after its opening bracket; [fuel] bounds their
    number. *)
Fixpoint readElements {A : Type} (readOne : string -> option (A * string)) (fuel : nat)
    (s : string) : option (list A * string) :=
  match fuel with
  | O => None
  | S fuel' =>
      match readOne s with
      | Some (x, String c rest) =>
          if Ascii.eqb c "]" then Some ([x], rest)
          else if Ascii.eqb c "," then
            match readElements readOne fuel' rest with
            | Some (xs, after) => Some (x :: xs, after)
            | None => None
            end
          else None
      | _ => None
      end
  end.

Definition readArray {A : Type} (readOne : string -> option (A * string)) (s : string)
  : option (list A * string) :=
  match s with
  | String "[" (String "]" rest) => Some ([], rest)
  | String "[" rest => readElements readOne (String.length rest) rest
  | _ => None
  end.

Definition isDigit (c : ascii) : bool :=
  let n := Ascii.nat_of_ascii c in Nat.leb 48 n && Nat.leb n 57.

Fixpoint readDigits (s : string) : string * string :=
  match s with
  | String c rest =>
      if isDigit c then let '(ds, after) := readDigits rest in (String c ds, after)
      else (EmptyString, s)
  | EmptyString => (EmptyString, EmptyString)
  end.

Definition readNumber (s : string) : option (Z * string) :=
  let '(sign, body) :=
    match s with
    | String "-" rest => ("-", rest)
    | _ => (EmptyString, s)
    end in
  let '(ds, after) := readDigits body in
  match ds with
  | EmptyString => None
  | _ =>
      match NilZero.int_of_string (sign ++ ds)%string with
      | Some i => Some (Z.of_int i, after)
      | None => None
      end
  end.

Definition readSeverity (s : string) : option (ErrorSeverity * string) :=
  match readString s with
  | Some (name, after) =>
      if String.eqb name "CRITICAL" then Some (CRITICAL, after)
      else if String.eqb name "ERROR" then Some (ERROR, after)
      else if String.eqb name "WARNING" then Some (WARNING, after)
      else None
  | None => None
  end.

(** A field of an object: the text [lead], the key, a colon and the value. *)
Definition readField {A : Type} (lead key : string) (readValue : string -> option (A * string))
    (s : string) : option (A * string) :=
  match expect (lead ++ quote key ++ ":")%string s with
  | Some rest => readValue rest
  | None => None
  end.

Definition readObject (s : string) : option (Rule.LogRule * string) :=
  match readField "{" "id" readString s with
  | Some (id, s1) =>
  match readField "," "name" readString s1 with
  | Some (name, s2) =>
  match readField "," "regex" readString s2 with
  | Some (regex, s3) =>
  match readField "," "keywords" (readArray readString) s3 with
  | Some (keywords, s4) =>
  match readField "," "solution" readString s4 with
  | Some (solution, s5) =>
  match readField "," "severity" readSeverity s5 with
  | Some (severity, s6) =>
  match readField "," "weight" readNumber s6 with
  | Some (weight, s7) =>
  match expect "}" s7 with
  | Some after =>
      Some ({| Rule.id := id; Rule.name := name; Rule.regex := regex;
               Rule.keywords := keywords; Rule.solution := solution;
               Rule.severity := severity; Rule.weight := weight |}, after)
  | None => None end
  | None => None end
  | None => None end
  | None => None end
  | None => None end
  | None => None end
  | None => None end
  | None => None end.

Definition read (text : string) : string + list Rule.LogRule :=
  match readArray readObject text with
  | Some (rules, EmptyString) => inr rules
  | _ => inl "Unexpected token in JSON"%string
  end.

#[export] Instance host : JsonHost := {|
  stringify := write;
  parse := read
|}.

End JsonText.

(** ** Sample stores *)

Module Fixture.

Definition defaults : list Rule.LogRule :=
  [Sample.mkRule "1" "Shader" "Shader error in '(.*)': (.*)" ["Shader"; "error"] ERROR 10;
   Sample.csError; Sample.buildFailed; Sample.genericFailure].

(** A store that holds two rules, one of them with characters that the
    text form escapes. *)
Definition quoted : Rule.LogRule :=
  Sample.mkRule "q-1" (String JsonText.DQUOTE "odd\name") ("a" ++ Js.newline ++ "b")
    [String (Ascii.ascii_of_nat 1) "x"] WARNING (-3).

Definition twoRules : list Rule.LogRule := [Sample.genericFailure; quoted].

Definition fresh : Store.World := {| Store.item := None; Store.INITIAL_RULES := defaults |}.

Definition holding (rules : list Rule.LogRule) : Store.World :=
  {| Store.item := Some (JsonText.write rules); Store.INITIAL_RULES := defaults |}.

(** A log on which three rules win a line each, one of them twice. *)
Definition mixedLog : string :=
  Sample.lines
    ["Build failed now"; "error CS0029: cannot convert"; "job failed"; "copy failed"].

Definition mixedReport : Report.AnalysisReport :=
  Engine.report (Sample.run mixedLog Sample.stored).

(** A rule whose id is a name that objects inherit. *)
Definition inheritedId : Rule.LogRule :=
  Sample.mkRule "constructor" "Odd id" "failed" [] ERROR 1.

End Fixture.

(** ** Objects used as maps, and numbers as text *)

Module JsObject.

(** The own properties of an object, in the order of their creation. *)
Definition t (V : Type) : Type := list (string * V).

(** The names every object inherits from [Object.prototype]. *)
Definition prototypeKeys : list string :=
  ["constructor"; "hasOwnProperty"; "isPrototypeOf"; "propertyIsEnumerable";
   "toLocaleString"; "toString"; "valueOf"; "__proto__"; "__defineGetter__";
   "__defineSetter__"; "__lookupGetter__"; "__lookupSetter__"].

(** [o[k]]: an own value, something inherited, or [undefined]. *)
Inductive lookup (V : Type) :=
| Own (v : V)
| Inherited
| Missing.
Arguments Own {V} v.
Arguments Inherited {V}.
Arguments Missing {V}.

Definition get {V : Type} (o : t V) (k : string) : lookup V :=
  match find (fun p => String.eqb (fst p) k) o with
  | Some (_, v) => Own v
  | None => if existsb (String.eqb k) prototypeKeys then Inherited else Missing
  end.

(** [o[k] = v] for a name that is not inherited: the value of an own
    property is replaced where it stands, a new property comes last. *)
Fixpoint set {V : Type} (o : t V) (k : string) (v : V) : t V :=
  match o with
  | [] => [(k, v)]
  | (k', v') :: rest =>
      if String.eqb k' k then (k', v) :: rest else (k', v') :: set rest k v
  end.

Definition isDigit (c : ascii) : bool :=
  let n := Ascii.nat_of_ascii c in Nat.leb 48 n && Nat.leb n 57.

Fixpoint digitsValue (acc : Z) (s : string) : option Z :=
  match s with
  | EmptyString => Some acc
  | String c s' =>
      if isDigit c then digitsValue (10 * acc + Z.of_nat (Ascii.nat_of_ascii c - 48)) s'
      else None
  end.

(** The number a property name stands for when it is an array index: a
    decimal numeral without leading zero, at most [2^32 - 2]. *)
Definition arrayIndex (k : string) : option Z :=
  match k with
  | EmptyString => None
  | String c rest =>
      if Ascii.eqb c "0" && negb (String.eqb rest EmptyString) then None
      else
        match digitsValue 0 k with
        | Some n => if n <=? 4294967294 then Some n else None
        | None => None
        end
  end.

Definition indexOr0 (k : string) : Z :=
  match arrayIndex k with Some n => n | None => 0 end.

Definition isIndex (k : string) : bool :=
  match arrayIndex k with Some _ => true | None => false end.

(** [Object.values(o)]: the values under array indices by ascending index,
    then the others in the order of creation. *)
Definition values {V : Type} (o : t V) : list V :=
  map snd
    (Js.sort (fun p q => indexOr0 (fst p) - indexOr0 (fst q))
       (filter (fun p => isIndex (fst p)) o)
     ++ filter (fun p => negb (isIndex (fst p))) o).

End JsObject.

Module JsNumber.

(** [String(n)] for an integer [n]. *)
Definition toString (n : Z) : string := NilZero.string_of_int (Z.to_int n).

End JsNumber.

(** ** pages/Analyzer.tsx: grouping the Issues of a report *)

Module Grouping.

(** [getIssueId]: the rule id, a dash and the line number. *)
Definition getIssueId (issue : Issue.AnalyzedIssue) : string :=
  (Issue.ruleId issue ++ "-" ++ JsNumber.toString (Issue.lineNumber issue))%string.

(** The test of the filter box on one Issue; an empty text lets all pass. *)
Definition passesFilter {text : CaseHost} (filterText : string)
    (issue : Issue.AnalyzedIssue) : bool :=
  let lowerFilter := toLowerCase filterText in
  if negb (String.eqb filterText "") then
    Js.includes (toLowerCase (Issue.ruleName issue)) lowerFilter
    || Js.includes (toLowerCase (Issue.matchContent issue)) lowerFilter
  else true.

(** The body of [report.issues.forEach]; [None] once a [TypeError] was
    thrown: under an inherited name there is something that has no [issues]
    to push on. *)
Definition addIssue {text : CaseHost} (filterText : string)
    (groups : option (JsObject.t Analyzer.IssueGroup)) (issue : Issue.AnalyzedIssue)
  : option (JsObject.t Analyzer.IssueGroup) :=
  match groups with
  | None => None
  | Some groups =>
      if negb (passesFilter filterText issue) then Some groups
      else
        match JsObject.get groups (Issue.ruleId issue) with
        | JsObject.Own g =>
            Some (JsObject.set groups (Issue.ruleId issue)
                    {| Analyzer.ruleId := Analyzer.ruleId g;
                       Analyzer.ruleName := Analyzer.ruleName g;
                       Analyzer.severity := Analyzer.severity g;
                       Analyzer.issues := Analyzer.issues g ++ [issue] |})
        | JsObject.Missing =>
            Some (JsObject.set groups (Issue.ruleId issue)
                    {| Analyzer.ruleId := Issue.ruleId issue;
                       Analyzer.ruleName := Issue.ruleName issue;
                       Analyzer.severity := Issue.severity issue;
                       Analyzer.issues := [issue] |})
        | JsObject.Inherited => None
        end
  end.

(** [groupedIssues]: the groups shown, or [None] when the computation
    throws. *)
Definition groupedIssues {text : CaseHost} (localeCompare : string -> string -> Z)
    (report : option Report.AnalysisReport) (filterText : string)
    (sortOrder : Analyzer.SortOrder) : option (list Analyzer.IssueGroup) :=
  match report with
  | None => Some []
  | Some report =>
      match fold_left (addIssue filterText) (Report.issues report) (Some []) with
      | Some groups =>
          Some (Analyzer.sortGroups localeCompare sortOrder (JsObject.values groups))
      | None => None
      end
  end.

(** The Issues that pass the filter box. *)
Definition visible {text : CaseHost} (filterText : string) (issues : list Issue.AnalyzedIssue)
  : list Issue.AnalyzedIssue :=
  filter (passesFilter filterText) issues.

(** The name of the rule of an Issue is one that objects inherit. *)
Definition inheritedName (issue : Issue.AnalyzedIssue) : bool :=
  existsb (String.eqb (Issue.ruleId issue)) JsObject.prototypeKeys.

(** What a group holds when the Issues seen so far are [seen]. *)
Definition groupOf (seen : list Issue.AnalyzedIssue) (k : string) (g : Analyzer.IssueGroup)
  : Prop :=
  Analyzer.ruleId g = k
  /\ Analyzer.issues g = filter (fun i => String.eqb (Issue.ruleId i) k) seen
  /\ exists first,
       hd_error (Analyzer.issues g) = Some first
       /\ Analyzer.ruleName g = Issue.ruleName first
       /\ Analyzer.severity g = Issue.severity first.

(** The object of the groups after the visible Issues [seen]: one property
    for each rule id seen, none under an inherited name. *)
Definition wellGrouped (seen : list Issue.AnalyzedIssue)
    (groups : JsObject.t Analyzer.IssueGroup) : Prop :=
  NoDup (map fst groups)
  /\ (forall k g, In (k, g) groups -> groupOf seen k g)
  /\ (forall i, In i seen -> In (Issue.ruleId i) (map fst groups))
  /\ (forall k, In k (map fst groups) ->
        existsb (String.eqb k) JsObject.prototypeKeys = false).

End Grouping.

(** The text after the last dash of a text, when it has one. *)
Fixpoint afterLastDash (s : string) : option string :=
  match s with
  | EmptyString => None
  | String c s' =>
      match afterLastDash s' with
      | Some t => Some t
      | None => if Ascii.eqb c "-" then Some s' else None
      end
  end.


(** ** pages/KnowledgeBase.tsx: the pager and the form *)

Module KnowledgeBaseActions.

(** The buttons of the pager. *)
Definition previousPage (currentPage : Z) : Z := Z.max 1 (currentPage - 1).

Definition nextPage (totalPages currentPage : Z) : Z := Z.min totalPages (currentPage + 1).

(** The range named in the footer: "[shownFrom] to [shownTo] of [total]". *)
Definition shownFrom (currentPage : Z) : Z :=
  (currentPage - 1) * KnowledgeBase.PAGE_SIZE + 1.

Definition shownTo (currentPage total : Z) : Z :=
  Z.min (currentPage * KnowledgeBase.PAGE_SIZE) total.

(** [s.split(sep)] for a separator of one character: the first piece and
    the pieces after it. *)
Fixpoint splitOnFrom (sep : ascii) (s : string) : string * list string :=
  match s with
  | EmptyString => (EmptyString, [])
  | String c s' =>
      let '(piece, rest) := splitOnFrom sep s' in
      if Ascii.eqb c sep then (EmptyString, piece :: rest) else (String c piece, rest)
  end.

Definition splitOn (sep : ascii) (s : string) : list string :=
  let '(piece, rest) := splitOnFrom sep s in piece :: rest.

(** The keywords read from the box of the form:
    [value.split(',').map(k => k.trim()).filter(k => k)]. *)
Definition keywordsOfInput (value : string) : list string :=
  filter (fun k => negb (String.eqb k "")) (map Js.trim (splitOn "," value)).

(** What the box shows for the keywords held: [keywords.join(', ')]. *)
Definition keywordsBox (keywords : list string) : string := String.concat ", " keywords.

(** A text that is present and not empty. *)
Definition truthy (o : option string) : bool :=
  match o with
  | Some s => negb (String.eqb s "")
  | None => false
  end.

Definition orElse {A : Type} (o : option A) (d : A) : A :=
  match o with Some x => x | None => d end.

(** [n || 10]. *)
Definition weightOr10 (o : option Z) : Z :=
  match o with
  | Some n => if n =? 0 then 10 else n
  | None => 10
  end.

(** The state of the form, a [Partial<LogRule>]. *)
Record FormData := {
  id : option string;
  name : option string;
  regex : option string;
  keywords : option (list string);
  solution : option string;
  severity : option ErrorSeverity;
  weight : option Z
}.

(** The rule [newRule] of [handleSave]; [uuid] is what [uuidv4()] gives. *)
Definition ruleOfForm (formData : FormData) (uuid : string) : Rule.LogRule :=
  {| Rule.id := if truthy (id formData) then orElse (id formData) "" else uuid;
     Rule.name := orElse (name formData) "";
     Rule.regex := orElse (regex formData) "";
     Rule.keywords := orElse (keywords formData) [];
     Rule.solution := orElse (solution formData) "";
     Rule.severity := orElse (severity formData) ERROR;
     Rule.weight := weightOr10 (weight formData) |}.

Inductive SaveOutcome :=
| MissingFields
| DuplicateRegex
| Saved (newRule : Rule.LogRule) (w : Store.World).

(** [handleSave]: [rules] is the list the page holds, [w] the store. *)
Definition handleSave {json : JsonHost} (rules : list Rule.LogRule) (w : Store.World)
    (formData : FormData) (uuid : string) : SaveOutcome :=
  if negb (truthy (name formData)) || negb (truthy (regex formData)) then MissingFields
  else if negb (truthy (id formData))
          && existsb (fun r => String.eqb (Rule.regex r) (orElse (regex formData) "")) rules
  then DuplicateRegex
  else Saved (ruleOfForm formData uuid) (Store.saveRule w (ruleOfForm formData uuid)).

End KnowledgeBaseActions.

(** ** pages/KnowledgeBase.tsx: the import of a file of rules *)

Module RuleImport.

(** What [JSON.parse] gives.  A number is given by an integer, as the
    weights of the rules are. *)
#[warnings="-register-all"] Inductive value :=
| Null
| Bool (b : bool)
| Number (n : Z)
| Text (s : string)
| Array (elements : list value)
| Object (fields : list (string * value)).

(** [o.k] for an object [o] as [JSON.parse] makes it and a name [k] that
    objects do not inherit: the own property, or [undefined]. *)
Definition property (o : JsObject.t value) (k : string) : option value :=
  option_map snd (find (fun p => String.eqb (fst p) k) o).

(** [ToBoolean]: [undefined], [null], [false], [0] and the empty text are
    falsy, everything else is truthy, an empty array included. *)
Definition truthy (v : option value) : bool :=
  match v with
  | None => false
  | Some Null => false
  | Some (Bool b) => b
  | Some (Number n) => negb (n =? 0)
  | Some (Text s) => negb (String.eqb s "")
  | Some (Array _) => true
  | Some (Object _) => true
  end.

(** [a === b] for values read from two different places of what was parsed:
    an array or an object is the same as itself only, so two of them that
    are read from different places are never the same, whatever they hold. *)
Definition strictEquals (a b : option value) : bool :=
  match a, b with
  | None, None => true
  | Some Null, Some Null => true
  | Some (Bool x), Some (Bool y) => Bool.eqb x y
  | Some (Number x), Some (Number y) => x =? y
  | Some (Text x), Some (Text y) => String.eqb x y
  | _, _ => false
  end.

(** [v || d]. *)
Definition orElse (v : option value) (d : value) : value :=
  match v with
  | Some x => if truthy v then x else d
  | None => d
  end.

(** The own properties in the order in which they are enumerated: the
    array indices first, ascending, then the other names in the order of
    their creation. *)
Definition ownEntries (o : JsObject.t value) : JsObject.t value :=
  Js.sort (fun p q => JsObject.indexOr0 (fst p) - JsObject.indexOr0 (fst q))
    (filter (fun p => JsObject.isIndex (fst p)) o)
  ++ filter (fun p => negb (JsObject.isIndex (fst p))) o.

(** The object pushed for an entry:
    [{...item, id: uuidv4(), keywords: item.keywords || [],
      weight: item.weight || 10, severity: item.severity || ErrorSeverity.ERROR}]. *)
Definition newRule (item : JsObject.t value) (uuid : string) : JsObject.t value :=
  let o := ownEntries item in
  let o := JsObject.set o "id" (Text uuid) in
  let o := JsObject.set o "keywords" (orElse (property item "keywords") (Array [])) in
  let o := JsObject.set o "weight" (orElse (property item "weight") (Number 10)) in
  JsObject.set o "severity" (orElse (property item "severity") (Text "ERROR")).

Record ImportState := {
  newRules : list (JsObject.t value);
  addedCount : Z;
  duplicateCount : Z
}.

(** The body of [json.forEach], [None] once a [TypeError] was thrown.
    Reading [item.name] throws on [null]; on a boolean, a number, a text or
    an array it gives [undefined], so that such an entry is passed over.
    [uuid k] is what the call number [k] of [uuidv4()] gives. *)
Definition importStep (uuid : nat -> string) (state : option ImportState) (item : value)
  : option ImportState :=
  match state with
  | None => None
  | Some st =>
      match item with
      | Null => None
      | Object fields =>
          if truthy (property fields "name") && truthy (property fields "regex") then
            if existsb
                 (fun r => strictEquals (property r "regex") (property fields "regex"))
                 (newRules st)
            then Some {| newRules := newRules st; addedCount := addedCount st;
                         duplicateCount := duplicateCount st + 1 |}
            else Some {| newRules :=
                           newRules st
                           ++ [newRule fields (uuid (Z.to_nat (addedCount st)))];
                         addedCount := addedCount st + 1;
                         duplicateCount := duplicateCount st |}
          else Some st
      | _ => Some st
      end
  end.

(** What [reader.onload] comes to: the alert of its [catch] branch, the
    alert that the root is no array, or [saveRulesBulk(newRules)] and
    [setRules(newRules)] followed by the alert of the two counts.  In the
    first two cases nothing is saved. *)
Inductive ImportResult :=
| ParseFailed
| NotAnArray
| Imported (newRules : list (JsObject.t value)) (addedCount duplicateCount : Z).

(** [reader.onload]: [parsed] is what [JSON.parse] gives for the text of the
    file, [None] when it throws; [currentRules] is the array of [getRules()]. *)
Definition handleJsonImport (uuid : nat -> string) (currentRules : list (JsObject.t value))
    (parsed : option value) : ImportResult :=
  match parsed with
  | None => ParseFailed
  | Some (Array items) =>
      match fold_left (importStep uuid) items
              (Some {| newRules := currentRules; addedCount := 0; duplicateCount := 0 |})
      with
      | Some st => Imported (newRules st) (addedCount st) (duplicateCount st)
      | None => ParseFailed
      end
  | Some _ => NotAnArray
  end.

(** An entry that has a name and a pattern: [item.name && item.regex]. *)
Definition usable (item : value) : bool :=
  match item with
  | Object fields => truthy (property fields "name") && truthy (property fields "regex")
  | _ => false
  end.

Definition usableCount (items : list value) : Z :=
  Z.of_nat (List.length (filter usable items)).

(** The pattern of an entry. *)
Definition regexOf (item : value) : option value :=
  match item with
  | Object fields => property fields "regex"
  | _ => None
  end.

(** A value that is no array and no object. *)
Definition primitive (v : option value) : bool :=
  match v with
  | Some (Array _) => false
  | Some (Object _) => false
  | _ => true
  end.

(** The entries with a name and a pattern have a text, a number or a
    boolean for pattern. *)
Definition plainPatterns (items : list value) : Prop :=
  forall item, In item items -> usable item = true -> primitive (regexOf item) = true.

(** A rule of the store as the object that [JSON.parse] gives for it. *)
Definition severityText (s : ErrorSeverity) : string :=
  match s with
  | CRITICAL => "CRITICAL"
  | ERROR => "ERROR"
  | WARNING => "WARNING"
  end.

Definition objectOfRule (r : Rule.LogRule) : JsObject.t value :=
  [("id", Text (Rule.id r)); ("name", Text (Rule.name r)); ("regex", Text (Rule.regex r));
   ("keywords", Array (map Text (Rule.keywords r))); ("solution", Text (Rule.solution r));
   ("severity", Text (severityText (Rule.severity r))); ("weight", Number (Rule.weight r))].

End RuleImport.

Module Counting.

(** Number of occurrences of a character. *)
Fixpoint countChar (c : ascii) (s : string) : nat :=
  match s with
  | EmptyString => O
  | String d s' => if Ascii.eqb d c then S (countChar c s') else countChar c s'
  end.

(** A keyword as the form stores it: not empty, without a comma, without
    white space at either end. *)
Definition keyword (k : string) : Prop :=
  k <> EmptyString /\ countChar "," k = O /\ Js.trim k = k.

End Counting.

(** Forms and imports to run the page on. *)
Module Desk.

Definition newForm : KnowledgeBaseActions.FormData :=
  {| KnowledgeBaseActions.id := None;
     KnowledgeBaseActions.name := Some "Timeout";
     KnowledgeBaseActions.regex := Some "timed out after (\d+)s";
     KnowledgeBaseActions.keywords := Some ["timed out"];
     KnowledgeBaseActions.solution := None;
     KnowledgeBaseActions.severity := None;
     KnowledgeBaseActions.weight := Some 0 |}.

Definition uuid (k : nat) : string := ("u-" ++ JsNumber.toString (Z.of_nat k))%string.

(** A file with a pattern of the store, a new pattern given twice, an entry
    without a name and a text that is no rule; the same file with an entry
    whose pattern is an array; and the same file with the entry [null]. *)
Definition entry (name regex : string) : RuleImport.value :=
  RuleImport.Object
    [("name", RuleImport.Text name); ("regex", RuleImport.Text regex);
     ("solution", RuleImport.Text "see the wiki"); ("weight", RuleImport.Number 0)].

Definition items : list RuleImport.value :=
  [entry "Known" (Rule.regex Sample.genericFailure);
   entry "Timeout" "timed out";
   entry "Timeout again" "timed out";
   RuleImport.Object [("regex", RuleImport.Text "nameless")];
   RuleImport.Text "no rule"].

Definition oddEntry : RuleImport.value :=
  RuleImport.Object
    [("name", RuleImport.Text "Odd");
     ("regex", RuleImport.Array [RuleImport.Text "a"])].

Definition stored : list (JsObject.t RuleImport.value) :=
  map RuleImport.objectOfRule Fixture.twoRules.

End Desk.

(** * Properties *)

(** ** The primitives on small inputs *)

Example splitLines_mixed :
  Js.splitLines ("a" ++ String Js.CR Js.newline ++ "b" ++ Js.newline ++ Js.newline
                 ++ String Js.CR "c")%string
  = ["a"; "b"; ""; String Js.CR "c"].
Proof. vm_compute. reflexivity. Qed.

Example splitLines_empty : Js.splitLines "" = [""].
Proof. reflexivity. Qed.

Example trim_both_ends : Js.trim "  a b  " = "a b" /\ Js.trim "   " = "".
Proof. split; reflexivity. Qed.

Example slice_clamps : Js.slice [1; 2; 3; 4; 5] 3 13 = [4; 5] /\ Js.slice [1; 2; 3] (-2) 9 = [2; 3].
Proof. split; reflexivity. Qed.

Example sort_is_stable :
  map Rule.id
    (Js.sort Engine.byWeightDesc
       [Sample.genericFailure; Sample.genericTwin; Sample.buildFailed; Sample.csError])
  = ["3"; "6"; "7"; "8"].
Proof. vm_compute. reflexivity. Qed.

Example sanitize_named_groups :
  Engine.sanitize "x(?P<name>a)(?P<>b)(?P<q" = "x(a)(?P<>b)(?P<q".
Proof. vm_compute. reflexivity. Qed.

Example parse_unbalanced : MiniRegExp.parse "Build (failed" = inl "Unterminated group".
Proof. vm_compute. reflexivity. Qed.

Example search_ignores_case :
  option_map (fun re => MiniRegExp.search re "xx build FAILED now")
    (match MiniRegExp.parse "Build (failed|Failed) (.*)" with
     | inr re => Some re
     | inl _ => None
     end)
  = Some (Some "build FAILED now").
Proof. vm_compute. reflexivity. Qed.

(** The scenario of two rules on two lines: the generic rule takes line 1,
    the compile-error rule line 2. *)
Example scenario_two_rules :
  map (fun iss => (Issue.lineNumber iss, Issue.ruleId iss))
    (Report.issues
       (Engine.report
          (Sample.run (Sample.lines ["Build failed"; "error CS0029: cannot convert"; ""])
             [Sample.csError; Sample.genericFailure])))
  = [(1, "7"); (2, "3")].
Proof. vm_compute. reflexivity. Qed.

(** Among rules of one weight the one listed first wins. *)
Example tie_goes_to_first_listed :
  map Issue.ruleId
    (Report.issues
       (Engine.report (Sample.run "step failed" [Sample.genericTwin; Sample.genericFailure])))
  = ["8"]
  /\ map Issue.ruleId
       (Report.issues
          (Engine.report (Sample.run "step failed" [Sample.genericFailure; Sample.genericTwin])))
     = ["7"].
Proof. split; vm_compute; reflexivity. Qed.

(** ** The fragment engine: the bound on the repetitions loses nothing *)

Module MiniRegExpFacts.
Import MiniRegExp.

Lemma star_ext (body : string -> cont -> option string) :
  continuationBound body ->
  forall fuel s k1 k2, (forall x, k1 x = k2 x) -> star body fuel s k1 = star body fuel s k2.
Proof.
  intros [Hext _]. induction fuel as [|fuel IH]; intros s k1 k2 Hk; simpl.
  - apply Hk.
  - rewrite (Hext s _ (fun s' =>
                         if Nat.ltb (String.length s') (String.length s)
                         then star body fuel s' k2 else None)).
    + now rewrite Hk.
    + intros x. destruct (Nat.ltb (String.length x) (String.length s)); auto.
Qed.

Lemma star_none (body : string -> cont -> option string) :
  continuationBound body ->
  forall fuel s k, (forall x, k x = None) -> star body fuel s k = None.
Proof.
  intros [_ Hnone]. induction fuel as [|fuel IH]; intros s k Hk; simpl.
  - apply Hk.
  - rewrite Hnone; [apply Hk|].
    intros x. destruct (Nat.ltb (String.length x) (String.length s)); auto.
Qed.

Lemma matchNode_bound (r : node) : continuationBound (matchNode r).
Proof.
  induction r as [|c| | |a IHa b IHb|a IHa b IHb|a IHa]; split; simpl.
  - intros s k1 k2 Hk. apply Hk.
  - intros s k Hk. apply Hk.
  - intros [|d s] k1 k2 Hk; [reflexivity|]. destruct (sameChar c d); auto.
  - intros [|d s] k Hk; [reflexivity|]. destruct (sameChar c d); auto.
  - intros [|d s] k1 k2 Hk; [reflexivity|]. destruct (isLineTerminator d); auto.
  - intros [|d s] k Hk; [reflexivity|]. destruct (isLineTerminator d); auto.
  - intros [|d s] k1 k2 Hk; [reflexivity|]. destruct (isDigit d); auto.
  - intros [|d s] k Hk; [reflexivity|]. destruct (isDigit d); auto.
  - intros s k1 k2 Hk. apply IHa. intros x. now apply IHb.
  - intros s k Hk. apply IHa. intros x. now apply IHb.
  - intros s k1 k2 Hk. destruct IHa as [Ea _], IHb as [Eb _].
    now rewrite (Ea s k1 k2 Hk), (Eb s k1 k2 Hk).
  - intros s k Hk. destruct IHa as [_ Na], IHb as [_ Nb].
    now rewrite (Na s k Hk), (Nb s k Hk).
  - intros s k1 k2 Hk. now apply star_ext.
  - intros s k Hk. now apply star_none.
Qed.

(** Any fuel that covers the text gives the result of every larger fuel. *)
Lemma star_fuel_enough (body : string -> cont -> option string) :
  continuationBound body ->
  forall n m s k,
    (String.length s <= n)%nat -> (String.length s <= m)%nat ->
    star body n s k = star body m s k.
Proof.
  intros Hb. pose proof Hb as [Hext Hnone].
  induction n as [|n IH]; intros m s k Hn Hm.
  - destruct m as [|m]; [reflexivity|]. simpl.
    rewrite Hnone; [reflexivity|].
    intros x. destruct (Nat.ltb_spec (String.length x) (String.length s)); [lia|reflexivity].
  - destruct m as [|m]; simpl.
    + rewrite Hnone; [reflexivity|].
      intros x. destruct (Nat.ltb_spec (String.length x) (String.length s)); [lia|reflexivity].
    + rewrite (Hext s _ (fun s' =>
                           if Nat.ltb (String.length s') (String.length s)
                           then star body m s' k else None)); [reflexivity|].
      intros x. destruct (Nat.ltb_spec (String.length x) (String.length s));
        [apply IH; lia | reflexivity].
Qed.

(** The repetition of a pattern satisfies the equation of the unbounded
    loop: one more turn that consumes something, or the rest. *)
Lemma matchNode_star_unfold (a : node) (s : string) (k : cont) :
  matchNode (Star a) s k =
  match
    matchNode a s (fun s' =>
                     if Nat.ltb (String.length s') (String.length s)
                     then matchNode (Star a) s' k else None)
  with
  | Some r => Some r
  | None => k s
  end.
Proof.
  pose proof (matchNode_bound a) as Hb. pose proof Hb as [Hext Hnone].
  cbn [matchNode]. destruct (String.length s) as [|n] eqn:Hlen; cbn [star].
  - rewrite Hnone; [reflexivity|].
    intros x. destruct (Nat.ltb_spec (String.length x) 0); [lia|reflexivity].
  - rewrite Hlen.
    rewrite (Hext s _ (fun s' =>
                         if Nat.ltb (String.length s') (S n)
                         then star (matchNode a) (String.length s') s' k else None));
      [reflexivity|].
    intros x. destruct (Nat.ltb_spec (String.length x) (S n)); [|reflexivity].
    apply (star_fuel_enough _ Hb); lia.
Qed.

End MiniRegExpFacts.

(** ** The stable sort *)

Section SortFacts.
Context {A : Type} (cmp : A -> A -> Z).

Lemma insert_perm (x : A) (l : list A) : Permutation (x :: l) (Js.insert cmp x l).
Proof.
  induction l as [|y l IH]; simpl.
  - reflexivity.
  - destruct (cmp x y <=? 0).
    + reflexivity.
    + rewrite perm_swap. now apply perm_skip.
Qed.

Lemma sort_perm (l : list A) : Permutation l (Js.sort cmp l).
Proof.
  induction l as [|x l IH]; simpl.
  - constructor.
  - rewrite <- insert_perm. now apply perm_skip.
Qed.

Lemma insert_front (x : A) (l : list A) :
  HdRel (Spec.notAfter cmp) x l -> Js.insert cmp x l = x :: l.
Proof.
  destruct 1 as [|y l H]; simpl.
  - reflexivity.
  - unfold Spec.notAfter in H. apply Z.leb_le in H. now rewrite H.
Qed.

Lemma sort_fixes_sorted (l : list A) :
  Sorted (Spec.notAfter cmp) l -> Js.sort cmp l = l.
Proof.
  induction 1 as [|x l Hs IH Hhd]; simpl.
  - reflexivity.
  - rewrite IH. now apply insert_front.
Qed.

Lemma find_insert_skip (f : A -> bool) (x : A) (l : list A) :
  f x = false -> find f (Js.insert cmp x l) = find f l.
Proof.
  intros Hx. induction l as [|y l IH]; simpl.
  - now rewrite Hx.
  - destruct (cmp x y <=? 0); simpl.
    + now rewrite Hx.
    + now rewrite IH.
Qed.

Section Total.
Hypothesis total : forall a b, 0 < cmp a b -> cmp b a <= 0.

Lemma insert_HdRel (x y : A) (l : list A) :
  Spec.notAfter cmp y x -> HdRel (Spec.notAfter cmp) y l ->
  HdRel (Spec.notAfter cmp) y (Js.insert cmp x l).
Proof.
  intros Hyx Hhd. destruct Hhd as [|z l Hz]; simpl.
  - now constructor.
  - destruct (cmp x z <=? 0); now constructor.
Qed.

Lemma insert_sorted (x : A) (l : list A) :
  Sorted (Spec.notAfter cmp) l -> Sorted (Spec.notAfter cmp) (Js.insert cmp x l).
Proof.
  induction 1 as [|y l Hs IH Hhd]; simpl.
  - repeat constructor.
  - destruct (Z.leb_spec (cmp x y) 0) as [Hle|Hgt].
    + constructor; [now constructor | now constructor].
    + constructor; [exact IH|].
      apply insert_HdRel; [|exact Hhd]. now apply total.
Qed.

Lemma sort_sorted (l : list A) : Sorted (Spec.notAfter cmp) (Js.sort cmp l).
Proof.
  induction l as [|x l IH]; simpl.
  - constructor.
  - now apply insert_sorted.
Qed.

Lemma sort_idempotent (l : list A) : Js.sort cmp (Js.sort cmp l) = Js.sort cmp l.
Proof. apply sort_fixes_sorted, sort_sorted. Qed.

Section Transitive.
Hypothesis trans : forall a b c, cmp a b <= 0 -> cmp b c <= 0 -> cmp a c <= 0.

Lemma sort_strongly_sorted (l : list A) :
  StronglySorted (Spec.notAfter cmp) (Js.sort cmp l).
Proof.
  apply Sorted_StronglySorted.
  - intros a b c. apply trans.
  - apply sort_sorted.
Qed.

(** The first element accepted by [f] after an insertion into a sorted
    array. *)
Lemma find_insert (f : A -> bool) (x : A) (l : list A) :
  StronglySorted (Spec.notAfter cmp) l -> f x = true ->
  find f (Js.insert cmp x l) =
  match find f l with
  | Some y => if cmp x y <=? 0 then Some x else Some y
  | None => Some x
  end.
Proof.
  intros Hs Hx. induction Hs as [|y l Hs IH Hall]; simpl.
  - now rewrite Hx.
  - destruct (Z.leb_spec (cmp x y) 0) as [Hle|Hgt]; simpl.
    + rewrite Hx. destruct (f y) eqn:Hy.
      * apply Z.leb_le in Hle. now rewrite Hle.
      * destruct (find f l) as [z|] eqn:Hz; [|reflexivity].
        apply find_some in Hz. destruct Hz as [Hin _].
        rewrite Forall_forall in Hall. specialize (Hall z Hin).
        assert (Hxz : cmp x z <= 0) by (eapply trans; eauto).
        apply Z.leb_le in Hxz. now rewrite Hxz.
    + destruct (f y) eqn:Hy.
      * apply Z.leb_gt in Hgt. now rewrite Hgt.
      * apply IH.
Qed.

End Transitive.
End Total.
End SortFacts.

Lemma filter_nothing {A : Type} (f : A -> bool) (l : list A) :
  (forall x, In x l -> f x = false) -> filter f l = [].
Proof.
  induction l as [|x l IH]; simpl; intros H.
  - reflexivity.
  - rewrite (H x (or_introl eq_refl)). apply IH. intros y Hy. apply H. now right.
Qed.

Lemma StronglySorted_nth {A : Type} (R : A -> A -> Prop) (l : list A) :
  StronglySorted R l ->
  forall (p q : nat) (a b : A),
    (p < q)%nat -> nth_error l p = Some a -> nth_error l q = Some b -> R a b.
Proof.
  induction 1 as [|x l Hs IH Hall]; intros p q a b Hpq Hp Hq.
  - destruct p; discriminate.
  - destruct q as [|q]; [lia|]. simpl in Hq.
    destruct p as [|p]; simpl in Hp.
    + injection Hp as <-. rewrite Forall_forall in Hall.
      apply Hall. eapply nth_error_In; eauto.
    + apply (IH p q); auto. lia.
Qed.

(** ** The order of the rules *)

Lemma weightOrZero_weight (r : Rule.LogRule) : Engine.weightOrZero r = Rule.weight r.
Proof.
  unfold Engine.weightOrZero. destruct (Z.eqb_spec (Rule.weight r) 0); congruence.
Qed.

Lemma byWeightDesc_total (a b : Rule.LogRule) :
  0 < Engine.byWeightDesc a b -> Engine.byWeightDesc b a <= 0.
Proof. unfold Engine.byWeightDesc. lia. Qed.

Lemma byWeightDesc_trans (a b c : Rule.LogRule) :
  Engine.byWeightDesc a b <= 0 -> Engine.byWeightDesc b c <= 0 ->
  Engine.byWeightDesc a c <= 0.
Proof. unfold Engine.byWeightDesc. lia. Qed.

Lemma notAfter_weightGe (a b : Rule.LogRule) :
  Spec.notAfter Engine.byWeightDesc a b <-> Spec.weightGe a b.
Proof.
  unfold Spec.notAfter, Spec.weightGe, Engine.byWeightDesc.
  rewrite !weightOrZero_weight. lia.
Qed.

Lemma heaviestFirst_none (f : Rule.LogRule -> bool) (rs : list Rule.LogRule) :
  Spec.heaviestFirst f rs = None -> forall r, In r rs -> f r = false.
Proof.
  induction rs as [|a rs IH]; simpl; intros H r Hin.
  - contradiction.
  - destruct (f a) eqn:Ha.
    + destruct (Spec.heaviestFirst f rs) as [r'|]; [|discriminate].
      destruct (Rule.weight a <? Rule.weight r'); discriminate.
    + destruct Hin as [<-|Hin]; auto.
Qed.

Lemma heaviestFirst_some (f : Rule.LogRule -> bool) (rs : list Rule.LogRule)
    (r : Rule.LogRule) :
  Spec.heaviestFirst f rs = Some r ->
  exists pre post,
    rs = pre ++ r :: post /\ f r = true
    /\ (forall r', In r' pre -> f r' = true -> Rule.weight r' < Rule.weight r)
    /\ (forall r', In r' post -> f r' = true -> Rule.weight r' <= Rule.weight r).
Proof.
  revert r. induction rs as [|a rs IH]; simpl; intros r H.
  - discriminate.
  - destruct (f a) eqn:Ha.
    + destruct (Spec.heaviestFirst f rs) as [r'|] eqn:Hrest.
      * destruct (IH r' eq_refl) as (pre & post & -> & Hr' & Hpre & Hpost).
        destruct (Z.ltb_spec (Rule.weight a) (Rule.weight r')) as [Hlt|Hge];
          injection H as <-.
        -- exists (a :: pre), post. repeat split; auto.
           intros r'' [<-|Hin] Hf; auto.
        -- exists [], (pre ++ r' :: post). repeat split; auto.
           ++ intros r'' [].
           ++ intros r'' Hin Hf. apply in_app_or in Hin.
              destruct Hin as [Hin|[<-|Hin]].
              ** specialize (Hpre r'' Hin Hf). lia.
              ** exact Hge.
              ** specialize (Hpost r'' Hin Hf). lia.
      * injection H as <-. exists [], rs. repeat split; auto.
        -- intros r'' [].
        -- intros r'' Hin Hf.
           rewrite (heaviestFirst_none f rs Hrest r'' Hin) in Hf. discriminate.
    + destruct (IH r H) as (pre & post & -> & Hr & Hpre & Hpost).
      exists (a :: pre), post. repeat split; auto.
      intros r'' [<-|Hin] Hf; [congruence|auto].
Qed.

Lemma heaviestFirst_exists (f : Rule.LogRule -> bool) (rs : list Rule.LogRule)
    (r : Rule.LogRule) :
  In r rs -> f r = true -> exists r', Spec.heaviestFirst f rs = Some r'.
Proof.
  intros Hin Hf. destruct (Spec.heaviestFirst f rs) as [r'|] eqn:H.
  - now exists r'.
  - rewrite (heaviestFirst_none f rs H r Hin) in Hf. discriminate.
Qed.

(** In the sorted array the first accepted rule is the first of the heaviest. *)
Lemma find_sort_heaviestFirst (f : Rule.LogRule -> bool) (rs : list Rule.LogRule) :
  find f (Js.sort Engine.byWeightDesc rs) = Spec.heaviestFirst f rs.
Proof.
  induction rs as [|a rs IH]; simpl.
  - reflexivity.
  - destruct (f a) eqn:Ha.
    + rewrite (find_insert Engine.byWeightDesc byWeightDesc_trans);
        [|apply sort_strongly_sorted;
          [exact byWeightDesc_total | exact byWeightDesc_trans] | exact Ha].
      fold (Js.sort Engine.byWeightDesc rs). rewrite IH.
      destruct (Spec.heaviestFirst f rs) as [r'|]; [|reflexivity].
      unfold Engine.byWeightDesc. rewrite !weightOrZero_weight.
      destruct (Z.leb_spec (Rule.weight r' - Rule.weight a) 0);
        destruct (Z.ltb_spec (Rule.weight a) (Rule.weight r')); auto; lia.
    + rewrite find_insert_skip by exact Ha. exact IH.
Qed.

(** ** The scan *)

Section EngineFacts.
Context {host : RegExpHost}.
Import Engine.

Lemma compileRule_rule (r : Rule.LogRule) (c : CompiledRule) :
  fst (compileRule r) = Some c -> rule c = r.
Proof.
  unfold compileRule. destruct (newRegExp (sanitize (Rule.regex r))); simpl.
  - discriminate.
  - now intros [= <-].
Qed.

Lemma compileRules_cons (r : Rule.LogRule) (rs : list Rule.LogRule) :
  compileRules (r :: rs) =
  match fst (compileRule r) with
  | Some c => c :: compileRules rs
  | None => compileRules rs
  end.
Proof.
  unfold compileRules, dropNull. simpl. now destruct (fst (compileRule r)).
Qed.

Lemma in_compileRules (rs : list Rule.LogRule) (c : CompiledRule) :
  In c (compileRules rs) <-> exists r, In r rs /\ fst (compileRule r) = Some c.
Proof.
  induction rs as [|a rs IH].
  - simpl. split; [contradiction | now intros (r & [] & _)].
  - rewrite compileRules_cons. split.
    + destruct (fst (compileRule a)) as [c'|] eqn:Ha.
      * intros [<-|Hin]; [exists a; simpl; auto|].
        apply IH in Hin. destruct Hin as (r & Hr & Hc). exists r. simpl. auto.
      * intros Hin. apply IH in Hin. destruct Hin as (r & Hr & Hc).
        exists r. simpl. auto.
    + intros (r & [<-|Hr] & Hc).
      * rewrite Hc. now left.
      * assert (Hin : In c (compileRules rs)) by (apply IH; eauto).
        destruct (fst (compileRule a)); [now right | exact Hin].
Qed.

(** The inner loop stops at the first rule that yields an Issue. *)
Lemma matchLine_find (lines : list string) (i : Z) (line : string)
    (rs : list Rule.LogRule) :
  matchLine lines i line (compileRules rs) =
  match find (fun r => Spec.isSome (Spec.issueOf lines i line r)) rs with
  | Some r => Spec.issueOf lines i line r
  | None => None
  end.
Proof.
  induction rs as [|a rs IH].
  - reflexivity.
  - rewrite compileRules_cons. simpl find.
    destruct (Spec.issueOf lines i line a) as [iss|] eqn:Hiss; simpl;
      try rewrite Hiss; unfold Spec.issueOf in Hiss;
      destruct (fst (compileRule a)) as [c|]; simpl; try discriminate; try exact IH;
      destruct (keywordFilter c line); simpl; try discriminate; try exact IH;
      destruct (execRule lines i line c); simpl in *; try discriminate; try exact IH.
    exact Hiss.
Qed.

(** Where an Issue of the inner loop comes from. *)
Lemma matchLine_some (lines : list string) (i : Z) (line : string)
    (compiled : list CompiledRule) (iss : Issue.AnalyzedIssue) :
  matchLine lines i line compiled = Some iss ->
  exists c m,
    In c compiled /\ keywordFilter c line = true
    /\ execRule lines i line c = Some m /\ iss = makeIssue lines i line c m.
Proof.
  induction compiled as [|c cs IH]; simpl.
  - discriminate.
  - destruct (keywordFilter c line) eqn:Hk; simpl.
    + destruct (execRule lines i line c) as [m|] eqn:Hm.
      * intros [= <-]. exists c, m. auto.
      * intros H. destruct (IH H) as (c' & m & Hin & ?). exists c', m. auto.
    + intros H. destruct (IH H) as (c' & m & Hin & ?). exists c', m. auto.
Qed.

Lemma scan_fold (lines : list string) (compiled : list CompiledRule)
    (idx : list nat) (acc : list Issue.AnalyzedIssue) :
  fold_left (scanStep lines compiled) idx acc =
  acc ++ flat_map (Spec.lineIssues lines compiled) idx.
Proof.
  revert acc. induction idx as [|i idx IH]; intros acc; simpl.
  - now rewrite app_nil_r.
  - rewrite IH. unfold scanStep, Spec.lineIssues.
    destruct (nth_error lines i) as [line|]; [|reflexivity].
    destruct (2000 <? Js.length line); [reflexivity|].
    destruct (matchLine lines (Z.of_nat i) line compiled); [|reflexivity].
    now rewrite <- app_assoc.
Qed.

Lemma scan_lineIssues (lines : list string) (compiled : list CompiledRule) :
  scan lines compiled =
  flat_map (Spec.lineIssues lines compiled) (seq 0 (List.length lines)).
Proof. unfold scan. now rewrite scan_fold. Qed.

Lemma lineIssues_inv (lines : list string) (compiled : list CompiledRule) (i : nat)
    (iss : Issue.AnalyzedIssue) :
  In iss (Spec.lineIssues lines compiled i) ->
  exists line,
    nth_error lines i = Some line /\ Js.length line <= 2000
    /\ matchLine lines (Z.of_nat i) line compiled = Some iss.
Proof.
  unfold Spec.lineIssues.
  destruct (nth_error lines i) as [line|]; [|contradiction].
  destruct (Z.ltb_spec 2000 (Js.length line)); [contradiction|].
  destruct (matchLine lines (Z.of_nat i) line compiled) as [iss'|] eqn:Hm;
    [|contradiction].
  intros [<-|[]]. exists line. repeat split; auto.
Qed.

Lemma lineIssues_lineNumber (lines : list string) (compiled : list CompiledRule)
    (i : nat) (iss : Issue.AnalyzedIssue) :
  In iss (Spec.lineIssues lines compiled i) -> Issue.lineNumber iss = Z.of_nat i + 1.
Proof.
  intros H. apply lineIssues_inv in H. destruct H as (line & _ & _ & H).
  apply matchLine_some in H. destruct H as (c & m & _ & _ & _ & ->). reflexivity.
Qed.

Lemma in_scan (lines : list string) (compiled : list CompiledRule)
    (iss : Issue.AnalyzedIssue) :
  In iss (scan lines compiled) <->
  exists i, (i < List.length lines)%nat /\ In iss (Spec.lineIssues lines compiled i).
Proof.
  rewrite scan_lineIssues, in_flat_map. split.
  - intros (i & Hi & Hin). apply in_seq in Hi. exists i. split; [lia | exact Hin].
  - intros (i & Hi & Hin). exists i. split; [apply in_seq; lia | exact Hin].
Qed.

Lemma issuesAt_flat_map (lines : list string) (compiled : list CompiledRule)
    (i a n : nat) :
  Spec.issuesAt i (flat_map (Spec.lineIssues lines compiled) (seq a n)) =
  if (Nat.leb a i && Nat.ltb i (a + n))%bool
  then Spec.lineIssues lines compiled i else [].
Proof.
  unfold Spec.issuesAt. revert a. induction n as [|n IH]; intros a.
  - cbn [seq flat_map filter].
    destruct (Nat.leb a i && Nat.ltb i (a + 0))%bool eqn:E; [|reflexivity].
    apply andb_prop in E. destruct E as [E1 E2].
    apply Nat.leb_le in E1. apply Nat.ltb_lt in E2. lia.
  - cbn [seq flat_map]. rewrite filter_app, IH.
    destruct (Nat.eq_dec a i) as [->|Hne].
    + assert (E1 : (Nat.leb (S i) i && Nat.ltb i (S i + n))%bool = false).
      { apply andb_false_iff. left. apply Nat.leb_gt. lia. }
      assert (E2 : (Nat.leb i i && Nat.ltb i (i + S n))%bool = true).
      { apply andb_true_iff. split; [apply Nat.leb_le | apply Nat.ltb_lt]; lia. }
      rewrite E1, E2, app_nil_r. apply forallb_filter_id.
      apply forallb_forall. intros iss Hin.
      apply lineIssues_lineNumber in Hin. apply Z.eqb_eq. exact Hin.
    + assert (E : (Nat.leb (S a) i && Nat.ltb i (S a + n))%bool
                  = (Nat.leb a i && Nat.ltb i (a + S n))%bool).
      { apply Bool.eq_iff_eq_true.
        rewrite !andb_true_iff, !Nat.leb_le, !Nat.ltb_lt. lia. }
      rewrite E, filter_nothing; [reflexivity|].
      intros iss Hin. apply lineIssues_lineNumber in Hin. apply Z.eqb_neq. lia.
Qed.

(** The Issues of a scan anchored at line [i] are those its turn [i] added. *)
Lemma issuesAt_scan (lines : list string) (compiled : list CompiledRule) (i : nat) :
  Spec.issuesAt i (scan lines compiled) = Spec.lineIssues lines compiled i.
Proof.
  rewrite scan_lineIssues, issuesAt_flat_map. simpl.
  destruct (Nat.ltb_spec i (List.length lines)) as [Hlt|Hge]; [reflexivity|].
  unfold Spec.lineIssues.
  replace (nth_error lines i) with (@None string); [reflexivity|].
  symmetry. apply nth_error_None. exact Hge.
Qed.

End EngineFacts.

Section Winner.
Context {host : RegExpHost}.
Import Engine.

Lemma issueOf_some (lines : list string) (i : Z) (line : string) (r : Rule.LogRule)
    (iss : Issue.AnalyzedIssue) :
  Spec.issueOf lines i line r = Some iss ->
  exists c m,
    fst (compileRule r) = Some c /\ rule c = r /\ keywordFilter c line = true
    /\ execRule lines i line c = Some m /\ iss = makeIssue lines i line c m.
Proof.
  unfold Spec.issueOf. destruct (fst (compileRule r)) as [c|] eqn:Hc; [|discriminate].
  destruct (keywordFilter c line) eqn:Hk; [|discriminate].
  destruct (execRule lines i line c) as [m|] eqn:Hm; [|discriminate].
  simpl. intros [= <-]. exists c, m. repeat split; auto.
  now apply compileRule_rule.
Qed.

Lemma matchesAt_line (lines : list string) (i : nat) (line : string) (r : Rule.LogRule) :
  nth_error lines i = Some line -> Js.length line <= 2000 ->
  Spec.matchesAt lines i r = Spec.isSome (Spec.issueOf lines (Z.of_nat i) line r).
Proof.
  intros Hl Hlen. unfold Spec.matchesAt. rewrite Hl.
  apply Z.leb_le in Hlen. now rewrite Hlen.
Qed.

Lemma matchesAt_inv (lines : list string) (i : nat) (r : Rule.LogRule) :
  Spec.matchesAt lines i r = true ->
  exists line, nth_error lines i = Some line /\ Js.length line <= 2000.
Proof.
  unfold Spec.matchesAt. destruct (nth_error lines i) as [line|]; [|discriminate].
  intros H. apply andb_prop in H. destruct H as [H _]. apply Z.leb_le in H.
  now exists line.
Qed.

(** What turn [i] of the outer loop adds, in terms of the caller's rules. *)
Lemma lineIssues_winner (lines : list string) (rules : list Rule.LogRule) (i : nat)
    (line : string) :
  nth_error lines i = Some line -> Js.length line <= 2000 ->
  Spec.lineIssues lines (compileRules (Js.sort byWeightDesc rules)) i =
  match Spec.heaviestFirst (Spec.matchesAt lines i) rules with
  | Some r =>
      match Spec.issueOf lines (Z.of_nat i) line r with
      | Some iss => [iss]
      | None => []
      end
  | None => []
  end.
Proof.
  intros Hl Hlen. unfold Spec.lineIssues. rewrite Hl.
  destruct (Z.ltb_spec 2000 (Js.length line)); [lia|].
  rewrite matchLine_find, find_sort_heaviestFirst.
  assert (E : forall rs,
             Spec.heaviestFirst
               (fun r => Spec.isSome (Spec.issueOf lines (Z.of_nat i) line r)) rs
             = Spec.heaviestFirst (Spec.matchesAt lines i) rs).
  { induction rs as [|a rs IH]; simpl; [reflexivity|].
    now rewrite IH, (matchesAt_line lines i line a Hl Hlen). }
  rewrite E. destruct (Spec.heaviestFirst (Spec.matchesAt lines i) rules); [|reflexivity].
  now destruct (Spec.issueOf lines (Z.of_nat i) line l).
Qed.

Lemma keywordFilter_true (c : CompiledRule) (line : string) :
  keywordFilter c line = true ->
  Rule.keywords (rule c) = []
  \/ exists k, In k (Rule.keywords (rule c)) /\ Js.includes line k = true.
Proof.
  unfold keywordFilter, hasKeyword. destruct (Rule.keywords (rule c)) as [|k ks] eqn:Hk.
  - now left.
  - intros H. right. apply negb_true_iff, andb_false_iff in H.
    destruct H as [H|H].
    + simpl List.length in H. apply Z.ltb_ge in H. lia.
    + apply negb_false_iff, existsb_exists in H. exact H.
Qed.

(** Every Issue of a scan is the Issue of one of the caller's rules at one
    line that is within the length cap. *)
Lemma issue_provenance (stored : list Rule.LogRule) (clock : Clock)
    (text fileName : string) (rules : list Rule.LogRule) (iss : Issue.AnalyzedIssue) :
  In iss (Report.issues (report (analyzeLog stored clock text fileName (Some rules)))) ->
  exists i line r,
    nth_error (Js.splitLines text) i = Some line
    /\ Js.length line <= 2000
    /\ In r rules
    /\ Spec.issueOf (Js.splitLines text) (Z.of_nat i) line r = Some iss.
Proof.
  simpl. intros H. apply in_scan in H. destruct H as (i & _ & H).
  apply lineIssues_inv in H. destruct H as (line & Hl & Hlen & H).
  rewrite matchLine_find in H.
  destruct (find _ (Js.sort byWeightDesc rules)) as [r|] eqn:Hfind; [|discriminate].
  apply find_some in Hfind. destruct Hfind as [Hin _].
  exists i, line, r. repeat split; auto.
  eapply Permutation_in; [symmetry; apply sort_perm | exact Hin].
Qed.

End Winner.

(** ** Rules that do not compile, and what the sort does to the array *)

Section Compile.
Context {host : RegExpHost}.
Import Engine.

Lemma compileRule_invalid (r : Rule.LogRule) (e : string) :
  newRegExp (sanitize (Rule.regex r)) = inl e ->
  compileRule r =
  (None,
   [{| message :=
         ("Invalid Regex for rule " ++ Rule.name r ++ ": " ++ Rule.regex r)%string;
       error := e |}]).
Proof. intros H. unfold compileRule. now rewrite H. Qed.

Lemma compileRule_valid (r : Rule.LogRule) (re : RegExp) :
  newRegExp (sanitize (Rule.regex r)) = inr re ->
  exists c, compileRule r = (Some c, []).
Proof. intros H. unfold compileRule. rewrite H. eauto. Qed.

End Compile.

(** ** The length cap *)

Section Cap.
Context {host : RegExpHost}.
Import Engine.

Lemma compileRule_isMultiline (r : Rule.LogRule) (c : CompiledRule) :
  fst (compileRule r) = Some c -> isMultiline c = negb (Spec.singleLine r).
Proof.
  unfold compileRule, Spec.singleLine.
  destruct (newRegExp (sanitize (Rule.regex r))); simpl; [discriminate|].
  intros [= <-]. simpl. now rewrite negb_involutive.
Qed.

(** A rule that is run on its line alone reads nothing of the other lines. *)
Lemma matchLine_singleLine (lines lines' : list string) (i : Z) (line : string)
    (compiled : list CompiledRule) :
  (forall c, In c compiled -> isMultiline c = false) ->
  option_map Spec.withoutContext (matchLine lines i line compiled)
  = option_map Spec.withoutContext (matchLine lines' i line compiled).
Proof.
  induction compiled as [|c cs IH]; intros Hall; [reflexivity|].
  assert (Hc : isMultiline c = false) by (apply Hall; now left).
  assert (Hcs : forall c', In c' cs -> isMultiline c' = false)
    by (intros c' Hin; apply Hall; now right).
  cbn [matchLine]. destruct (keywordFilter c line); cbn [negb]; [|now apply IH].
  unfold execRule, candidate. rewrite Hc.
  destruct (exec (regExp c) line) as [m|]; [|now apply IH].
  cbn [option_map]. unfold makeIssue, Spec.withoutContext. cbn. now rewrite Hc.
Qed.

Lemma lineIssues_replaced (lines lines' : list string) (compiled : list CompiledRule)
    (i j : nat) :
  Spec.longLineReplaced i lines lines' ->
  (forall c, In c compiled -> isMultiline c = false) ->
  map Spec.withoutContext (Spec.lineIssues lines compiled j)
  = map Spec.withoutContext (Spec.lineIssues lines' compiled j).
Proof.
  intros (_ & Hsame & l & l' & Hl & Hl' & Hlong & Hlong') Hall. unfold Spec.lineIssues.
  destruct (Nat.eq_dec j i) as [->|Hne].
  - rewrite Hl, Hl'. apply Z.ltb_lt in Hlong, Hlong'. now rewrite Hlong, Hlong'.
  - rewrite <- (Hsame j Hne). destruct (nth_error lines j) as [line|]; [|reflexivity].
    destruct (2000 <? Js.length line); [reflexivity|].
    pose proof (matchLine_singleLine lines lines' (Z.of_nat j) line compiled Hall) as H.
    destruct (matchLine lines (Z.of_nat j) line compiled),
             (matchLine lines' (Z.of_nat j) line compiled);
      cbn [option_map] in H; try discriminate; [|reflexivity].
    cbn [map]. f_equal. congruence.
Qed.

(** With rules that are all run on one line at a time, what an over-long
    line holds is never read. *)
Lemma singleLine_capExcludes (rules : list Rule.LogRule) :
  (forall r, In r rules -> Spec.singleLine r = true) -> Spec.capExcludes rules.
Proof.
  intros Hsingle stored clock fileName text text' i Hrep.
  cbn [analyzeLog report Report.issues].
  set (compiled := compileRules (Js.sort byWeightDesc rules)).
  assert (Hall : forall c, In c compiled -> isMultiline c = false).
  { intros c Hc. apply in_compileRules in Hc. destruct Hc as (r & Hr & Hc).
    rewrite (compileRule_isMultiline r c Hc). apply negb_false_iff. apply Hsingle.
    eapply Permutation_in; [symmetry; apply sort_perm | exact Hr]. }
  rewrite !scan_lineIssues. destruct Hrep as (Hlen & Hrest). rewrite <- Hlen.
  assert (Hrep : Spec.longLineReplaced i (Js.splitLines text) (Js.splitLines text'))
    by (split; assumption).
  induction (seq 0 (List.length (Js.splitLines text))) as [|j idx IH]; [reflexivity|].
  cbn [flat_map]. rewrite !map_app, IH.
  now rewrite (lineIssues_replaced _ _ compiled i j Hrep Hall).
Qed.

End Cap.

Lemma filter_weight_insert (w : Z) (x : Rule.LogRule) (l : list Rule.LogRule) :
  filter (fun r => Rule.weight r =? w) (Js.insert Engine.byWeightDesc x l) =
  filter (fun r => Rule.weight r =? w) (x :: l).
Proof.
  induction l as [|y l IH]; [reflexivity|].
  cbn [Js.insert]. destruct (Z.leb_spec (Engine.byWeightDesc x y) 0) as [Hle|Hgt];
    [reflexivity|].
  unfold Engine.byWeightDesc in Hgt. rewrite !weightOrZero_weight in Hgt.
  cbn [filter] in *. rewrite IH.
  destruct (Z.eqb_spec (Rule.weight x) w); destruct (Z.eqb_spec (Rule.weight y) w);
    try reflexivity; lia.
Qed.

(** Rules of one weight keep their relative order. *)
Lemma filter_weight_sort (w : Z) (l : list Rule.LogRule) :
  filter (fun r => Rule.weight r =? w) (Js.sort Engine.byWeightDesc l) =
  filter (fun r => Rule.weight r =? w) l.
Proof.
  induction l as [|x l IH]; [reflexivity|].
  cbn [Js.sort fold_right]. rewrite filter_weight_insert.
  cbn [filter]. fold (Js.sort Engine.byWeightDesc l). now rewrite IH.
Qed.

Lemma sorted_weightGe (l : list Rule.LogRule) :
  Sorted Spec.weightGe l <-> Sorted (Spec.notAfter Engine.byWeightDesc) l.
Proof.
  split; induction 1 as [|x l Hs IH Hhd]; constructor; auto;
    destruct Hhd; constructor; now apply notAfter_weightGe.
Qed.

(** ** The context window *)

Lemma slice_window {A : Type} (lines : list A) (i : nat) :
  (i < List.length lines)%nat ->
  Js.slice lines (Z.max 0 (Z.of_nat i - Engine.CONTEXT_LINES))
    (Z.min (Z.of_nat (List.length lines)) (Z.of_nat i + Engine.CONTEXT_LINES + 1))
  = Spec.inclusive lines (Z.max 0 (Z.of_nat i - 3))
      (Z.min (Z.of_nat i + 3) (Z.of_nat (List.length lines) - 1)).
Proof.
  intros Hi. unfold Js.slice, Spec.inclusive, Engine.CONTEXT_LINES.
  set (N := Z.of_nat (List.length lines)).
  assert (HN : Z.of_nat i < N) by (unfold N; lia).
  destruct (Z.ltb_spec (Z.max 0 (Z.of_nat i - 3)) 0); [lia|].
  destruct (Z.ltb_spec (Z.min N (Z.of_nat i + 3 + 1)) 0); [lia|].
  f_equal; [f_equal; lia | f_equal; f_equal; lia].
Qed.

Lemma inclusive_length {A : Type} (lines : list A) (a b : Z) :
  0 <= a -> a <= b + 1 -> b < Z.of_nat (List.length lines) ->
  Z.of_nat (List.length (Spec.inclusive lines a b)) = b - a + 1.
Proof.
  intros Ha Hab Hb. unfold Spec.inclusive. rewrite length_firstn, length_skipn. lia.
Qed.

Lemma inclusive_nth {A : Type} (lines : list A) (a b : Z) (k : nat) :
  0 <= a -> Z.of_nat k < b - a + 1 ->
  nth_error (Spec.inclusive lines a b) k = nth_error lines (Z.to_nat a + k).
Proof.
  intros Ha Hk. unfold Spec.inclusive. rewrite nth_error_firstn.
  destruct (Nat.ltb_spec k (Z.to_nat (b - a + 1))); [|lia].
  apply nth_error_skipn.
Qed.

(** ** The order of the groups *)

Section GroupOrder.
Variable localeCompare : string -> string -> Z.

Lemma severity_desc_notAfter (a b : Analyzer.IssueGroup) :
  Spec.notAfter (Analyzer.compareGroups localeCompare Analyzer.severity_desc) a b
  <-> Spec.severityCountGe a b.
Proof.
  unfold Spec.notAfter, Spec.severityCountGe, Analyzer.compareGroups.
  destruct (Z.eqb_spec (Analyzer.getSeverityWeight (Analyzer.severity a))
              (Analyzer.getSeverityWeight (Analyzer.severity b))); simpl; lia.
Qed.

Lemma severity_desc_total (a b : Analyzer.IssueGroup) :
  0 < Analyzer.compareGroups localeCompare Analyzer.severity_desc a b ->
  Analyzer.compareGroups localeCompare Analyzer.severity_desc b a <= 0.
Proof.
  unfold Analyzer.compareGroups.
  destruct (Z.eqb_spec (Analyzer.getSeverityWeight (Analyzer.severity a))
              (Analyzer.getSeverityWeight (Analyzer.severity b)));
    destruct (Z.eqb_spec (Analyzer.getSeverityWeight (Analyzer.severity b))
                (Analyzer.getSeverityWeight (Analyzer.severity a))); simpl; lia.
Qed.

Lemma severity_desc_trans (a b c : Analyzer.IssueGroup) :
  Analyzer.compareGroups localeCompare Analyzer.severity_desc a b <= 0 ->
  Analyzer.compareGroups localeCompare Analyzer.severity_desc b c <= 0 ->
  Analyzer.compareGroups localeCompare Analyzer.severity_desc a c <= 0.
Proof.
  intros Hab Hbc.
  apply severity_desc_notAfter in Hab. apply severity_desc_notAfter in Hbc.
  apply severity_desc_notAfter. unfold Spec.severityCountGe in *. lia.
Qed.

End GroupOrder.

Lemma codeUnitCompare_sign (a b : string) :
  0 < Sample.codeUnitCompare a b -> Sample.codeUnitCompare b a <= 0.
Proof.
  unfold Sample.codeUnitCompare. rewrite (String.compare_antisym a b).
  destruct (String.compare b a); simpl; lia.
Qed.

(** ** The claims *)

(** C1.  When two or more of the rules match a line during a scan, the report
    holds exactly one Issue for that line, and it carries the id of a
    matching rule [r] such that every matching rule listed before [r] by the
    caller is strictly lighter and every matching rule listed after it is no
    heavier: the heaviest matching rule, and among equals the earliest. *)
Theorem C1_priority_highest_weight_wins {host : RegExpHost}
    (stored : list Rule.LogRule) (clock : Engine.Clock) (text fileName : string)
    (rules : list Rule.LogRule) (i : nat) :
  (2 <= List.length (filter (Spec.matchesAt (Js.splitLines text) i) rules))%nat ->
  exists pre r post iss,
    rules = pre ++ r :: post
    /\ Spec.matchesAt (Js.splitLines text) i r = true
    /\ (forall r', In r' pre -> Spec.matchesAt (Js.splitLines text) i r' = true ->
                   Rule.weight r' < Rule.weight r)
    /\ (forall r', In r' post -> Spec.matchesAt (Js.splitLines text) i r' = true ->
                   Rule.weight r' <= Rule.weight r)
    /\ Spec.issuesAt i
         (Report.issues
            (Engine.report (Engine.analyzeLog stored clock text fileName (Some rules))))
       = [iss]
    /\ Issue.ruleId iss = Rule.id r.
Proof.
  intros Htwo. set (lines := Js.splitLines text) in *.
  destruct (filter (Spec.matchesAt lines i) rules) as [|r0 l0] eqn:Hf;
    [simpl in Htwo; lia|].
  assert (Hr0 : In r0 rules /\ Spec.matchesAt lines i r0 = true).
  { apply filter_In. rewrite Hf. now left. }
  destruct Hr0 as [Hin0 Hm0].
  destruct (matchesAt_inv lines i r0 Hm0) as (line & Hl & Hlen).
  destruct (heaviestFirst_exists _ rules r0 Hin0 Hm0) as (r & Hr).
  destruct (heaviestFirst_some _ rules r Hr) as (pre & post & Hsplit & Hmr & Hpre & Hpost).
  assert (Hiss : Spec.isSome (Spec.issueOf lines (Z.of_nat i) line r) = true).
  { now rewrite <- (matchesAt_line lines i line r Hl Hlen). }
  destruct (Spec.issueOf lines (Z.of_nat i) line r) as [iss|] eqn:Hi; [|discriminate].
  exists pre, r, post, iss. repeat split; auto.
  - simpl. fold lines. rewrite issuesAt_scan.
    rewrite (lineIssues_winner lines rules i line Hl Hlen), Hr, Hi. reflexivity.
  - apply issueOf_some in Hi.
    destruct Hi as (c & m & _ & Hrule & _ & _ & ->). simpl. now rewrite Hrule.
Qed.

(** C1 on a log line that four rules match: the heaviest, listed last, wins. *)
Lemma C1_witness :
  (2 <= List.length
          (filter (Spec.matchesAt (host := MiniRegExp.host) (Js.splitLines Sample.buildLog) 0)
             [Sample.genericFailure; Sample.genericTwin; Sample.buildFailed;
              Sample.csError]))%nat
  /\ exists pre r post iss,
       [Sample.genericFailure; Sample.genericTwin; Sample.buildFailed; Sample.csError]
       = pre ++ r :: post
       /\ Spec.matchesAt (host := MiniRegExp.host) (Js.splitLines Sample.buildLog) 0 r = true
       /\ (forall r', In r' pre ->
             Spec.matchesAt (host := MiniRegExp.host) (Js.splitLines Sample.buildLog) 0 r' = true ->
             Rule.weight r' < Rule.weight r)
       /\ (forall r', In r' post ->
             Spec.matchesAt (host := MiniRegExp.host) (Js.splitLines Sample.buildLog) 0 r' = true ->
             Rule.weight r' <= Rule.weight r)
       /\ Spec.issuesAt 0
            (Report.issues
               (Engine.report
                  (Engine.analyzeLog (host := MiniRegExp.host) Sample.stored
                     Sample.clock1 Sample.buildLog "Editor.log"
                     (Some [Sample.genericFailure; Sample.genericTwin;
                            Sample.buildFailed; Sample.csError]))))
          = [iss]
       /\ Issue.ruleId iss = Rule.id r.
Proof.
  split.
  - vm_compute. repeat constructor.
  - apply (C1_priority_highest_weight_wins (host := MiniRegExp.host)).
    vm_compute. repeat constructor.
Defined.

(** C2, as amended.  The keyword filter is a gate of its own: every Issue of
    a report is the Issue of a rule whose keyword list is empty or has a
    keyword that occurs, in the same case, in the anchor line. *)
Theorem C2_keyword_gate {host : RegExpHost}
    (stored : list Rule.LogRule) (clock : Engine.Clock) (text fileName : string)
    (rules : list Rule.LogRule) (iss : Issue.AnalyzedIssue) :
  In iss
     (Report.issues
        (Engine.report (Engine.analyzeLog stored clock text fileName (Some rules)))) ->
  exists i line r,
    nth_error (Js.splitLines text) i = Some line
    /\ Issue.lineNumber iss = Z.of_nat i + 1
    /\ In r rules
    /\ Spec.issueOf (Js.splitLines text) (Z.of_nat i) line r = Some iss
    /\ (Rule.keywords r = []
        \/ exists k, In k (Rule.keywords r) /\ Js.includes line k = true).
Proof.
  intros H. apply issue_provenance in H.
  destruct H as (i & line & r & Hl & _ & Hin & Hiss).
  exists i, line, r. repeat split; auto.
  - apply issueOf_some in Hiss. destruct Hiss as (c & m & _ & _ & _ & _ & ->).
    reflexivity.
  - apply issueOf_some in Hiss. destruct Hiss as (c & m & _ & Hr & Hk & _ & _).
    apply keywordFilter_true in Hk. now rewrite Hr in Hk.
Qed.

Lemma C2_witness :
  exists iss,
    In iss (Report.issues
              (Engine.report (Sample.run Sample.buildLog [Sample.genericFailure])))
    /\ exists i line r,
         nth_error (Js.splitLines Sample.buildLog) i = Some line
         /\ Issue.lineNumber iss = Z.of_nat i + 1
         /\ In r [Sample.genericFailure]
         /\ Spec.issueOf (host := MiniRegExp.host) (Js.splitLines Sample.buildLog)
              (Z.of_nat i) line r = Some iss
         /\ (Rule.keywords r = []
             \/ exists k, In k (Rule.keywords r) /\ Js.includes line k = true).
Proof.
  eexists. split.
  - vm_compute. left. reflexivity.
  - apply (C2_keyword_gate (host := MiniRegExp.host) Sample.stored Sample.clock1
             Sample.buildLog "Editor.log" [Sample.genericFailure]).
    vm_compute. left. reflexivity.
Defined.

(** C2 as stated fails: the generic failure rule has keywords, none of them
    occurs in the line [BUILD FAILED in 3s], yet its pattern, compiled
    ignoring case, matches that line; the scan reports nothing, and reports
    the line once the keyword list is emptied. *)
Lemma C2_counterexample :
  exists c,
    fst (Engine.compileRule (host := MiniRegExp.host) Sample.genericFailure) = Some c
    /\ Rule.keywords Sample.genericFailure = ["Failed"; "failed"]
    /\ Engine.hasKeyword c "BUILD FAILED in 3s" = false
    /\ exec (Engine.regExp c) "BUILD FAILED in 3s" = Some "BUILD FAILED in 3s"
    /\ Report.issues (Engine.report (Sample.run Sample.shoutedLog [Sample.genericFailure]))
       = []
    /\ List.length
         (Report.issues
            (Engine.report
               (Sample.run Sample.shoutedLog
                  [Sample.mkRule "7" "Generic failure" ".*(Failed|failed).*" [] ERROR 1])))
       = 1%nat
    /\ ~ Spec.prefilterSound (host := MiniRegExp.host).
Proof.
  eexists. split; [vm_compute; reflexivity|].
  repeat split; try (vm_compute; reflexivity).
  intros H.
  destruct (fst (Engine.compileRule (host := MiniRegExp.host) Sample.genericFailure))
    as [c|] eqn:Hc; [|vm_compute in Hc; discriminate].
  pose proof (H Sample.genericFailure c "BUILD FAILED in 3s" Hc) as Hnone.
  vm_compute in Hc. injection Hc as <-.
  assert (Hkw : Rule.keywords Sample.genericFailure <> []) by (vm_compute; discriminate).
  specialize (Hnone Hkw eq_refl). vm_compute in Hnone. discriminate.
Qed.

(** C3, as amended.  With one rule whose pattern the host refuses and one
    rule that compiles, in either order, the scan completes, the console
    receives exactly one entry, which names the refused rule, and the report
    is the report of a scan with the valid rule alone: it holds every Issue
    of the valid rule and nothing about the refused one. *)
Theorem C3_invalid_rule_logged_not_reported {host : RegExpHost}
    (stored : list Rule.LogRule) (clock : Engine.Clock) (text fileName : string)
    (bad good : Rule.LogRule) (e : string) (re : RegExp) :
  newRegExp (Engine.sanitize (Rule.regex bad)) = inl e ->
  newRegExp (Engine.sanitize (Rule.regex good)) = inr re ->
  forall rules, rules = [bad; good] \/ rules = [good; bad] ->
    Engine.consoleOut (Engine.analyzeLog stored clock text fileName (Some rules))
    = [{| Engine.message :=
            ("Invalid Regex for rule " ++ Rule.name bad ++ ": " ++ Rule.regex bad)%string;
          Engine.error := e |}]
    /\ Engine.report (Engine.analyzeLog stored clock text fileName (Some rules))
       = Engine.report (Engine.analyzeLog stored clock text fileName (Some [good])).
Proof.
  intros Hbad Hgood rules Hrules.
  apply compileRule_invalid in Hbad.
  apply compileRule_valid in Hgood. destruct Hgood as (c & Hgood).
  assert (Hsorted : Js.sort Engine.byWeightDesc rules = [bad; good]
                    \/ Js.sort Engine.byWeightDesc rules = [good; bad]).
  { destruct Hrules as [->| ->]; cbn [Js.sort fold_right Js.insert];
      match goal with |- context [?x <=? 0] => destruct (x <=? 0) end; auto. }
  unfold Engine.analyzeLog. cbn [Engine.consoleOut Engine.report].
  assert (Hone : Js.sort Engine.byWeightDesc [good] = [good]) by reflexivity.
  rewrite Hone.
  destruct Hsorted as [-> | ->];
    unfold Engine.compileConsole, Engine.compileRules, Engine.dropNull;
    cbn [flat_map map app]; rewrite Hbad, Hgood; cbn [fst snd app]; split; reflexivity.
Qed.

Lemma C3_witness :
  Engine.consoleOut (Sample.run Sample.buildLog [Sample.broken; Sample.genericFailure])
  = [{| Engine.message := "Invalid Regex for rule Broken: Build (failed";
        Engine.error := "Unterminated group" |}]
  /\ Engine.report (Sample.run Sample.buildLog [Sample.broken; Sample.genericFailure])
     = Engine.report (Sample.run Sample.buildLog [Sample.genericFailure]).
Proof.
  refine (C3_invalid_rule_logged_not_reported (host := MiniRegExp.host)
            Sample.stored Sample.clock1 Sample.buildLog "Editor.log"
            Sample.broken Sample.genericFailure "Unterminated group"
            (match MiniRegExp.parse ".*(Failed|failed).*" with
             | inr re => re
             | inl _ => MiniRegExp.Empty
             end) _ _ [Sample.broken; Sample.genericFailure] _).
  - vm_compute. reflexivity.
  - vm_compute. reflexivity.
  - left. reflexivity.
Defined.

(** C3 as stated fails: what the caller receives, the report, is the same
    whether the refused rule is in the rule set or not, and its Issues are
    those of the valid rule; the diagnostic exists on the console only. *)
Lemma C3_counterexample :
  Engine.report (Sample.run Sample.buildLog [Sample.broken; Sample.genericFailure])
  = Engine.report (Sample.run Sample.buildLog [Sample.genericFailure])
  /\ List.length
       (Report.issues
          (Engine.report (Sample.run Sample.buildLog [Sample.broken; Sample.genericFailure])))
     = 1%nat
  /\ Engine.consoleOut (Sample.run Sample.buildLog [Sample.broken; Sample.genericFailure])
     = [{| Engine.message := "Invalid Regex for rule Broken: Build (failed";
           Engine.error := "Unterminated group" |}]
  /\ Engine.consoleOut (Sample.run Sample.buildLog [Sample.genericFailure]) = [].
Proof. repeat split; vm_compute; reflexivity. Qed.

(** C4, as amended.  The scan sorts the caller's array in place: after the
    call it holds the same rules, by non-increasing weight, rules of one
    weight in the order they had; it is the array the caller passed exactly
    when that one was already in non-increasing order of weight. *)
Theorem C4_rules_sorted_in_place {host : RegExpHost}
    (stored : list Rule.LogRule) (clock : Engine.Clock) (text fileName : string)
    (rules : list Rule.LogRule) :
  Permutation rules
    (Engine.rulesAfter (Engine.analyzeLog stored clock text fileName (Some rules)))
  /\ StronglySorted Spec.weightGe
       (Engine.rulesAfter (Engine.analyzeLog stored clock text fileName (Some rules)))
  /\ (forall w,
        filter (fun r => Rule.weight r =? w)
          (Engine.rulesAfter (Engine.analyzeLog stored clock text fileName (Some rules)))
        = filter (fun r => Rule.weight r =? w) rules)
  /\ (Engine.rulesAfter (Engine.analyzeLog stored clock text fileName (Some rules)) = rules
      <-> Sorted Spec.weightGe rules).
Proof.
  cbn [Engine.analyzeLog Engine.rulesAfter].
  assert (Hs : Sorted Spec.weightGe (Js.sort Engine.byWeightDesc rules)).
  { apply sorted_weightGe, sort_sorted. exact byWeightDesc_total. }
  repeat split.
  - apply sort_perm.
  - apply Sorted_StronglySorted; [|exact Hs].
    intros a b c. unfold Spec.weightGe. lia.
  - intros w. apply filter_weight_sort.
  - intros E. now rewrite E in Hs.
  - intros H. apply sort_fixes_sorted, sorted_weightGe, H.
Qed.

(** C4 as stated fails: a lighter rule listed first is second after the call. *)
Lemma C4_counterexample :
  Engine.rulesAfter (Sample.run Sample.buildLog [Sample.genericFailure; Sample.csError])
  = [Sample.csError; Sample.genericFailure]
  /\ Engine.rulesAfter (Sample.run Sample.buildLog [Sample.genericFailure; Sample.csError])
     <> [Sample.genericFailure; Sample.csError].
Proof. split; [vm_compute; reflexivity | vm_compute; discriminate]. Qed.

(** X29.  A line of more than 2000 characters anchors no Issue, whatever
    the rules; it is counted in [totalLines]; and it stands, at its place, in
    the context of every Issue anchored within three lines of it.  When every
    rule is run on one line at a time, what the scan reports, the context
    lines aside, does not depend on what the line holds. *)
Theorem X29_long_line_anchors_nothing {host : RegExpHost}
    (stored : list Rule.LogRule) (clock : Engine.Clock) (text fileName : string)
    (rules : list Rule.LogRule) (i : nat) (line : string) :
  nth_error (Js.splitLines text) i = Some line ->
  2000 < Js.length line ->
  Spec.issuesAt i
    (Report.issues
       (Engine.report (Engine.analyzeLog stored clock text fileName (Some rules)))) = []
  /\ Report.totalLines
       (Engine.report (Engine.analyzeLog stored clock text fileName (Some rules)))
     = Z.of_nat (List.length (Js.splitLines text))
  /\ Z.of_nat i
     < Report.totalLines
         (Engine.report (Engine.analyzeLog stored clock text fileName (Some rules)))
  /\ (forall iss,
       In iss
          (Report.issues
             (Engine.report (Engine.analyzeLog stored clock text fileName (Some rules)))) ->
       Issue.lineNumber iss - 1 - 3 <= Z.of_nat i <= Issue.lineNumber iss - 1 + 3 ->
       nth_error (Issue.context iss)
         (i - Z.to_nat (Z.max 0 (Issue.lineNumber iss - 1 - 3)))
       = Some line)
  /\ ((forall r, In r rules -> Spec.singleLine r = true) -> Spec.capExcludes rules).
Proof.
  intros Hl Hlong.
  assert (Hi : (i < List.length (Js.splitLines text))%nat).
  { apply nth_error_Some. congruence. }
  split; [|split; [|split; [|split]]];
    cbn [Engine.analyzeLog Engine.report Report.issues Report.totalLines].
  - rewrite issuesAt_scan. unfold Spec.lineIssues. rewrite Hl.
    apply Z.ltb_lt in Hlong. now rewrite Hlong.
  - reflexivity.
  - lia.
  - intros iss Hin Hnear. apply in_scan in Hin. destruct Hin as (j & Hj & Hin).
    apply lineIssues_inv in Hin. destruct Hin as (lj & _ & _ & Hin).
    apply matchLine_some in Hin. destruct Hin as (c & m & _ & _ & _ & ->).
    cbn [Engine.makeIssue Issue.context Issue.lineNumber] in *.
    rewrite (slice_window _ j Hj), inclusive_nth by lia.
    rewrite <- Hl. f_equal. lia.
  - apply singleLine_capExcludes.
Qed.

(** On the sample log the over-long second line anchors nothing although
    the generic rule accepts its text, and the Issue of the third line shows
    it as the second line of its context. *)
Lemma X29_witness :
  Spec.issuesAt 1
    (Report.issues (Engine.report (Sample.run Sample.longLog [Sample.genericFailure]))) = []
  /\ Report.totalLines (Engine.report (Sample.run Sample.longLog [Sample.genericFailure]))
     = 4
  /\ exists iss,
       Report.issues (Engine.report (Sample.run Sample.longLog [Sample.genericFailure]))
       = [iss]
       /\ Issue.lineNumber iss = 3
       /\ nth_error (Issue.context iss) 1 = Some Sample.longLine.
Proof.
  destruct (X29_long_line_anchors_nothing (host := MiniRegExp.host) Sample.stored
              Sample.clock1 Sample.longLog "Editor.log" [Sample.genericFailure] 1
              Sample.longLine) as (Hnone & _ & _ & Hcontext & _).
  - vm_compute. reflexivity.
  - vm_compute. reflexivity.
  - split; [exact Hnone|]. split; [vm_compute; reflexivity|].
    destruct (Report.issues
                (Engine.report (Sample.run Sample.longLog [Sample.genericFailure])))
      as [|iss [|]] eqn:E; try (vm_compute in E; discriminate).
    assert (Hline : Issue.lineNumber iss = 3).
    { vm_compute in E. injection E as <-. reflexivity. }
    exists iss. split; [reflexivity|]. split; [exact Hline|].
    specialize (Hcontext iss).
    rewrite Hline in Hcontext. apply Hcontext; [|vm_compute; split; discriminate].
    unfold Sample.run in E. rewrite E. now left.
Defined.

(** C5.  The scan skips a line of more than 2000 characters, as its comment
    says, only where the line is the current one; the window of a multiline
    rule is joined without that test.  [Sample.windowRule], tried at the first
    line of the sample log, is run on the lines 1 to 4 joined, matches the
    whole of the over-long second line, and an Issue is reported whose content
    is that line; with another over-long line in its place nothing is
    reported.  So what is reported does depend on what an over-long line
    holds. *)
Theorem C5_window_reads_the_long_line :
  2000 < Js.length Sample.longLine
  /\ Spec.singleLine Sample.windowRule = false
  /\ (exists iss,
        Report.issues (Engine.report (Sample.run Sample.longLog [Sample.windowRule]))
        = [iss]
        /\ Issue.lineNumber iss = 1
        /\ Issue.matchContent iss = (Sample.longLine ++ "...")%string)
  /\ Report.issues (Engine.report (Sample.run Sample.otherLongLog [Sample.windowRule]))
     = []
  /\ ~ Spec.capExcludes (host := MiniRegExp.host) [Sample.windowRule].
Proof.
  split; [vm_compute; reflexivity|]. split; [vm_compute; reflexivity|].
  assert (Hone : exists iss,
             Report.issues
               (Engine.report (Sample.run Sample.longLog [Sample.windowRule])) = [iss]
             /\ Issue.lineNumber iss = 1
             /\ Issue.matchContent iss = (Sample.longLine ++ "...")%string).
  { eexists. split; [vm_compute; reflexivity|]. split; vm_compute; reflexivity. }
  assert (Hnone : Report.issues
                    (Engine.report (Sample.run Sample.otherLongLog [Sample.windowRule]))
                  = []) by (vm_compute; reflexivity).
  split; [exact Hone|]. split; [exact Hnone|].
  intros H.
  specialize (H Sample.stored Sample.clock1 "Editor.log" Sample.longLog
                Sample.otherLongLog 1%nat).
  unfold Sample.run in Hone, Hnone. rewrite Hnone in H.
  destruct Hone as (iss & Hiss & _). rewrite Hiss in H.
  assert (Hrep : Spec.longLineReplaced 1 (Js.splitLines Sample.longLog)
                   (Js.splitLines Sample.otherLongLog)).
  { split; [vm_compute; reflexivity|]. split.
    - intros [|[|[|[|j]]]] Hj; try (exfalso; apply Hj; reflexivity);
        vm_compute; reflexivity.
    - exists Sample.longLine, Sample.otherLongLine.
      repeat split; vm_compute; reflexivity. }
  specialize (H Hrep). discriminate H.
Qed.

(** C6.  An Issue is anchored at a line [i] of the log, [0 <= i < N]; its
    context is the lines [max(0, i-3) .. min(i+3, N-1)], both included, so it
    has [min(i+3, N-1) - max(0, i-3) + 1] lines, and its [k]-th line is the
    line [max(0, i-3) + k] of the log, an index below [N]. *)
Theorem C6_context_window {host : RegExpHost}
    (stored : list Rule.LogRule) (clock : Engine.Clock) (text fileName : string)
    (rules : list Rule.LogRule) (iss : Issue.AnalyzedIssue) :
  In iss
     (Report.issues
        (Engine.report (Engine.analyzeLog stored clock text fileName (Some rules)))) ->
  exists i : Z,
    Issue.lineNumber iss = i + 1
    /\ 0 <= i < Z.of_nat (List.length (Js.splitLines text))
    /\ Issue.context iss
       = Spec.inclusive (Js.splitLines text) (Z.max 0 (i - 3))
           (Z.min (i + 3) (Z.of_nat (List.length (Js.splitLines text)) - 1))
    /\ Z.of_nat (List.length (Issue.context iss))
       = Z.min (i + 3) (Z.of_nat (List.length (Js.splitLines text)) - 1)
         - Z.max 0 (i - 3) + 1
    /\ forall k : nat,
         (k < List.length (Issue.context iss))%nat ->
         0 <= Z.max 0 (i - 3) + Z.of_nat k < Z.of_nat (List.length (Js.splitLines text))
         /\ nth_error (Issue.context iss) k
            = nth_error (Js.splitLines text) (Z.to_nat (Z.max 0 (i - 3)) + k).
Proof.
  cbn [Engine.analyzeLog Engine.report Report.issues].
  intros Hin. apply in_scan in Hin. destruct Hin as (j & Hj & Hin).
  apply lineIssues_inv in Hin. destruct Hin as (lj & _ & _ & Hin).
  apply matchLine_some in Hin. destruct Hin as (c & m & _ & _ & _ & ->).
  exists (Z.of_nat j).
  cbn [Engine.makeIssue Issue.context Issue.lineNumber].
  rewrite (slice_window _ j Hj).
  assert (Hlen : Z.of_nat
                   (List.length
                      (Spec.inclusive (Js.splitLines text) (Z.max 0 (Z.of_nat j - 3))
                         (Z.min (Z.of_nat j + 3)
                            (Z.of_nat (List.length (Js.splitLines text)) - 1))))
                 = Z.min (Z.of_nat j + 3) (Z.of_nat (List.length (Js.splitLines text)) - 1)
                   - Z.max 0 (Z.of_nat j - 3) + 1)
    by (apply inclusive_length; lia).
  repeat split; try lia; try exact Hlen.
  apply inclusive_nth; lia.
Qed.

Lemma C6_witness :
  exists iss,
    In iss (Report.issues (Engine.report (Sample.run Sample.longLog [Sample.genericFailure])))
    /\ exists i : Z,
         Issue.lineNumber iss = i + 1
         /\ 0 <= i < Z.of_nat (List.length (Js.splitLines Sample.longLog))
         /\ Issue.context iss
            = Spec.inclusive (Js.splitLines Sample.longLog) (Z.max 0 (i - 3))
                (Z.min (i + 3) (Z.of_nat (List.length (Js.splitLines Sample.longLog)) - 1))
         /\ Z.of_nat (List.length (Issue.context iss))
            = Z.min (i + 3) (Z.of_nat (List.length (Js.splitLines Sample.longLog)) - 1)
              - Z.max 0 (i - 3) + 1
         /\ forall k : nat,
              (k < List.length (Issue.context iss))%nat ->
              0 <= Z.max 0 (i - 3) + Z.of_nat k
                < Z.of_nat (List.length (Js.splitLines Sample.longLog))
              /\ nth_error (Issue.context iss) k
                 = nth_error (Js.splitLines Sample.longLog)
                     (Z.to_nat (Z.max 0 (i - 3)) + k).
Proof.
  eexists. split.
  - vm_compute. left. reflexivity.
  - apply (C6_context_window (host := MiniRegExp.host) Sample.stored Sample.clock1
             Sample.longLog "Editor.log" [Sample.genericFailure]).
    vm_compute. left. reflexivity.
Defined.

(** C7, as amended.  A scan of the empty text reports one line.  It reports
    no Issue exactly when no rule matches the empty line; otherwise it
    reports one Issue, at line 1. *)
Theorem C7_empty_text {host : RegExpHost}
    (stored : list Rule.LogRule) (clock : Engine.Clock) (fileName : string)
    (rules : list Rule.LogRule) :
  Report.totalLines
    (Engine.report (Engine.analyzeLog stored clock "" fileName (Some rules))) = 1
  /\ (List.length
        (Report.issues
           (Engine.report (Engine.analyzeLog stored clock "" fileName (Some rules))))
      <= 1)%nat
  /\ (forall iss,
        In iss
           (Report.issues
              (Engine.report (Engine.analyzeLog stored clock "" fileName (Some rules)))) ->
        Issue.lineNumber iss = 1)
  /\ (Report.issues
        (Engine.report (Engine.analyzeLog stored clock "" fileName (Some rules))) = []
      <-> forall r, In r rules -> Spec.matchesAt [""] 0 r = false).
Proof.
  cbn [Engine.analyzeLog Engine.report Report.issues Report.totalLines].
  change (Js.splitLines "") with [""].
  rewrite scan_lineIssues. cbn [List.length seq flat_map]. rewrite app_nil_r.
  assert (Hl : nth_error [""] 0 = Some "") by reflexivity.
  assert (Hlen : Js.length "" <= 2000) by (vm_compute; discriminate).
  rewrite (lineIssues_winner [""] rules 0 "" Hl Hlen).
  destruct (Spec.heaviestFirst (Spec.matchesAt [""] 0) rules) as [r|] eqn:Hbest.
  - destruct (heaviestFirst_some _ _ _ Hbest) as (pre & post & Hsplit & Hm & _).
    pose proof Hm as Hm'. rewrite (matchesAt_line [""] 0 "" r Hl Hlen) in Hm'.
    destruct (Spec.issueOf [""] (Z.of_nat 0) "" r) as [iss|] eqn:Hiss; [|discriminate].
    repeat split.
    + simpl. lia.
    + intros iss' [<-|[]]. apply issueOf_some in Hiss.
      destruct Hiss as (c & m & _ & _ & _ & _ & ->). reflexivity.
    + discriminate.
    + intros Hall. rewrite Hall in Hm; [discriminate|].
      rewrite Hsplit. apply in_or_app. right. now left.
  - repeat split.
    + simpl. lia.
    + intros iss [].
    + intros _. now apply heaviestFirst_none.
Qed.

(** C7 as stated fails: a rule without keywords whose pattern accepts the
    empty string yields an Issue on the empty text. *)
Lemma C7_counterexample :
  Report.issues (Engine.report (Sample.run "" [Sample.anything]))
  = [{| Issue.ruleId := "10"; Issue.ruleName := "Anything"; Issue.severity := WARNING;
        Issue.solution := "see the knowledge base"; Issue.matchContent := "";
        Issue.lineNumber := 1; Issue.context := [""] |}]
  /\ Report.issues (Engine.report (Sample.run "" [Sample.anything])) <> []
  /\ Report.totalLines (Engine.report (Sample.run "" [Sample.anything])) = 1.
Proof.
  repeat split; try (vm_compute; reflexivity). vm_compute. discriminate.
Qed.

(** C8.  A second scan of the same text with the same rules, be it with the
    array the first scan left sorted or with the rules as first passed, and
    at another time, reports the same Issues in the same order, the same
    [totalLines] and the same [fileName]. *)
Theorem C8_rescan_same_issues {host : RegExpHost}
    (stored : list Rule.LogRule) (clock1 clock2 : Engine.Clock) (text fileName : string)
    (rules : list Rule.LogRule) :
  Report.issues
    (Engine.report
       (Engine.analyzeLog stored clock2 text fileName
          (Some (Engine.rulesAfter
                   (Engine.analyzeLog stored clock1 text fileName (Some rules))))))
  = Report.issues
      (Engine.report (Engine.analyzeLog stored clock1 text fileName (Some rules)))
  /\ Report.totalLines
       (Engine.report
          (Engine.analyzeLog stored clock2 text fileName
             (Some (Engine.rulesAfter
                      (Engine.analyzeLog stored clock1 text fileName (Some rules))))))
     = Report.totalLines
         (Engine.report (Engine.analyzeLog stored clock1 text fileName (Some rules)))
  /\ Report.issues
       (Engine.report (Engine.analyzeLog stored clock2 text fileName (Some rules)))
     = Report.issues
         (Engine.report (Engine.analyzeLog stored clock1 text fileName (Some rules)))
  /\ Report.totalLines
       (Engine.report (Engine.analyzeLog stored clock2 text fileName (Some rules)))
     = Report.totalLines
         (Engine.report (Engine.analyzeLog stored clock1 text fileName (Some rules))).
Proof.
  cbn [Engine.analyzeLog Engine.report Engine.rulesAfter Report.issues Report.totalLines].
  rewrite (sort_idempotent Engine.byWeightDesc byWeightDesc_total).
  repeat split; reflexivity.
Qed.

(** C9.  The severity ordinals are 3, 2 and 1.  Under [severity_desc] the
    groups come out rearranged so that a group stands before another only if
    its severity is heavier, or equal with at least as many members; hence a
    group of heavier severity stands before every group of lighter severity,
    whatever their counts.  Under [name_asc], with a comparison whose sign is
    symmetric, sorting the sorted groups again changes nothing. *)
Theorem C9_group_sort_orders (localeCompare : string -> string -> Z)
    (groups : list Analyzer.IssueGroup) :
  (forall a b, 0 < localeCompare a b -> localeCompare b a <= 0) ->
  (Analyzer.getSeverityWeight CRITICAL = 3
   /\ Analyzer.getSeverityWeight ERROR = 2
   /\ Analyzer.getSeverityWeight WARNING = 1)
  /\ Permutation groups (Analyzer.sortGroups localeCompare Analyzer.severity_desc groups)
  /\ (forall (p q : nat) (a b : Analyzer.IssueGroup),
        (p < q)%nat ->
        nth_error (Analyzer.sortGroups localeCompare Analyzer.severity_desc groups) p = Some a ->
        nth_error (Analyzer.sortGroups localeCompare Analyzer.severity_desc groups) q = Some b ->
        Spec.severityCountGe a b)
  /\ (forall (p q : nat) (a b : Analyzer.IssueGroup),
        nth_error (Analyzer.sortGroups localeCompare Analyzer.severity_desc groups) p = Some a ->
        nth_error (Analyzer.sortGroups localeCompare Analyzer.severity_desc groups) q = Some b ->
        Analyzer.getSeverityWeight (Analyzer.severity b)
        < Analyzer.getSeverityWeight (Analyzer.severity a) ->
        (p < q)%nat)
  /\ Analyzer.sortGroups localeCompare Analyzer.name_asc
       (Analyzer.sortGroups localeCompare Analyzer.name_asc groups)
     = Analyzer.sortGroups localeCompare Analyzer.name_asc groups.
Proof.
  intros Hsign.
  assert (Hsorted : forall (p q : nat) (a b : Analyzer.IssueGroup),
             (p < q)%nat ->
             nth_error (Analyzer.sortGroups localeCompare Analyzer.severity_desc groups) p
             = Some a ->
             nth_error (Analyzer.sortGroups localeCompare Analyzer.severity_desc groups) q
             = Some b ->
             Spec.severityCountGe a b).
  { intros p q a b Hpq Hp Hq. apply (severity_desc_notAfter localeCompare).
    eapply StronglySorted_nth; [|exact Hpq|exact Hp|exact Hq].
    apply sort_strongly_sorted.
    - apply severity_desc_total.
    - apply severity_desc_trans. }
  split; [repeat split|]. split; [apply sort_perm|]. split; [exact Hsorted|]. split.
  - intros p q a b Hp Hq Hlt.
    destruct (Nat.lt_trichotomy p q) as [H|[H|H]]; [exact H| |].
    + subst q. rewrite Hp in Hq. injection Hq as <-. lia.
    + specialize (Hsorted q p b a H Hq Hp). unfold Spec.severityCountGe in Hsorted. lia.
  - unfold Analyzer.sortGroups. apply sort_idempotent.
    intros a b. cbn [Analyzer.compareGroups]. apply Hsign.
Qed.

Lemma C9_witness :
  map Analyzer.ruleName
    (Analyzer.sortGroups Sample.codeUnitCompare Analyzer.severity_desc Sample.groups)
  = ["gamma"; "delta"; "alpha"; "beta"]
  /\ Analyzer.sortGroups Sample.codeUnitCompare Analyzer.name_asc
       (Analyzer.sortGroups Sample.codeUnitCompare Analyzer.name_asc Sample.groups)
     = Analyzer.sortGroups Sample.codeUnitCompare Analyzer.name_asc Sample.groups.
Proof.
  split.
  - vm_compute. reflexivity.
  - apply (C9_group_sort_orders Sample.codeUnitCompare Sample.groups codeUnitCompare_sign).
Defined.



(** * Further properties of the code *)

(** ** The scan: order of the Issues, their fields, the text *)

Lemma includes_newline (s : string) :
  Js.includes s Js.newline = negb (Nat.eqb (Vocabulary.countLF s) 0).
Proof.
  induction s as [|c s IH]; [reflexivity|].
  cbn [Js.includes Vocabulary.countLF]. rewrite IH.
  unfold Js.newline. cbn [String.prefix].
  destruct (Ascii.eqb_spec Js.LF c) as [<-|Hne].
  - rewrite Ascii.eqb_refl. now destruct s.
  - destruct (Ascii.eqb_spec c Js.LF) as [->|_]; [congruence|].
    destruct (ascii_dec Js.LF c) as [E|_]; [congruence|]. reflexivity.
Qed.

Lemma countLF_app (s t : string) :
  Vocabulary.countLF (s ++ t) = (Vocabulary.countLF s + Vocabulary.countLF t)%nat.
Proof.
  induction s as [|c s IH]; [reflexivity|].
  cbn [String.append Vocabulary.countLF]. rewrite IH. now destruct (Ascii.eqb c Js.LF).
Qed.

Lemma splitLinesFrom_count (s : string) :
  List.length (snd (Js.splitLinesFrom s)) = Vocabulary.countLF s.
Proof.
  induction s as [|c s IH]; [reflexivity|].
  cbn [Js.splitLinesFrom Vocabulary.countLF].
  destruct (Js.splitLinesFrom s) as [piece rest]. cbn [snd] in IH.
  destruct (Ascii.eqb_spec c Js.LF) as [->|Hne]; [simpl; now rewrite IH|].
  destruct (Ascii.eqb c Js.CR && Js.startsWithLF s)%bool; exact IH.
Qed.

Lemma splitLinesFrom_noLF (s : string) :
  Vocabulary.countLF (fst (Js.splitLinesFrom s)) = O
  /\ Forall (fun l => Vocabulary.countLF l = O) (snd (Js.splitLinesFrom s)).
Proof.
  induction s as [|c s [IH1 IH2]]; [split; [reflexivity | constructor]|].
  cbn [Js.splitLinesFrom].
  destruct (Js.splitLinesFrom s) as [piece rest]. cbn [fst snd] in *.
  destruct (Ascii.eqb_spec c Js.LF) as [->|Hne].
  - split; [reflexivity | now constructor].
  - destruct (Ascii.eqb c Js.CR && Js.startsWithLF s)%bool; cbn [fst snd].
    + now split.
    + split; [|exact IH2]. cbn [Vocabulary.countLF].
      destruct (Ascii.eqb_spec c Js.LF); [congruence | exact IH1].
Qed.

Lemma splitLines_noLF (s line : string) :
  In line (Js.splitLines s) -> Vocabulary.countLF line = O.
Proof.
  unfold Js.splitLines. pose proof (splitLinesFrom_noLF s) as [H1 H2].
  destruct (Js.splitLinesFrom s) as [piece rest]. cbn [fst snd] in *.
  intros [<-|Hin]; [exact H1|]. rewrite Forall_forall in H2. now apply H2.
Qed.

Lemma trimStart_noLF (s : string) :
  Vocabulary.countLF s = O -> Vocabulary.countLF (Js.trimStart s) = O.
Proof.
  induction s as [|c s IH]; [reflexivity|].
  intros H. cbn [Js.trimStart]. destruct (Js.isWhiteSpace c); [|exact H].
  apply IH. cbn [Vocabulary.countLF] in H. destruct (Ascii.eqb c Js.LF); [discriminate | exact H].
Qed.

Lemma trimEnd_noLF (s : string) :
  Vocabulary.countLF s = O -> Vocabulary.countLF (Js.trimEnd s) = O.
Proof.
  induction s as [|c s IH]; [reflexivity|].
  cbn [Vocabulary.countLF]. destruct (Ascii.eqb c Js.LF) eqn:Hc; [discriminate|].
  intros H. specialize (IH H). cbn [Js.trimEnd].
  destruct (Js.trimEnd s) as [|d t].
  - destruct (Js.isWhiteSpace c); [reflexivity|]. cbn [Vocabulary.countLF]. now rewrite Hc.
  - cbn [Vocabulary.countLF] in *. now rewrite Hc.
Qed.

Lemma firstPiece_noLF (s : string) : Vocabulary.countLF (Js.firstPiece s) = O.
Proof.
  induction s as [|c s IH]; [reflexivity|].
  cbn [Js.firstPiece]. destruct (Ascii.eqb c Js.LF) eqn:Hc; [reflexivity|].
  cbn [Vocabulary.countLF]. now rewrite Hc.
Qed.

Section ScanOrder.
Context {host : RegExpHost}.
Import Engine.

Lemma lineIssues_shape (lines : list string) (compiled : list CompiledRule) (i : nat) :
  Spec.lineIssues lines compiled i = []
  \/ exists iss,
       Spec.lineIssues lines compiled i = [iss]
       /\ Issue.lineNumber iss = Z.of_nat i + 1.
Proof.
  destruct (Spec.lineIssues lines compiled i) as [|iss l] eqn:E; [now left|].
  right. exists iss.
  assert (Hn : Issue.lineNumber iss = Z.of_nat i + 1).
  { apply (lineIssues_lineNumber lines compiled). rewrite E. now left. }
  split; [|exact Hn]. f_equal.
  unfold Spec.lineIssues in E.
  destruct (nth_error lines i); [|discriminate].
  destruct (2000 <? Js.length s); [discriminate|].
  destruct (matchLine lines (Z.of_nat i) s compiled); [|discriminate].
  now injection E as _ <-.
Qed.

Lemma flat_map_lines_sorted (lines : list string) (compiled : list CompiledRule)
    (a n : nat) :
  StronglySorted Vocabulary.lineBefore
    (flat_map (Spec.lineIssues lines compiled) (seq a n))
  /\ Forall (fun iss => Z.of_nat a + 1 <= Issue.lineNumber iss <= Z.of_nat (a + n))
       (flat_map (Spec.lineIssues lines compiled) (seq a n))
  /\ (List.length (flat_map (Spec.lineIssues lines compiled) (seq a n)) <= n)%nat.
Proof.
  revert a. induction n as [|n IH]; intros a.
  - cbn [seq flat_map]. repeat split; constructor.
  - cbn [seq flat_map]. destruct (IH (S a)) as (Hs & Hall & Hlen).
    destruct (lineIssues_shape lines compiled a) as [-> | (iss & -> & Hn)];
      cbn [app List.length].
    + repeat split; [exact Hs | | lia].
      eapply Forall_impl; [|exact Hall]. cbn beta. intros x; lia.
    + repeat split.
      * constructor; [exact Hs|].
        eapply Forall_impl; [|exact Hall]. cbn beta.
        unfold Vocabulary.lineBefore. intros x; lia.
      * constructor; [lia|].
        eapply Forall_impl; [|exact Hall]. cbn beta. intros x; lia.
      * lia.
Qed.

End ScanOrder.

(** The Issues of a report by line. *)
Lemma report_issues_by_line {host : RegExpHost}
    (stored : list Rule.LogRule) (clock : Engine.Clock) (text fileName : string)
    (customRules : option (list Rule.LogRule)) :
  StronglySorted Vocabulary.lineBefore
    (Report.issues (Engine.report (Engine.analyzeLog stored clock text fileName customRules)))
  /\ Forall (fun iss =>
              1 <= Issue.lineNumber iss
              <= Report.totalLines
                   (Engine.report (Engine.analyzeLog stored clock text fileName customRules)))
       (Report.issues (Engine.report (Engine.analyzeLog stored clock text fileName customRules)))
  /\ Z.of_nat
       (List.length
          (Report.issues
             (Engine.report (Engine.analyzeLog stored clock text fileName customRules))))
     <= Report.totalLines
          (Engine.report (Engine.analyzeLog stored clock text fileName customRules)).
Proof.
  cbn [Engine.analyzeLog Engine.report Report.issues Report.totalLines].
  rewrite scan_lineIssues.
  match goal with
  | |- context [flat_map (Spec.lineIssues ?l ?c) (seq 0 ?n)] =>
      destruct (flat_map_lines_sorted l c 0 n) as (Hs & Hall & Hlen)
  end.
  repeat split; [exact Hs | | lia].
  eapply Forall_impl; [|exact Hall]. cbn beta. intros x; lia.
Qed.

(** X1.  The Issues of a report stand in the order of their lines, each line
    anchoring at most one: the line numbers grow strictly along the list,
    they lie between 1 and [totalLines], and there are no more Issues than
    lines. *)
Theorem X1_issues_in_line_order {host : RegExpHost}
    (stored : list Rule.LogRule) (clock : Engine.Clock) (text fileName : string)
    (customRules : option (list Rule.LogRule)) :
  StronglySorted Vocabulary.lineBefore
    (Report.issues (Engine.report (Engine.analyzeLog stored clock text fileName customRules)))
  /\ Forall (fun iss =>
              1 <= Issue.lineNumber iss
              <= Report.totalLines
                   (Engine.report (Engine.analyzeLog stored clock text fileName customRules)))
       (Report.issues (Engine.report (Engine.analyzeLog stored clock text fileName customRules)))
  /\ Z.of_nat
       (List.length
          (Report.issues
             (Engine.report (Engine.analyzeLog stored clock text fileName customRules))))
     <= Report.totalLines
          (Engine.report (Engine.analyzeLog stored clock text fileName customRules)).
Proof. apply report_issues_by_line. Qed.

(** X2.  The text scanned has one line more than it has line feeds: a text
    that ends in a line feed has an empty last line, which is counted. *)
Theorem X2_totalLines_counts_line_feeds {host : RegExpHost}
    (stored : list Rule.LogRule) (clock : Engine.Clock) (text fileName : string)
    (customRules : option (list Rule.LogRule)) :
  Report.totalLines
    (Engine.report (Engine.analyzeLog stored clock text fileName customRules))
  = Z.of_nat (Vocabulary.countLF text) + 1
  /\ Report.totalLines
       (Engine.report
          (Engine.analyzeLog stored clock (text ++ Js.newline) fileName customRules))
     = Report.totalLines
         (Engine.report (Engine.analyzeLog stored clock text fileName customRules)) + 1.
Proof.
  cbn [Engine.analyzeLog Engine.report Report.totalLines].
  assert (E : forall s, List.length (Js.splitLines s) = S (Vocabulary.countLF s)).
  { intros s. unfold Js.splitLines. rewrite <- splitLinesFrom_count.
    now destruct (Js.splitLinesFrom s). }
  rewrite !E, countLF_app. cbn [Js.newline Vocabulary.countLF].
  rewrite Ascii.eqb_refl. lia.
Qed.

(** X3.  An Issue is a snapshot of one rule of the array scanned, taken at
    one line of the text: its id, name, severity and solution are those of
    that rule and its number is that of the line.  Its content depends on the
    kind of the rule.  For a rule whose pattern names no line break, the
    pattern matched the line and the content is the trimmed line; for a
    multiline rule, the pattern matched the window of the ten lines from that
    line on, joined by line feeds, and the content is the first line of the
    text matched, followed by an ellipsis.  Either way the content holds no
    line feed. *)
Theorem X3_issue_is_snapshot_of_one_rule {host : RegExpHost}
    (stored : list Rule.LogRule) (clock : Engine.Clock) (text fileName : string)
    (customRules : option (list Rule.LogRule)) (iss : Issue.AnalyzedIssue) :
  In iss
     (Report.issues
        (Engine.report (Engine.analyzeLog stored clock text fileName customRules))) ->
  (exists (r : Rule.LogRule) (c : Engine.CompiledRule) (i : nat) (line m : string),
      In r (Vocabulary.rulesUsed stored customRules)
      /\ fst (Engine.compileRule r) = Some c
      /\ nth_error (Js.splitLines text) i = Some line
      /\ Issue.lineNumber iss = Z.of_nat i + 1
      /\ Issue.ruleId iss = Rule.id r
      /\ Issue.ruleName iss = Rule.name r
      /\ Issue.severity iss = Rule.severity r
      /\ Issue.solution iss = Rule.solution r
      /\ (if Spec.singleLine r
          then exec (Engine.regExp c) line = Some m
               /\ Issue.matchContent iss = Js.trim line
          else exec (Engine.regExp c)
                 (Js.joinLines
                    (Js.slice (Js.splitLines text) (Z.of_nat i) (Z.of_nat i + 10)))
               = Some m
               /\ Issue.matchContent iss = (Js.firstPiece m ++ "...")%string))
  /\ Js.includes (Issue.matchContent iss) Js.newline = false.
Proof.
  intros Hin.
  assert (Hin' : In iss
                   (Report.issues
                      (Engine.report
                         (Engine.analyzeLog stored clock text fileName
                            (Some (Vocabulary.rulesUsed stored customRules)))))).
  { destruct customRules; exact Hin. }
  apply issue_provenance in Hin'.
  destruct Hin' as (i & line & r & Hl & _ & Hr & Hiss).
  apply issueOf_some in Hiss. destruct Hiss as (c & m & Hc & Hrule & _ & Hexec & ->).
  pose proof (compileRule_isMultiline r c Hc) as Hmulti.
  unfold Engine.execRule, Engine.candidate in Hexec.
  cbn [Engine.makeIssue Issue.ruleId Issue.ruleName Issue.severity Issue.solution
       Issue.matchContent Issue.lineNumber].
  rewrite Hrule. split.
  - exists r, c, i, line, m. repeat split; auto.
    rewrite Hmulti in *. destruct (Spec.singleLine r); cbn [negb] in *; now split.
  - rewrite includes_newline. apply negb_false_iff, Nat.eqb_eq.
    destruct (Engine.isMultiline c).
    + rewrite countLF_app, firstPiece_noLF. reflexivity.
    + apply trimEnd_noLF, trimStart_noLF.
      apply (splitLines_noLF text). eapply nth_error_In. exact Hl.
Qed.

(** On the sample trace the multiline rule, tried at the second line,
    matches from [Exception:] in the header to the start of the stack line
    after it; the content of the Issue is the part of that match before the
    line feed, and an ellipsis. *)
Lemma X3_witness :
  exists iss,
    In iss (Report.issues (Engine.report (Sample.run Sample.traceLog [Sample.stackTrace])))
    /\ Spec.singleLine Sample.stackTrace = false
    /\ Issue.lineNumber iss = 2
    /\ Issue.matchContent iss = "Exception: boom..."
    /\ Js.includes (Issue.matchContent iss) Js.newline = false.
Proof.
  eexists. split; [vm_compute; right; left; reflexivity|].
  split; [vm_compute; reflexivity|]. split; [vm_compute; reflexivity|].
  split; [vm_compute; reflexivity|].
  apply (X3_issue_is_snapshot_of_one_rule (host := MiniRegExp.host) Sample.stored
           Sample.clock1 Sample.traceLog "Editor.log" (Some [Sample.stackTrace])).
  vm_compute. right. left. reflexivity.
Defined.

(** ** Rules the host refuses are left out, nothing more *)

Section FilterSort.
Context {A : Type} (cmp : A -> A -> Z).
Hypothesis total : forall a b, 0 < cmp a b -> cmp b a <= 0.
Hypothesis trans : forall a b c, cmp a b <= 0 -> cmp b c <= 0 -> cmp a c <= 0.

Lemma filter_insert_out (f : A -> bool) (x : A) (s : list A) :
  f x = false -> filter f (Js.insert cmp x s) = filter f s.
Proof.
  intros Hx. induction s as [|y s IH]; cbn [Js.insert filter].
  - now rewrite Hx.
  - destruct (cmp x y <=? 0); cbn [filter].
    + now rewrite Hx.
    + now rewrite IH.
Qed.

Lemma filter_insert_in (f : A -> bool) (x : A) (s : list A) :
  StronglySorted (Spec.notAfter cmp) s -> f x = true ->
  filter f (Js.insert cmp x s) = Js.insert cmp x (filter f s).
Proof.
  intros Hs Hx. induction Hs as [|y s Hs IH Hall]; cbn [Js.insert filter].
  - now rewrite Hx.
  - destruct (Z.leb_spec (cmp x y) 0) as [Hle|Hgt]; cbn [filter].
    + rewrite Hx. destruct (f y) eqn:Hy.
      * cbn [Js.insert]. apply Z.leb_le in Hle. now rewrite Hle.
      * symmetry. apply insert_front.
        destruct (filter f s) as [|z l] eqn:E; constructor.
        assert (Hz : In z s) by (apply (filter_In f); rewrite E; now left).
        rewrite Forall_forall in Hall. unfold Spec.notAfter in *.
        eapply trans; [exact Hle | now apply Hall].
    + destruct (f y) eqn:Hy.
      * cbn [Js.insert]. apply Z.leb_gt in Hgt. now rewrite Hgt, IH.
      * exact IH.
Qed.

(** Leaving elements out before the stable sort or after it is the same. *)
Lemma filter_sort (f : A -> bool) (l : list A) :
  filter f (Js.sort cmp l) = Js.sort cmp (filter f l).
Proof.
  induction l as [|x l IH]; [reflexivity|].
  cbn [Js.sort fold_right filter]. fold (Js.sort cmp l).
  destruct (f x) eqn:Hx.
  - rewrite filter_insert_in; [|now apply sort_strongly_sorted | exact Hx].
    rewrite IH. reflexivity.
  - rewrite filter_insert_out by exact Hx. exact IH.
Qed.

End FilterSort.

Lemma filter_permutation {A : Type} (f : A -> bool) (l l' : list A) :
  Permutation l l' -> Permutation (filter f l) (filter f l').
Proof.
  induction 1 as [|x l l' _ IH|x y l|l l' l'' _ IH1 _ IH2]; cbn [filter].
  - constructor.
  - destruct (f x); [now constructor | exact IH].
  - destruct (f x), (f y); try reflexivity. apply perm_swap.
  - now transitivity (filter f l').
Qed.

Section Refused.
Context {host : RegExpHost}.
Import Engine.

Lemma compileRules_filter (rs : list Rule.LogRule) :
  compileRules (filter Vocabulary.compiles rs) = compileRules rs.
Proof.
  induction rs as [|r rs IH]; [reflexivity|].
  cbn [filter]. unfold Vocabulary.compiles at 1.
  rewrite (compileRules_cons r rs).
  destruct (fst (compileRule r)) as [c|] eqn:Hc; cbn [Spec.isSome].
  - rewrite compileRules_cons, Hc. now rewrite IH.
  - exact IH.
Qed.

Lemma compileConsole_length (rs : list Rule.LogRule) :
  List.length (compileConsole rs)
  = List.length (filter (fun r => negb (Vocabulary.compiles r)) rs).
Proof.
  induction rs as [|r rs IH]; [reflexivity|].
  unfold compileConsole in *. cbn [flat_map filter]. rewrite length_app, IH.
  unfold Vocabulary.compiles, compileRule.
  destruct (newRegExp (sanitize (Rule.regex r))); reflexivity.
Qed.

Lemma compileConsole_valid (rs : list Rule.LogRule) :
  Forall (fun r => Vocabulary.compiles r = true) rs -> compileConsole rs = [].
Proof.
  induction 1 as [|r rs Hr _ IH]; [reflexivity|].
  unfold compileConsole in *. cbn [flat_map]. rewrite IH, app_nil_r.
  unfold Vocabulary.compiles, compileRule in *.
  destruct (newRegExp (sanitize (Rule.regex r))); [discriminate | reflexivity].
Qed.

End Refused.

(** X4.  Rules whose pattern the host refuses are left out and nothing else
    changes: the report is the report of a scan with those rules removed
    from the array, which writes nothing to the console, and the console
    receives one entry for each such rule. *)
Theorem X4_refused_rules_are_left_out {host : RegExpHost}
    (stored : list Rule.LogRule) (clock : Engine.Clock) (text fileName : string)
    (rules : list Rule.LogRule) :
  Engine.report (Engine.analyzeLog stored clock text fileName (Some rules))
  = Engine.report
      (Engine.analyzeLog stored clock text fileName
         (Some (filter Vocabulary.compiles rules)))
  /\ Engine.consoleOut
       (Engine.analyzeLog stored clock text fileName
          (Some (filter Vocabulary.compiles rules))) = []
  /\ List.length
       (Engine.consoleOut (Engine.analyzeLog stored clock text fileName (Some rules)))
     = List.length (filter (fun r => negb (Vocabulary.compiles r)) rules).
Proof.
  cbn [Engine.analyzeLog Engine.report Engine.consoleOut].
  rewrite <- (filter_sort Engine.byWeightDesc byWeightDesc_total byWeightDesc_trans).
  rewrite compileRules_filter. repeat split.
  - apply compileConsole_valid. apply Forall_forall. intros r Hr.
    apply filter_In in Hr. apply Hr.
  - rewrite compileConsole_length. apply Permutation_length.
    apply filter_permutation. symmetry. apply sort_perm.
Qed.

(** ** Python named groups *)



Lemma includes_cons (c : ascii) (s k : string) :
  Js.includes (String c s) k = false ->
  String.prefix k (String c s) = false /\ Js.includes s k = false.
Proof. cbn [Js.includes]. intros H. now apply orb_false_iff in H. Qed.

Lemma namedGroupAt_prefix (s : string) (n : nat) :
  Engine.namedGroupAt s = Some n -> String.prefix Vocabulary.namedGroupOpen s = true.
Proof.
  destruct s as [|c1 [|c2 [|c3 [|c4 s]]]]; try discriminate; cbn [Engine.namedGroupAt].
  - destruct c1 as [[] [] [] [] [] [] [] []]; discriminate.
  - destruct c1 as [[] [] [] [] [] [] [] []]; try discriminate;
      destruct c2 as [[] [] [] [] [] [] [] []]; discriminate.
  - destruct c1 as [[] [] [] [] [] [] [] []]; try discriminate;
      destruct c2 as [[] [] [] [] [] [] [] []]; try discriminate;
      destruct c3 as [[] [] [] [] [] [] [] []]; discriminate.
  - destruct c1 as [[] [] [] [] [] [] [] []]; try discriminate;
      destruct c2 as [[] [] [] [] [] [] [] []]; try discriminate;
      destruct c3 as [[] [] [] [] [] [] [] []]; try discriminate;
      destruct c4 as [[] [] [] [] [] [] [] []]; try discriminate.
    intros _. apply String.prefix_correct. destruct s; reflexivity.
Qed.





(** X6.  A pattern in which [(?P<] does not occur is compiled as it was
    written. *)
Theorem X6_pattern_without_named_group_unchanged (regex : string) :
  Js.includes regex Vocabulary.namedGroupOpen = false ->
  Engine.sanitize regex = regex.
Proof.
  unfold Engine.sanitize. induction regex as [|c s IH]; intros H; [reflexivity|].
  apply includes_cons in H. destruct H as [Hp Hi].
  cbn [Engine.sanitizeFrom].
  destruct (Engine.namedGroupAt (String c s)) as [n|] eqn:E.
  - apply namedGroupAt_prefix in E. congruence.
  - now rewrite (IH Hi).
Qed.

Lemma X6_witness :
  Engine.sanitize "Shader error in '(.*?)': (.*)" = "Shader error in '(.*?)': (.*)".
Proof.
  apply X6_pattern_without_named_group_unchanged. vm_compute. reflexivity.
Defined.

(** ** Sets of rule ids *)

Ltac nodup_strings :=
  repeat (constructor;
          [let H := fresh in
           simpl; intros H;
           repeat (destruct H as [H|H]; [discriminate H|]); exact H|]);
  constructor.

Lemma has_In (s : JsSet.t) (x : string) : JsSet.has s x = true <-> In x s.
Proof.
  unfold JsSet.has. rewrite existsb_exists. split.
  - intros (y & Hy & E). apply String.eqb_eq in E. now subst.
  - intros H. exists x. split; [exact H | apply String.eqb_refl].
Qed.

Lemma has_app (s s' : JsSet.t) (x : string) :
  JsSet.has (s ++ s') x = JsSet.has s x || JsSet.has s' x.
Proof. unfold JsSet.has. apply existsb_app. Qed.

Lemma has_add (s : JsSet.t) (x y : string) :
  JsSet.has (JsSet.add s x) y = JsSet.has s y || String.eqb y x.
Proof.
  unfold JsSet.add. destruct (JsSet.has s x) eqn:Hx.
  - destruct (String.eqb_spec y x) as [->|_]; [now rewrite Hx | now rewrite orb_false_r].
  - rewrite has_app. unfold JsSet.has at 2. cbn [existsb]. now rewrite orb_false_r.
Qed.

Lemma has_delete (s : JsSet.t) (x y : string) :
  JsSet.has (JsSet.delete s x) y = JsSet.has s y && negb (String.eqb y x).
Proof.
  unfold JsSet.delete, JsSet.has. induction s as [|z s IH]; [reflexivity|].
  cbn [filter existsb].
  destruct (String.eqb_spec z x) as [Ezx|Hzx]; cbn [negb existsb]; rewrite IH.
  - destruct (String.eqb_spec y x) as [Eyx|Hyx]; cbn [negb].
    + now rewrite !andb_false_r.
    + rewrite !andb_true_r.
      destruct (String.eqb_spec y z) as [Eyz|_]; [congruence | reflexivity].
  - destruct (String.eqb_spec y z) as [Eyz|_]; [|reflexivity].
    destruct (String.eqb_spec y x) as [Eyx|_]; [congruence | reflexivity].
Qed.

Lemma NoDup_add (s : JsSet.t) (x : string) : NoDup s -> NoDup (JsSet.add s x).
Proof.
  intros H. unfold JsSet.add. destruct (JsSet.has s x) eqn:Hx; [exact H|].
  apply NoDup_app; [exact H | repeat constructor; intros [] |].
  intros y Hy [<-|[]]. apply has_In in Hy. congruence.
Qed.

Lemma NoDup_delete (s : JsSet.t) (x : string) : NoDup s -> NoDup (JsSet.delete s x).
Proof. apply NoDup_filter. Qed.

Lemma delete_length (s : JsSet.t) (x : string) :
  NoDup s -> In x s -> S (List.length (JsSet.delete s x)) = List.length s.
Proof.
  unfold JsSet.delete. induction 1 as [|z s Hz Hs IH]; intros Hin; [contradiction|].
  cbn [filter List.length]. destruct (String.eqb_spec z x) as [->|Hzx]; cbn [negb].
  - rewrite forallb_filter_id; [reflexivity|]. apply forallb_forall.
    intros y Hy. apply negb_true_iff, String.eqb_neq. intros E. subst y. contradiction.
  - cbn [List.length]. f_equal. apply IH. destruct Hin; [congruence | assumption].
Qed.

Lemma has_fold_add (ids : list string) (s : JsSet.t) (x : string) :
  JsSet.has (fold_left JsSet.add ids s) x = JsSet.has s x || existsb (String.eqb x) ids.
Proof.
  revert s. induction ids as [|i ids IH]; intros s; cbn [fold_left existsb].
  - now rewrite orb_false_r.
  - rewrite IH, has_add. now rewrite orb_assoc.
Qed.

Lemma NoDup_fold_add (ids : list string) (s : JsSet.t) :
  NoDup s -> NoDup (fold_left JsSet.add ids s).
Proof.
  revert s. induction ids as [|i ids IH]; intros s H; [exact H|].
  apply IH, NoDup_add, H.
Qed.

(** X7.  A click on a rule of the selector flips the selection of that rule
    and of no other: the set stays free of repetitions, its size changes by
    one, and a second click on the same rule selects what was selected
    before. *)
Theorem X7_toggle_flips_one_rule (selectedIds : JsSet.t) (id : string) :
  NoDup selectedIds ->
  NoDup (RuleSelector.handleToggle selectedIds id)
  /\ (forall x,
        JsSet.has (RuleSelector.handleToggle selectedIds id) x
        = if String.eqb x id then negb (JsSet.has selectedIds id)
          else JsSet.has selectedIds x)
  /\ JsSet.size (RuleSelector.handleToggle selectedIds id)
     = JsSet.size selectedIds + (if JsSet.has selectedIds id then -1 else 1)
  /\ (forall x,
        JsSet.has
          (RuleSelector.handleToggle (RuleSelector.handleToggle selectedIds id) id) x
        = JsSet.has selectedIds x).
Proof.
  intros Hnd.
  assert (Hflip : forall s x,
             JsSet.has (RuleSelector.handleToggle s id) x
             = if String.eqb x id then negb (JsSet.has s id) else JsSet.has s x).
  { intros s x. unfold RuleSelector.handleToggle.
    destruct (JsSet.has s id) eqn:Hid.
    - rewrite has_delete. destruct (String.eqb_spec x id) as [->|_]; cbn [negb].
      + now rewrite andb_false_r.
      + now rewrite andb_true_r.
    - rewrite has_add. destruct (String.eqb_spec x id) as [->|_]; cbn [negb].
      + now rewrite orb_true_r.
      + now rewrite orb_false_r. }
  repeat split.
  - unfold RuleSelector.handleToggle. destruct (JsSet.has selectedIds id);
      [now apply NoDup_delete | now apply NoDup_add].
  - apply Hflip.
  - unfold RuleSelector.handleToggle, JsSet.size.
    destruct (JsSet.has selectedIds id) eqn:Hid.
    + apply has_In in Hid. pose proof (delete_length selectedIds id Hnd Hid). lia.
    + unfold JsSet.add. rewrite Hid, length_app. cbn [List.length]. lia.
  - intros x. rewrite !Hflip. rewrite String.eqb_refl.
    destruct (String.eqb_spec x id) as [E|_]; [subst x; apply negb_involutive | reflexivity].
Qed.

Lemma X7_witness :
  NoDup (RuleSelector.handleToggle ["1"; "3"; "7"] "3")
  /\ (forall x,
        JsSet.has (RuleSelector.handleToggle ["1"; "3"; "7"] "3") x
        = if String.eqb x "3" then negb (JsSet.has ["1"; "3"; "7"] "3")
          else JsSet.has ["1"; "3"; "7"] x)
  /\ JsSet.size (RuleSelector.handleToggle ["1"; "3"; "7"] "3")
     = JsSet.size ["1"; "3"; "7"] + (if JsSet.has ["1"; "3"; "7"] "3" then -1 else 1)
  /\ (forall x,
        JsSet.has
          (RuleSelector.handleToggle (RuleSelector.handleToggle ["1"; "3"; "7"] "3") "3") x
        = JsSet.has ["1"; "3"; "7"] x).
Proof.
  apply X7_toggle_flips_one_rule.
  nodup_strings.
Defined.

Lemma has_fold_add_rules (shown : list Rule.LogRule) (s : JsSet.t) (x : string) :
  JsSet.has (fold_left (fun newSet r => JsSet.add newSet (Rule.id r)) shown s) x
  = JsSet.has s x || existsb (fun r => String.eqb x (Rule.id r)) shown.
Proof.
  revert s. induction shown as [|r shown IH]; intros s; cbn [fold_left existsb].
  - now rewrite orb_false_r.
  - rewrite IH, has_add. now rewrite orb_assoc.
Qed.

Lemma has_fold_delete_rules (shown : list Rule.LogRule) (s : JsSet.t) (x : string) :
  JsSet.has (fold_left (fun newSet r => JsSet.delete newSet (Rule.id r)) shown s) x
  = JsSet.has s x && negb (existsb (fun r => String.eqb x (Rule.id r)) shown).
Proof.
  revert s. induction shown as [|r shown IH]; intros s; cbn [fold_left existsb].
  - now rewrite andb_true_r.
  - rewrite IH, has_delete, negb_orb. now rewrite andb_assoc.
Qed.

Lemma NoDup_fold_rules (f : JsSet.t -> string -> JsSet.t) (shown : list Rule.LogRule)
    (s : JsSet.t) :
  (forall s x, NoDup s -> NoDup (f s x)) ->
  NoDup s -> NoDup (fold_left (fun newSet r => f newSet (Rule.id r)) shown s).
Proof.
  intros Hf. revert s. induction shown as [|r shown IH]; intros s H; [exact H|].
  cbn [fold_left]. apply IH, Hf, H.
Qed.

(** X8.  "Select all shown" and "deselect all shown" do nothing when the
    search shows no rule; otherwise the first selects every rule shown and
    the second deselects every rule shown, and both leave the selection of
    the rules not shown as it was. *)
Theorem X8_select_and_deselect_all_shown {text : CaseHost}
    (rules : list Rule.LogRule) (search : string)
    (selectedIds : JsSet.t) :
  NoDup selectedIds ->
  match RuleSelector.handleSelectAll rules search selectedIds with
  | None => RuleSelector.filteredRules rules search = []
  | Some newSet =>
      NoDup newSet
      /\ forall x,
           JsSet.has newSet x
           = JsSet.has selectedIds x
             || existsb (fun r => String.eqb x (Rule.id r))
                  (RuleSelector.filteredRules rules search)
  end
  /\ match RuleSelector.handleDeselectAll rules search selectedIds with
     | None => RuleSelector.filteredRules rules search = []
     | Some newSet =>
         NoDup newSet
         /\ forall x,
              JsSet.has newSet x
              = JsSet.has selectedIds x
                && negb (existsb (fun r => String.eqb x (Rule.id r))
                           (RuleSelector.filteredRules rules search))
     end.
Proof.
  intros Hnd. unfold RuleSelector.handleSelectAll, RuleSelector.handleDeselectAll.
  destruct (RuleSelector.filteredRules rules search) as [|r shown]; [now split|].
  split; split.
  - apply (NoDup_fold_rules JsSet.add); [apply NoDup_add | exact Hnd].
  - intros x. apply has_fold_add_rules.
  - apply (NoDup_fold_rules JsSet.delete); [apply NoDup_delete | exact Hnd].
  - intros x. apply has_fold_delete_rules.
Qed.

Lemma X8_witness :
  match RuleSelector.handleSelectAll (text := Latin1.host) Sample.stored "BUILD" ["7"] with
  | None => RuleSelector.filteredRules (text := Latin1.host) Sample.stored "BUILD" = []
  | Some newSet =>
      NoDup newSet
      /\ forall x,
           JsSet.has newSet x
           = JsSet.has ["7"] x
             || existsb (fun r => String.eqb x (Rule.id r))
                  (RuleSelector.filteredRules (text := Latin1.host) Sample.stored "BUILD")
  end
  /\ match RuleSelector.handleDeselectAll (text := Latin1.host) Sample.stored "BUILD" ["7"] with
     | None => RuleSelector.filteredRules (text := Latin1.host) Sample.stored "BUILD" = []
     | Some newSet =>
         NoDup newSet
         /\ forall x,
              JsSet.has newSet x
              = JsSet.has ["7"] x
                && negb (existsb (fun r => String.eqb x (Rule.id r))
                           (RuleSelector.filteredRules (text := Latin1.host) Sample.stored "BUILD"))
     end.
Proof.
  apply (X8_select_and_deselect_all_shown (text := Latin1.host)).
  nodup_strings.
Defined.

(** ** The rules that take part in a scan *)

(** X9.  A scan started from the analyzer page reports Issues of selected
    rules only: the rule id of every Issue is in the selection and is the id
    of a rule of the page. *)
Theorem X9_issues_come_from_selected_rules {host : RegExpHost}
    (stored : list Rule.LogRule) (clock : Engine.Clock) (allRules : list Rule.LogRule)
    (selectedRuleIds : JsSet.t) (text fileName : string) (iss : Issue.AnalyzedIssue) :
  In iss
     (Report.issues
        (Engine.report
           (AnalyzerPage.handleFileSelect stored clock allRules selectedRuleIds
              text fileName))) ->
  JsSet.has selectedRuleIds (Issue.ruleId iss) = true
  /\ exists r, In r allRules /\ Issue.ruleId iss = Rule.id r.
Proof.
  unfold AnalyzerPage.handleFileSelect. intros Hin.
  apply issue_provenance in Hin. destruct Hin as (i & line & r & _ & _ & Hr & Hiss).
  apply issueOf_some in Hiss. destruct Hiss as (c & m & _ & Hrule & _ & _ & ->).
  cbn [Engine.makeIssue Issue.ruleId]. rewrite Hrule.
  apply filter_In in Hr. destruct Hr as [Hr Hsel].
  split; [exact Hsel | now exists r].
Qed.

Lemma X9_witness :
  exists iss,
    In iss
       (Report.issues
          (Engine.report
             (AnalyzerPage.handleFileSelect (host := MiniRegExp.host) Sample.stored
                Sample.clock1 Sample.stored ["7"; "6"] Sample.buildLog "Editor.log")))
    /\ JsSet.has ["7"; "6"] (Issue.ruleId iss) = true
    /\ exists r, In r Sample.stored /\ Issue.ruleId iss = Rule.id r.
Proof.
  eexists. split.
  - vm_compute. left. reflexivity.
  - apply (X9_issues_come_from_selected_rules (host := MiniRegExp.host) Sample.stored
             Sample.clock1 Sample.stored ["7"; "6"] Sample.buildLog "Editor.log").
    vm_compute. left. reflexivity.
Defined.

Lemma scan_no_rules {host : RegExpHost} (lines : list string) : Engine.scan lines [] = [].
Proof.
  rewrite scan_lineIssues. induction (seq 0 (List.length lines)) as [|i l IH];
    [reflexivity|].
  cbn [flat_map]. rewrite IH, app_nil_r. unfold Spec.lineIssues.
  destruct (nth_error lines i) as [line|]; [|reflexivity].
  now destruct (2000 <? Js.length line).
Qed.

(** X10.  When the page is mounted every rule is selected, so a scan runs
    with all the rules of the page; when no rule is selected the scan reports
    nothing and writes nothing, whatever rules are stored: an empty selection
    does not fall back on the stored rules. *)
Theorem X10_all_selected_at_first_none_means_none {host : RegExpHost}
    (stored : list Rule.LogRule) (clock : Engine.Clock) (allRules : list Rule.LogRule)
    (text fileName : string) :
  NoDup (AnalyzerPage.initialSelection allRules)
  /\ AnalyzerPage.activeRules allRules (AnalyzerPage.initialSelection allRules) = allRules
  /\ Report.issues
       (Engine.report
          (AnalyzerPage.handleFileSelect stored clock allRules [] text fileName)) = []
  /\ Engine.consoleOut
       (AnalyzerPage.handleFileSelect stored clock allRules [] text fileName) = []
  /\ Engine.rulesAfter
       (AnalyzerPage.handleFileSelect stored clock allRules [] text fileName) = [].
Proof.
  assert (Hnone : AnalyzerPage.activeRules allRules [] = []).
  { unfold AnalyzerPage.activeRules. now apply filter_nothing. }
  unfold AnalyzerPage.handleFileSelect. rewrite Hnone.
  cbn [Engine.analyzeLog Engine.report Engine.consoleOut Engine.rulesAfter Report.issues
       Js.sort fold_right].
  repeat split.
  - apply NoDup_fold_add. constructor.
  - unfold AnalyzerPage.activeRules, AnalyzerPage.initialSelection, JsSet.ofList.
    apply forallb_filter_id, forallb_forall. intros r Hr.
    rewrite has_fold_add. cbn [JsSet.has existsb orb].
    apply existsb_exists. exists (Rule.id r). split; [now apply in_map | apply String.eqb_refl].
  - apply scan_no_rules.
Qed.

(** ** The list of the knowledge base *)

Lemma includes_empty (s : string) : Js.includes s EmptyString = true.
Proof. destruct s; reflexivity. Qed.

(** X11.  The list shown by the knowledge base holds exactly the rules that
    the search accepts, heaviest first, rules of one weight in the order of
    the store.  The empty search shows every rule. *)
Theorem X11_knowledge_base_list {text : CaseHost}
    (rules : list Rule.LogRule) (searchTerm : string) :
  (forall r,
     In r (KnowledgeBase.filteredRules rules searchTerm)
     <-> In r rules /\ KnowledgeBase.matchesSearch searchTerm r = true)
  /\ Permutation (filter (KnowledgeBase.matchesSearch searchTerm) rules)
       (KnowledgeBase.filteredRules rules searchTerm)
  /\ StronglySorted Spec.weightGe (KnowledgeBase.filteredRules rules searchTerm)
  /\ (forall w,
        filter (fun r => Rule.weight r =? w) (KnowledgeBase.filteredRules rules searchTerm)
        = filter (fun r => Rule.weight r =? w)
            (filter (KnowledgeBase.matchesSearch searchTerm) rules))
  /\ KnowledgeBase.filteredRules rules "" = Js.sort Engine.byWeightDesc rules.
Proof.
  unfold KnowledgeBase.filteredRules.
  assert (Hin : forall r,
             In r (Js.sort Engine.byWeightDesc
                     (filter (KnowledgeBase.matchesSearch searchTerm) rules))
             <-> In r rules /\ KnowledgeBase.matchesSearch searchTerm r = true).
  { intros r. rewrite <- filter_In. split; apply Permutation_in;
      [symmetry|]; apply sort_perm. }
  split; [exact Hin|]. split; [apply sort_perm|]. split; [|split].
  - apply Sorted_StronglySorted; [intros a b c; unfold Spec.weightGe; lia|].
    apply sorted_weightGe, sort_sorted. exact byWeightDesc_total.
  - intros w. apply filter_weight_sort.
  - f_equal. apply forallb_filter_id, forallb_forall. intros r _.
    unfold KnowledgeBase.matchesSearch. rewrite toLowerCase_empty.
    now rewrite includes_empty.
Qed.

(** ** The pages of the list *)

Lemma firstn_skipn_add {A : Type} (a b : nat) (l : list A) :
  firstn a l ++ firstn b (skipn a l) = firstn (a + b) l.
Proof.
  revert l. induction a as [|a IH]; intros l; [reflexivity|].
  destruct l as [|x l]; cbn [firstn skipn Nat.add app].
  - now rewrite firstn_nil.
  - now rewrite IH.
Qed.

Lemma slice_between {A : Type} (l : list A) (a b : Z) :
  0 <= a <= b ->
  Js.slice l a b
  = firstn (Z.to_nat (Z.min b (Z.of_nat (List.length l)))
            - Z.to_nat (Z.min a (Z.of_nat (List.length l))))
      (skipn (Z.to_nat (Z.min a (Z.of_nat (List.length l)))) l).
Proof.
  intros H. unfold Js.slice.
  destruct (Z.ltb_spec a 0); [lia|]. destruct (Z.ltb_spec b 0); [lia|].
  f_equal. lia.
Qed.

Lemma slice_length {A : Type} (l : list A) (a b : Z) :
  0 <= a <= b ->
  Z.of_nat (List.length (Js.slice l a b))
  = Z.min b (Z.of_nat (List.length l)) - Z.min a (Z.of_nat (List.length l)).
Proof.
  intros H. rewrite slice_between by exact H. rewrite length_firstn, length_skipn. lia.
Qed.

Lemma pages_concat {A : Type} (l : list A) (size : Z) (n : nat) :
  0 < size ->
  List.concat
    (map (fun p => Js.slice l ((Z.of_nat p - 1) * size) (Z.of_nat p * size)) (seq 1 n))
  = firstn (Z.to_nat (Z.of_nat n * size)) l.
Proof.
  intros Hsize. induction n as [|n IH]; [reflexivity|].
  rewrite seq_S, map_app, List.concat_app, IH. cbn [map List.concat]. rewrite app_nil_r.
  replace (Z.of_nat (1 + n)) with (Z.of_nat n + 1) by lia.
  replace (Z.of_nat (S n)) with (Z.of_nat n + 1) by lia.
  replace (Z.of_nat n + 1 - 1) with (Z.of_nat n) by lia.
  assert (Hn : 0 <= Z.of_nat n * size) by nia.
  assert (Hstep : (Z.of_nat n + 1) * size = Z.of_nat n * size + size) by ring.
  rewrite Hstep. set (k := Z.of_nat n * size) in *.
  rewrite slice_between by lia.
  set (len := Z.of_nat (List.length l)).
  assert (Hlen : 0 <= len) by (unfold len; lia).
  assert (Elen : List.length l = Z.to_nat len) by (unfold len; lia).
  destruct (Z.le_gt_cases len k) as [Hall|Hpart].
  - rewrite (firstn_all2 (n := Z.to_nat k) l) by lia.
    rewrite (firstn_all2 (n := Z.to_nat (k + size)) l) by lia.
    replace (Z.to_nat (Z.min (k + size) len) - Z.to_nat (Z.min k len))%nat with O by lia.
    cbn [firstn]. now rewrite app_nil_r.
  - replace (Z.min k len) with k by lia.
    rewrite firstn_skipn_add.
    destruct (Z.le_gt_cases len (k + size)) as [Hall'|Hpart'].
    + replace (Z.min (k + size) len) with len by lia.
      rewrite (firstn_all2 (n := Z.to_nat (k + size)) l) by lia.
      replace (Z.to_nat k + (Z.to_nat len - Z.to_nat k))%nat with (Z.to_nat len) by lia.
      apply firstn_all2. lia.
    + f_equal. lia.
Qed.

Lemma ceilDiv_bounds (n d : Z) :
  0 < d -> (JsText.ceilDiv n d - 1) * d < n <= JsText.ceilDiv n d * d.
Proof.
  intros Hd. unfold JsText.ceilDiv.
  pose proof (Z.div_mod (- n) d ltac:(lia)) as E.
  pose proof (Z.mod_pos_bound (- n) d Hd) as B. nia.
Qed.

(** X12.  The pages of the knowledge base cut the list shown into consecutive
    pieces: page 1 to the last page, put end to end, are the list; a page
    holds at most eight rules, every page before the last exactly eight, the
    last at least one, and a page after the last none.  There is no page
    exactly when the list is empty. *)
Theorem X12_pages_cut_the_list {text : CaseHost}
    (rules : list Rule.LogRule) (searchTerm : string) :
  List.concat
    (map (fun p => KnowledgeBase.paginatedRules rules searchTerm (Z.of_nat p))
       (seq 1 (Z.to_nat (KnowledgeBase.totalPages rules searchTerm))))
  = KnowledgeBase.filteredRules rules searchTerm
  /\ (KnowledgeBase.totalPages rules searchTerm = 0
      <-> KnowledgeBase.filteredRules rules searchTerm = [])
  /\ forall currentPage,
       1 <= currentPage ->
       Z.of_nat (List.length (KnowledgeBase.paginatedRules rules searchTerm currentPage))
       <= KnowledgeBase.PAGE_SIZE
       /\ (currentPage < KnowledgeBase.totalPages rules searchTerm ->
           Z.of_nat
             (List.length (KnowledgeBase.paginatedRules rules searchTerm currentPage))
           = KnowledgeBase.PAGE_SIZE)
       /\ (currentPage = KnowledgeBase.totalPages rules searchTerm ->
           1 <= Z.of_nat
                  (List.length
                     (KnowledgeBase.paginatedRules rules searchTerm currentPage)))
       /\ (KnowledgeBase.totalPages rules searchTerm < currentPage ->
           KnowledgeBase.paginatedRules rules searchTerm currentPage = []).
Proof.
  unfold KnowledgeBase.paginatedRules, KnowledgeBase.totalPages, KnowledgeBase.PAGE_SIZE.
  set (l := KnowledgeBase.filteredRules rules searchTerm).
  pose proof (ceilDiv_bounds (Z.of_nat (List.length l)) 8 ltac:(lia)) as [Hlo Hhi].
  set (T := JsText.ceilDiv (Z.of_nat (List.length l)) 8) in *.
  split; [|split].
  - rewrite (pages_concat l 8) by lia. apply firstn_all2. lia.
  - split; intros H.
    + destruct l; [reflexivity | cbn [List.length] in *; lia].
    + rewrite H in *. cbn [List.length] in *. lia.
  - intros p Hp.
    pose proof (slice_length l ((p - 1) * 8) (p * 8) ltac:(lia)) as Hlen.
    repeat split; intros; try lia.
    apply length_zero_iff_nil. lia.
Qed.

(** ** The store of the rules *)

Lemma findIndex_lower {A : Type} (p : A -> bool) (a : list A) : -1 <= JsArray.findIndex p a.
Proof.
  induction a as [|x a IH]; cbn [JsArray.findIndex]; [lia|].
  destruct (p x); [lia|]. destruct (JsArray.findIndex p a <? 0); lia.
Qed.

Section StoreFacts.
Context {json : JsonHost}.
Import Store.

Lemma upsert_replaceOrAppend (current : list Rule.LogRule) (rule : Rule.LogRule) :
  upsert current rule = replaceOrAppend current rule.
Proof.
  unfold upsert. induction current as [|r rest IH]; [reflexivity|].
  cbn [JsArray.findIndex replaceOrAppend].
  destruct (String.eqb (Rule.id r) (Rule.id rule)); [reflexivity|].
  pose proof (findIndex_lower (fun r0 => String.eqb (Rule.id r0) (Rule.id rule)) rest) as Hlo.
  destruct (Z.ltb_spec
              (JsArray.findIndex (fun r0 => String.eqb (Rule.id r0) (Rule.id rule)) rest) 0)
    as [Hneg|Hpos].
  - destruct (Z.leb_spec 0
                (JsArray.findIndex (fun r0 => String.eqb (Rule.id r0) (Rule.id rule)) rest));
      [lia|].
    cbn [Z.leb app] in *. now rewrite <- IH.
  - destruct (Z.leb_spec 0
                (JsArray.findIndex (fun r0 => String.eqb (Rule.id r0) (Rule.id rule)) rest
                 + 1)); [|lia].
    destruct (Z.leb_spec 0
                (JsArray.findIndex (fun r0 => String.eqb (Rule.id r0) (Rule.id rule)) rest));
      [|lia].
    rewrite Z2Nat.inj_add by lia. rewrite Nat.add_1_r.
    cbn [JsArray.setAt]. now rewrite <- IH.
Qed.

Lemma replaceOrAppend_find (current : list Rule.LogRule) (rule : Rule.LogRule) :
  find (fun r => String.eqb (Rule.id r) (Rule.id rule)) (replaceOrAppend current rule)
  = Some rule.
Proof.
  induction current as [|r rest IH]; cbn [replaceOrAppend find].
  - now rewrite String.eqb_refl.
  - destruct (String.eqb (Rule.id r) (Rule.id rule)) eqn:E; cbn [find].
    + now rewrite String.eqb_refl.
    + now rewrite E.
Qed.

Lemma replaceOrAppend_others (current : list Rule.LogRule) (rule : Rule.LogRule) :
  filter (fun r => negb (String.eqb (Rule.id r) (Rule.id rule)))
    (replaceOrAppend current rule)
  = filter (fun r => negb (String.eqb (Rule.id r) (Rule.id rule))) current.
Proof.
  induction current as [|r rest IH]; cbn [replaceOrAppend filter].
  - now rewrite String.eqb_refl.
  - destruct (String.eqb (Rule.id r) (Rule.id rule)) eqn:E; cbn [filter negb].
    + now rewrite String.eqb_refl.
    + rewrite E. cbn [negb]. now rewrite IH.
Qed.

Lemma replaceOrAppend_length (current : list Rule.LogRule) (rule : Rule.LogRule) :
  List.length (replaceOrAppend current rule)
  = (List.length current
     + if existsb (fun r => String.eqb (Rule.id r) (Rule.id rule)) current then 0 else 1)%nat.
Proof.
  induction current as [|r rest IH]; cbn [replaceOrAppend existsb List.length];
    [reflexivity|].
  destruct (String.eqb (Rule.id r) (Rule.id rule)); cbn [orb List.length]; [lia|].
  rewrite IH. lia.
Qed.

Lemma replaceOrAppend_new (current : list Rule.LogRule) (rule : Rule.LogRule) :
  existsb (fun r => String.eqb (Rule.id r) (Rule.id rule)) current = false ->
  replaceOrAppend current rule = current ++ [rule].
Proof.
  induction current as [|r rest IH]; cbn [replaceOrAppend existsb app]; [reflexivity|].
  intros H. apply orb_false_iff in H. destruct H as [E H]. rewrite E. now rewrite IH.
Qed.

(** What [getRules] gives after a write that the host reads back. *)
Lemma getRules_setItem (w : World) (rules : list Rule.LogRule) :
  readsBack rules -> getRules (setItem w (stringify rules)) = rules.
Proof.
  intros [Hparse Hne]. unfold getRules, getRulesArray. cbn [setItem item].
  destruct (String.eqb_spec (stringify rules) "") as [E|_]; [congruence|].
  cbn [negb]. now rewrite Hparse.
Qed.

End StoreFacts.

(** X14.  After [saveRule], provided the host reads back the text written,
    a lookup by the id of the rule gives the rule saved, the rules of other
    ids are the same in the same order, and the store has grown by one when
    the id was new, in which case the rule stands last, and not at all when
    it was known. *)
Theorem X14_saveRule_then_lookup {json : JsonHost} (w : Store.World) (rule : Rule.LogRule) :
  Store.readsBack (Store.upsert (Store.getRules w) rule) ->
  find (fun r => String.eqb (Rule.id r) (Rule.id rule))
    (Store.getRules (Store.saveRule w rule)) = Some rule
  /\ filter (fun r => negb (String.eqb (Rule.id r) (Rule.id rule)))
       (Store.getRules (Store.saveRule w rule))
     = filter (fun r => negb (String.eqb (Rule.id r) (Rule.id rule))) (Store.getRules w)
  /\ List.length (Store.getRules (Store.saveRule w rule))
     = (List.length (Store.getRules w)
        + if existsb (fun r => String.eqb (Rule.id r) (Rule.id rule)) (Store.getRules w)
          then 0 else 1)%nat
  /\ (existsb (fun r => String.eqb (Rule.id r) (Rule.id rule)) (Store.getRules w) = false ->
      Store.getRules (Store.saveRule w rule) = Store.getRules w ++ [rule]).
Proof.
  intros Hback. unfold Store.saveRule. rewrite (getRules_setItem w _ Hback).
  rewrite upsert_replaceOrAppend. repeat split.
  - apply replaceOrAppend_find.
  - apply replaceOrAppend_others.
  - apply replaceOrAppend_length.
  - apply replaceOrAppend_new.
Qed.

Lemma X14_witness :
  find (fun r => String.eqb (Rule.id r) "7")
    (Store.getRules (json := JsonText.host)
       (Store.saveRule (json := JsonText.host) (Fixture.holding Fixture.twoRules)
          (Sample.mkRule "7" "Generic failure, edited" "failed" [] WARNING 4)))
  = Some (Sample.mkRule "7" "Generic failure, edited" "failed" [] WARNING 4)
  /\ List.length
       (Store.getRules (json := JsonText.host)
          (Store.saveRule (json := JsonText.host) (Fixture.holding Fixture.twoRules)
             (Sample.mkRule "7" "Generic failure, edited" "failed" [] WARNING 4)))
     = 2%nat.
Proof.
  pose proof (X14_saveRule_then_lookup (json := JsonText.host)
                (Fixture.holding Fixture.twoRules)
                (Sample.mkRule "7" "Generic failure, edited" "failed" [] WARNING 4)) as H.
  destruct H as (Hfind & _ & Hlen & _).
  - split; [vm_compute; reflexivity | vm_compute; discriminate].
  - split; [exact Hfind | exact Hlen].
Defined.

(** X15.  After [deleteRule], provided the host reads back the text written,
    no rule of the store has the id, and the other rules are the same in the
    same order; deleting an id the store does not know leaves its rules as
    they were. *)
Theorem X15_deleteRule_removes_the_id {json : JsonHost} (w : Store.World) (id : string) :
  Store.readsBack
    (filter (fun r => negb (String.eqb (Rule.id r) id)) (Store.getRules w)) ->
  Store.getRules (Store.deleteRule w id)
  = filter (fun r => negb (String.eqb (Rule.id r) id)) (Store.getRules w)
  /\ find (fun r => String.eqb (Rule.id r) id) (Store.getRules (Store.deleteRule w id)) = None
  /\ (existsb (fun r => String.eqb (Rule.id r) id) (Store.getRules w) = false ->
      Store.getRules (Store.deleteRule w id) = Store.getRules w).
Proof.
  intros Hback. unfold Store.deleteRule. rewrite (getRules_setItem w _ Hback).
  clear Hback. repeat split.
  - induction (Store.getRules w) as [|r rest IH]; [reflexivity|].
    cbn [filter]. destruct (String.eqb (Rule.id r) id) eqn:E; cbn [negb find]; [exact IH|].
    now rewrite E.
  - intros H. apply forallb_filter_id. apply forallb_forall. intros r Hr.
    apply negb_true_iff. destruct (String.eqb (Rule.id r) id) eqn:E; [|reflexivity].
    assert (Hex : existsb (fun r0 => String.eqb (Rule.id r0) id) (Store.getRules w) = true)
      by (apply existsb_exists; now exists r).
    congruence.
Qed.

Lemma X15_witness :
  Store.getRules (json := JsonText.host)
    (Store.deleteRule (json := JsonText.host) (Fixture.holding Fixture.twoRules) "7")
  = [Fixture.quoted]
  /\ find (fun r => String.eqb (Rule.id r) "7")
       (Store.getRules (json := JsonText.host)
          (Store.deleteRule (json := JsonText.host) (Fixture.holding Fixture.twoRules) "7")) = None.
Proof.
  pose proof (X15_deleteRule_removes_the_id (json := JsonText.host)
                (Fixture.holding Fixture.twoRules) "7") as H.
  destruct H as (Hget & Hfind & _).
  - split; [vm_compute; reflexivity | vm_compute; discriminate].
  - split; [rewrite Hget; vm_compute; reflexivity | exact Hfind].
Defined.

(** X16.  Saving a rule under a new id and deleting that id again gives back
    the rules the store had, provided the host reads back both texts
    written. *)
Theorem X16_save_then_delete_restores {json : JsonHost} (w : Store.World)
    (rule : Rule.LogRule) :
  existsb (fun r => String.eqb (Rule.id r) (Rule.id rule)) (Store.getRules w) = false ->
  Store.readsBack (Store.getRules w ++ [rule]) ->
  Store.readsBack (Store.getRules w) ->
  Store.getRules (Store.deleteRule (Store.saveRule w rule) (Rule.id rule))
  = Store.getRules w.
Proof.
  intros Hnew Hback1 Hback2.
  assert (Hup : Store.upsert (Store.getRules w) rule = Store.getRules w ++ [rule]).
  { rewrite upsert_replaceOrAppend. now apply replaceOrAppend_new. }
  assert (Hsaved : Store.getRules (Store.saveRule w rule) = Store.getRules w ++ [rule]).
  { unfold Store.saveRule. rewrite Hup. now apply getRules_setItem. }
  assert (Hfilter : filter (fun r => negb (String.eqb (Rule.id r) (Rule.id rule)))
                      (Store.getRules w ++ [rule]) = Store.getRules w).
  { rewrite filter_app. cbn [filter]. rewrite String.eqb_refl. cbn [negb].
    rewrite app_nil_r. apply forallb_filter_id, forallb_forall. intros r Hr.
    apply negb_true_iff. destruct (String.eqb (Rule.id r) (Rule.id rule)) eqn:E;
      [|reflexivity].
    assert (Hex : existsb (fun r0 => String.eqb (Rule.id r0) (Rule.id rule))
                    (Store.getRules w) = true) by (apply existsb_exists; now exists r).
    congruence. }
  unfold Store.deleteRule. rewrite Hsaved, Hfilter. now apply getRules_setItem.
Qed.

Lemma X16_witness :
  Store.getRules (json := JsonText.host)
    (Store.deleteRule (json := JsonText.host) (Store.saveRule (json := JsonText.host) (Fixture.holding Fixture.twoRules) Sample.csError)
       (Rule.id Sample.csError))
  = Store.getRules (json := JsonText.host) (Fixture.holding Fixture.twoRules).
Proof.
  apply (X16_save_then_delete_restores (json := JsonText.host)
           (Fixture.holding Fixture.twoRules) Sample.csError).
  - vm_compute. reflexivity.
  - split; [vm_compute; reflexivity | vm_compute; discriminate].
  - split; [vm_compute; reflexivity | vm_compute; discriminate].
Defined.

(** X17.  A store that was cleared stays empty: provided the host reads back
    the text of the empty array, [getRules] gives no rule after
    [clearRules], and [initStorage], which seeds a store that has no item,
    leaves the cleared store as it is. *)
Theorem X17_cleared_store_is_not_reseeded {json : JsonHost} (w : Store.World) :
  Store.readsBack [] ->
  Store.getRules (Store.clearRules w) = []
  /\ Store.initStorage (Store.clearRules w) = Store.clearRules w
  /\ Store.getRules (Store.initStorage (Store.clearRules w)) = [].
Proof.
  intros Hback.
  assert (Hinit : Store.initStorage (Store.clearRules w) = Store.clearRules w)
    by reflexivity.
  rewrite Hinit. unfold Store.clearRules.
  rewrite (getRules_setItem w [] Hback). repeat split.
Qed.

Lemma X17_witness :
  Store.getRules (json := JsonText.host)
    (Store.clearRules (json := JsonText.host) (Fixture.holding Fixture.twoRules)) = []
  /\ Store.initStorage (json := JsonText.host)
       (Store.clearRules (json := JsonText.host) (Fixture.holding Fixture.twoRules))
     = Store.clearRules (json := JsonText.host) (Fixture.holding Fixture.twoRules)
  /\ Store.getRules (json := JsonText.host)
       (Store.initStorage (json := JsonText.host)
          (Store.clearRules (json := JsonText.host) (Fixture.holding Fixture.twoRules)))
     = [].
Proof.
  apply (X17_cleared_store_is_not_reseeded (json := JsonText.host)).
  split; [vm_compute; reflexivity | vm_compute; discriminate].
Defined.

(** X18.  A store without item is seeded with the default rules when the
    module is loaded, and [resetRulesToDefaults] puts them back at any time:
    provided the host reads back their text, [getRules] then gives the
    default rules.  [initStorage] never touches an item that exists, so
    running it again changes nothing. *)
Theorem X18_defaults_seeded_and_restored {json : JsonHost} (w : Store.World) :
  Store.readsBack (Store.INITIAL_RULES w) ->
  Store.getRules (Store.resetRulesToDefaults w) = Store.INITIAL_RULES w
  /\ (Store.item w = None ->
      Store.getRules (Store.initStorage w) = Store.INITIAL_RULES w)
  /\ (forall s, Store.item w = Some s -> Store.initStorage w = w)
  /\ Store.initStorage (Store.initStorage w) = Store.initStorage w.
Proof.
  intros Hback. repeat split.
  - unfold Store.resetRulesToDefaults. now apply getRules_setItem.
  - intros Hnone. unfold Store.initStorage. rewrite Hnone. now apply getRules_setItem.
  - intros s Hs. unfold Store.initStorage. now rewrite Hs.
  - unfold Store.initStorage. destruct (Store.item w) eqn:E; [now rewrite E | reflexivity].
Qed.

Lemma X18_witness :
  Store.getRules (json := JsonText.host)
    (Store.resetRulesToDefaults (json := JsonText.host) (Fixture.holding Fixture.twoRules))
  = Fixture.defaults
  /\ Store.getRules (json := JsonText.host)
       (Store.initStorage (json := JsonText.host) Fixture.fresh) = Fixture.defaults.
Proof.
  pose proof (X18_defaults_seeded_and_restored (json := JsonText.host)
                (Fixture.holding Fixture.twoRules)) as H1.
  pose proof (X18_defaults_seeded_and_restored (json := JsonText.host) Fixture.fresh) as H2.
  split.
  - apply H1. split; [vm_compute; reflexivity | vm_compute; discriminate].
  - apply H2; [split; [vm_compute; reflexivity | vm_compute; discriminate] | reflexivity].
Defined.

(** X19.  A scan without rules of its own works on the array of [getRules]:
    its report is the report of a scan with those rules.  When that array
    came from the stored text, the store and the defaults are as before;
    when [getRules] fell back on [INITIAL_RULES], the scan has sorted that
    very array: the default rules are from then on the same rules by
    non-increasing weight, which is their former order only if that was
    already by non-increasing weight. *)
Theorem X19_fallback_scan_sorts_the_defaults {json : JsonHost} {host : RegExpHost}
    (w : Store.World) (clock : Engine.Clock) (text fileName : string) :
  Engine.report (fst (Store.analyzeLogStored w clock text fileName))
  = Engine.report
      (Engine.analyzeLog [] clock text fileName (Some (Store.getRules w)))
  /\ Store.item (snd (Store.analyzeLogStored w clock text fileName)) = Store.item w
  /\ match fst (Store.getRulesArray w) with
     | Store.Parsed _ => snd (Store.analyzeLogStored w clock text fileName) = w
     | Store.Initial =>
         Permutation (Store.INITIAL_RULES w)
           (Store.INITIAL_RULES (snd (Store.analyzeLogStored w clock text fileName)))
         /\ StronglySorted Spec.weightGe
              (Store.INITIAL_RULES (snd (Store.analyzeLogStored w clock text fileName)))
         /\ (Store.INITIAL_RULES (snd (Store.analyzeLogStored w clock text fileName))
             = Store.INITIAL_RULES w
             <-> Sorted Spec.weightGe (Store.INITIAL_RULES w))
     end.
Proof.
  unfold Store.analyzeLogStored, Store.getRules.
  destruct (fst (Store.getRulesArray w)) as [rules|]; cbn [fst snd Store.content];
    [repeat split|].
  cbn [Engine.analyzeLog Engine.rulesAfter Store.INITIAL_RULES Store.item Engine.report].
  assert (Hs : Sorted Spec.weightGe (Js.sort Engine.byWeightDesc (Store.INITIAL_RULES w))).
  { apply sorted_weightGe, sort_sorted. exact byWeightDesc_total. }
  repeat split.
  - apply sort_perm.
  - apply Sorted_StronglySorted; [|exact Hs]. intros a b c. unfold Spec.weightGe. lia.
  - intros E. now rewrite E in Hs.
  - intros H. apply sort_fixes_sorted, sorted_weightGe, H.
Qed.

(** On a store without item the defaults [10, 100, 99, 1] are left in the
    order [100, 99, 10, 1]. *)
Example fallback_scan_reorders_defaults :
  map Rule.weight Fixture.defaults = [10; 100; 99; 1]
  /\ map Rule.weight
       (Store.INITIAL_RULES
          (snd (Store.analyzeLogStored (json := JsonText.host) (host := MiniRegExp.host)
                  Fixture.fresh Sample.clock1 Sample.buildLog "Editor.log")))
     = [100; 99; 10; 1].
Proof. split; vm_compute; reflexivity. Qed.

(** ** Grouping the Issues *)

Section ObjectFacts.
Context {V : Type}.

Lemma get_own (o : JsObject.t V) (k : string) (v : V) :
  NoDup (map fst o) -> In (k, v) o -> JsObject.get o k = JsObject.Own v.
Proof.
  unfold JsObject.get. induction o as [|[k' v'] o IH]; intros Hnd Hin; [contradiction|].
  cbn [map fst] in Hnd. inversion Hnd as [|? ? Hnotin Hnd']; subst.
  cbn [find fst]. destruct Hin as [E|Hin].
  - injection E as -> ->. now rewrite String.eqb_refl.
  - destruct (String.eqb_spec k' k) as [->|_].
    + exfalso. apply Hnotin. apply in_map_iff. now exists (k, v).
    + now apply IH.
Qed.

Lemma get_absent (o : JsObject.t V) (k : string) :
  ~ In k (map fst o) ->
  JsObject.get o k
  = if existsb (String.eqb k) JsObject.prototypeKeys
    then JsObject.Inherited else JsObject.Missing.
Proof.
  unfold JsObject.get. induction o as [|[k' v'] o IH]; intros Hnotin; [reflexivity|].
  cbn [find fst map] in *. destruct (String.eqb_spec k' k) as [->|_].
  - exfalso. apply Hnotin. now left.
  - apply IH. intros H. apply Hnotin. now right.
Qed.

Lemma set_absent (o : JsObject.t V) (k : string) (v : V) :
  ~ In k (map fst o) -> JsObject.set o k v = o ++ [(k, v)].
Proof.
  induction o as [|[k' v'] o IH]; intros Hnotin; [reflexivity|].
  cbn [JsObject.set map fst app] in *. destruct (String.eqb_spec k' k) as [->|_].
  - exfalso. apply Hnotin. now left.
  - rewrite IH; [reflexivity|]. intros H. apply Hnotin. now right.
Qed.

Lemma set_keys (o : JsObject.t V) (k : string) (v : V) :
  In k (map fst o) -> map fst (JsObject.set o k v) = map fst o.
Proof.
  induction o as [|[k' v'] o IH]; intros Hin; [contradiction|].
  cbn [JsObject.set map fst] in *. destruct (String.eqb_spec k' k) as [->|Hne].
  - reflexivity.
  - cbn [map fst]. rewrite IH; [reflexivity|]. destruct Hin; [congruence | assumption].
Qed.

Lemma set_present (o : JsObject.t V) (k : string) (v : V) (k' : string) (v' : V) :
  NoDup (map fst o) -> In k (map fst o) ->
  In (k', v') (JsObject.set o k v) ->
  (k' = k /\ v' = v) \/ (k' <> k /\ In (k', v') o).
Proof.
  induction o as [|[k0 v0] o IH]; intros Hnd Hin Hset; [contradiction|].
  cbn [map fst] in Hnd. inversion Hnd as [|? ? Hnotin Hnd']; subst.
  cbn [JsObject.set map fst] in *. destruct (String.eqb_spec k0 k) as [->|Hne].
  - destruct Hset as [E|Hset].
    + injection E as <- <-. now left.
    + right. split; [|now right]. intros ->. apply Hnotin.
      apply in_map_iff. now exists (k, v').
  - destruct Hset as [E|Hset].
    + injection E as <- <-. right. split; [exact Hne | now left].
    + destruct Hin as [E|Hin]; [congruence|].
      destruct (IH Hnd' Hin Hset) as [H|[H1 H2]]; [now left | right].
      split; [exact H1 | now right].
Qed.

Lemma partition_permutation (f : string * V -> bool) (o : JsObject.t V) :
  Permutation o (filter f o ++ filter (fun p => negb (f p)) o).
Proof.
  induction o as [|p o IH]; [constructor|].
  cbn [filter]. destruct (f p); cbn [negb app].
  - now constructor.
  - now apply Permutation_cons_app.
Qed.

Lemma values_permutation (o : JsObject.t V) :
  Permutation (map snd o) (JsObject.values o).
Proof.
  unfold JsObject.values. apply Permutation_map.
  etransitivity; [apply (partition_permutation (fun p => JsObject.isIndex (fst p)))|].
  apply Permutation_app_tail. apply sort_perm.
Qed.

End ObjectFacts.

Lemma NoDup_map_injective {A B : Type} (f : A -> B) (l : list A) (a b : A) :
  NoDup (map f l) -> In a l -> In b l -> f a = f b -> a = b.
Proof.
  induction l as [|x l IH]; intros Hnd Ha Hb E; [contradiction|].
  cbn [map] in Hnd. inversion Hnd as [|? ? Hnotin Hnd']; subst.
  destruct Ha as [->|Ha], Hb as [->|Hb]; auto.
  - exfalso. apply Hnotin. rewrite E. now apply in_map.
  - exfalso. apply Hnotin. rewrite <- E. now apply in_map.
Qed.

Section GroupingFacts.
Context {text : CaseHost}.
Import Grouping.

Lemma groupOf_grow (seen : list Issue.AnalyzedIssue) (x : Issue.AnalyzedIssue)
    (k : string) (g : Analyzer.IssueGroup) :
  groupOf seen k g -> k <> Issue.ruleId x -> groupOf (seen ++ [x]) k g.
Proof.
  intros (Hk & Hissues & Hfirst) Hne. repeat split; auto.
  rewrite filter_app. cbn [filter].
  destruct (String.eqb_spec (Issue.ruleId x) k); [congruence|].
  now rewrite app_nil_r.
Qed.

Lemma wellGrouped_nil : wellGrouped [] [].
Proof. repeat split; try constructor; intros; contradiction. Qed.

(** One turn of the loop on a visible Issue whose rule id is no inherited
    name. *)
Lemma addIssue_visible (filterText : string) (seen : list Issue.AnalyzedIssue)
    (groups : JsObject.t Analyzer.IssueGroup) (x : Issue.AnalyzedIssue) :
  wellGrouped seen groups ->
  passesFilter filterText x = true -> inheritedName x = false ->
  exists groups',
    addIssue filterText (Some groups) x = Some groups'
    /\ wellGrouped (seen ++ [x]) groups'.
Proof.
  intros (Hnd & Hgroups & Hcover & Hclean) Hpass Hinh.
  unfold addIssue. rewrite Hpass. cbn [negb].
  destruct (in_dec string_dec (Issue.ruleId x) (map fst groups)) as [Hin|Hnotin].
  - apply in_map_iff in Hin. destruct Hin as ([k g] & Hk & Hin). cbn [fst] in Hk. subst k.
    rewrite (get_own groups _ g Hnd Hin).
    assert (Hkey : In (Issue.ruleId x) (map fst groups))
      by (apply in_map_iff; now exists (Issue.ruleId x, g)).
    eexists. split; [reflexivity|]. repeat split.
    + now rewrite set_keys.
    + apply set_present in H; [|exact Hnd|exact Hkey].
      destruct H as [[-> ->]|[Hne H]].
      * destruct (Hgroups _ _ Hin) as (Hid & _). exact Hid.
      * destruct (Hgroups _ _ H) as (Hid & _). exact Hid.
    + apply set_present in H; [|exact Hnd|exact Hkey].
      destruct H as [[-> ->]|[Hne H]].
      * destruct (Hgroups _ _ Hin) as (_ & Hissues & _). cbn [Analyzer.issues].
        rewrite filter_app, Hissues. cbn [filter]. now rewrite String.eqb_refl.
      * destruct (Hgroups _ _ H) as (_ & Hissues & _).
        rewrite filter_app, Hissues. cbn [filter].
        destruct (String.eqb_spec (Issue.ruleId x) k); [congruence|].
        now rewrite app_nil_r.
    + apply set_present in H; [|exact Hnd|exact Hkey].
      destruct H as [[-> ->]|[Hne H]].
      * destruct (Hgroups _ _ Hin) as (_ & _ & first & Hhd & Hname & Hsev).
        exists first. cbn [Analyzer.issues Analyzer.ruleName Analyzer.severity].
        repeat split; auto.
        destruct (Analyzer.issues g); [discriminate | exact Hhd].
      * destruct (Hgroups _ _ H) as (_ & _ & Hfirst). exact Hfirst.
    + intros i Hi. rewrite set_keys by exact Hkey.
      apply in_app_or in Hi. destruct Hi as [Hi|[<-|[]]]; [now apply Hcover | exact Hkey].
    + intros k Hk. rewrite set_keys in Hk by exact Hkey. now apply Hclean.
  - rewrite (get_absent groups _ Hnotin). unfold inheritedName in Hinh. rewrite Hinh.
    eexists. split; [reflexivity|]. rewrite (set_absent groups _ _ Hnotin).
    assert (Hnone : filter (fun i => String.eqb (Issue.ruleId i) (Issue.ruleId x)) seen = []).
    { apply filter_nothing. intros i Hi. apply String.eqb_neq. intros E.
      apply Hnotin. rewrite <- E. now apply Hcover. }
    repeat split.
    + rewrite map_app. cbn [map fst]. apply NoDup_app; [exact Hnd | repeat constructor; intros [] |].
      intros k Hk [<-|[]]. contradiction.
    + apply in_app_or in H. destruct H as [H|[E|[]]].
      * destruct (Hgroups _ _ H) as (Hid & _). exact Hid.
      * now injection E as <- <-.
    + apply in_app_or in H. destruct H as [H|[E|[]]].
      * apply (groupOf_grow seen x k g (Hgroups _ _ H)).
        intros ->. apply Hnotin. apply in_map_iff. now exists (Issue.ruleId x, g).
      * injection E as <- <-. cbn [Analyzer.issues].
        rewrite filter_app, Hnone. cbn [filter app]. now rewrite String.eqb_refl.
    + apply in_app_or in H. destruct H as [H|[E|[]]].
      * destruct (Hgroups _ _ H) as (_ & _ & Hfirst). exact Hfirst.
      * injection E as <- <-. exists x. repeat split.
    + intros i Hi. rewrite map_app. apply in_or_app.
      apply in_app_or in Hi. destruct Hi as [Hi|[<-|[]]]; [left; now apply Hcover|].
      right. now left.
    + intros k Hk. rewrite map_app in Hk. apply in_app_or in Hk.
      destruct Hk as [Hk|[<-|[]]]; [now apply Hclean | exact Hinh].
Qed.

Lemma fold_addIssue_thrown (filterText : string) (issues : list Issue.AnalyzedIssue) :
  fold_left (addIssue filterText) issues None = None.
Proof. induction issues as [|x issues IH]; [reflexivity | exact IH]. Qed.

Lemma fold_addIssue_ok (filterText : string) (issues seen : list Issue.AnalyzedIssue)
    (groups : JsObject.t Analyzer.IssueGroup) :
  wellGrouped seen groups ->
  (forall i, In i (visible filterText issues) -> inheritedName i = false) ->
  exists groups',
    fold_left (addIssue filterText) issues (Some groups) = Some groups'
    /\ wellGrouped (seen ++ visible filterText issues) groups'.
Proof.
  revert seen groups. induction issues as [|x issues IH]; intros seen groups Hwell Hclean.
  - exists groups. cbn [visible filter]. now rewrite app_nil_r.
  - cbn [fold_left]. unfold visible in *. cbn [filter] in *.
    destruct (passesFilter filterText x) eqn:Hpass.
    + destruct (addIssue_visible filterText seen groups x Hwell Hpass) as (g1 & E & Hwell1).
      { apply Hclean. now left. }
      rewrite E. destruct (IH (seen ++ [x]) g1 Hwell1) as (g2 & E2 & Hwell2).
      { intros i Hi. apply Hclean. now right. }
      exists g2. split; [exact E2|]. now rewrite <- app_assoc in Hwell2.
    + assert (E : addIssue filterText (Some groups) x = Some groups)
        by (unfold addIssue; now rewrite Hpass).
      rewrite E. now apply IH.
Qed.

Lemma fold_addIssue_throws (filterText : string) (issues seen : list Issue.AnalyzedIssue)
    (groups : JsObject.t Analyzer.IssueGroup) :
  wellGrouped seen groups ->
  (exists i, In i (visible filterText issues) /\ inheritedName i = true) ->
  fold_left (addIssue filterText) issues (Some groups) = None.
Proof.
  revert seen groups. induction issues as [|x issues IH]; intros seen groups Hwell Hbad.
  - destruct Hbad as (i & [] & _).
  - cbn [fold_left]. unfold visible in *. cbn [filter] in *.
    destruct (passesFilter filterText x) eqn:Hpass.
    + destruct (inheritedName x) eqn:Hinh.
      * assert (E : addIssue filterText (Some groups) x = None).
        { unfold addIssue. rewrite Hpass. cbn [negb].
          destruct Hwell as (_ & _ & _ & Hclean).
          rewrite get_absent.
          - unfold inheritedName in Hinh. now rewrite Hinh.
          - intros Hin. apply Hclean in Hin. unfold inheritedName in Hinh. congruence. }
        rewrite E. apply fold_addIssue_thrown.
      * destruct (addIssue_visible filterText seen groups x Hwell Hpass Hinh)
          as (g1 & E & Hwell1).
        rewrite E. apply (IH (seen ++ [x]) g1 Hwell1).
        destruct Hbad as (i & [<-|Hi] & Hinh'); [congruence | now exists i].
    + assert (E : addIssue filterText (Some groups) x = Some groups)
        by (unfold addIssue; now rewrite Hpass).
      rewrite E. now apply (IH seen).
Qed.

End GroupingFacts.

(** X20.  When no visible Issue has a rule id that objects inherit, the
    groups are computed, and they divide the visible Issues by rule id: the
    rule ids of the groups differ, a group holds the visible Issues of its
    rule id, all of them and in the order of the report, it has at least one
    and takes its name and severity from the first, and every visible Issue
    is in one group and no other. *)
Theorem X20_groups_divide_the_visible_issues {text : CaseHost}
    (localeCompare : string -> string -> Z)
    (report : Report.AnalysisReport) (filterText : string)
    (sortOrder : Analyzer.SortOrder) :
  (forall i, In i (Grouping.visible filterText (Report.issues report)) ->
             Grouping.inheritedName i = false) ->
  exists groups,
    Grouping.groupedIssues localeCompare (Some report) filterText sortOrder = Some groups
    /\ NoDup (map Analyzer.ruleId groups)
    /\ (forall g, In g groups ->
          Grouping.groupOf (Grouping.visible filterText (Report.issues report))
            (Analyzer.ruleId g) g)
    /\ (forall i, In i (Grouping.visible filterText (Report.issues report)) ->
          exists g,
            In g groups /\ In i (Analyzer.issues g)
            /\ forall g', In g' groups -> In i (Analyzer.issues g') -> g' = g).
Proof.
  intros Hclean. unfold Grouping.groupedIssues.
  destruct (fold_addIssue_ok filterText (Report.issues report) [] []
              wellGrouped_nil Hclean) as (obj & E & Hnd & Hgroups & Hcover & _).
  match goal with
  | |- context [fold_left ?f ?l ?a] =>
      replace (fold_left f l a) with (Some obj) by (symmetry; exact E)
  end.
  cbn [app] in *. eexists. split; [reflexivity|].
  set (vis := Grouping.visible filterText (Report.issues report)) in *.
  assert (Hperm : Permutation (map snd obj)
                    (Analyzer.sortGroups localeCompare sortOrder (JsObject.values obj))).
  { etransitivity; [apply values_permutation | apply sort_perm]. }
  assert (Hentry : forall g,
             In g (Analyzer.sortGroups localeCompare sortOrder (JsObject.values obj)) ->
             In (Analyzer.ruleId g, g) obj).
  { intros g Hg. apply (Permutation_in _ (Permutation_sym Hperm)) in Hg.
    apply in_map_iff in Hg. destruct Hg as ([k g'] & Eg & Hin). cbn [snd] in Eg. subst g'.
    destruct (Hgroups _ _ Hin) as (Hid & _). now rewrite Hid. }
  assert (Hids : NoDup
                   (map Analyzer.ruleId
                      (Analyzer.sortGroups localeCompare sortOrder (JsObject.values obj)))).
  { apply (Permutation_NoDup (l := map Analyzer.ruleId (map snd obj)));
      [now apply Permutation_map|].
    replace (map Analyzer.ruleId (map snd obj)) with (map fst obj); [exact Hnd|].
    rewrite map_map. apply map_ext_in. intros [k g] Hin. cbn [fst snd].
    destruct (Hgroups _ _ Hin) as (Hid & _). now rewrite Hid. }
  split; [exact Hids|]. split.
  - intros g Hg. apply Hgroups. now apply Hentry.
  - intros i Hi. specialize (Hcover i Hi). apply in_map_iff in Hcover.
    destruct Hcover as ([k g] & Ek & Hin). cbn [fst] in Ek. subst k.
    assert (Hg : In g (Analyzer.sortGroups localeCompare sortOrder (JsObject.values obj))).
    { apply (Permutation_in _ Hperm). apply in_map_iff. now exists (Issue.ruleId i, g). }
    destruct (Hgroups _ _ Hin) as (Hid & Hissues & _).
    exists g. repeat split; [exact Hg | |].
    + rewrite Hissues. apply filter_In. split; [exact Hi | apply String.eqb_refl].
    + intros g' Hg' Hi'.
      destruct (Hgroups _ _ (Hentry g' Hg')) as (_ & Hissues' & _).
      rewrite Hissues' in Hi'. apply filter_In in Hi'. destruct Hi' as [_ E'].
      apply String.eqb_eq in E'.
      apply (NoDup_map_injective Analyzer.ruleId _ g' g Hids Hg' Hg). congruence.
Qed.

(** X21.  The grouping throws exactly when a visible Issue has a rule id that
    every object inherits, such as [constructor] or [toString]: under that
    name there is something, but nothing with a list of Issues to push on. *)
Theorem X21_grouping_throws_on_inherited_names {text : CaseHost}
    (localeCompare : string -> string -> Z)
    (report : Report.AnalysisReport) (filterText : string)
    (sortOrder : Analyzer.SortOrder) :
  Grouping.groupedIssues localeCompare (Some report) filterText sortOrder = None
  <-> exists i,
        In i (Grouping.visible filterText (Report.issues report))
        /\ Grouping.inheritedName i = true.
Proof.
  unfold Grouping.groupedIssues. split.
  - intros H.
    destruct (existsb Grouping.inheritedName
                (Grouping.visible filterText (Report.issues report))) eqn:E.
    + apply existsb_exists in E. exact E.
    + exfalso.
      destruct (fold_addIssue_ok filterText (Report.issues report) [] [] wellGrouped_nil)
        as (obj & Eobj & _).
      * intros i Hi. destruct (Grouping.inheritedName i) eqn:Ei; [|reflexivity].
        assert (Hex : existsb Grouping.inheritedName
                        (Grouping.visible filterText (Report.issues report)) = true)
          by (apply existsb_exists; now exists i).
        congruence.
      * match type of H with
        | context [fold_left ?f ?l ?a] =>
            replace (fold_left f l a) with (Some obj) in H by (symmetry; exact Eobj)
        end.
        discriminate.
  - intros Hbad.
    pose proof (fold_addIssue_throws filterText (Report.issues report) [] []
                  wellGrouped_nil Hbad) as E.
    match goal with
    | |- context [fold_left ?f ?l ?a] =>
        replace (fold_left f l a) with (@None (JsObject.t Analyzer.IssueGroup))
          by (symmetry; exact E)
    end.
    reflexivity.
Qed.

Lemma X20_witness :
  exists groups,
    Grouping.groupedIssues (text := Latin1.host) Sample.codeUnitCompare
      (Some Fixture.mixedReport) "FAILED" Analyzer.severity_desc = Some groups
    /\ NoDup (map Analyzer.ruleId groups)
    /\ (forall g, In g groups ->
          Grouping.groupOf
            (Grouping.visible (text := Latin1.host) "FAILED"
               (Report.issues Fixture.mixedReport))
            (Analyzer.ruleId g) g)
    /\ (forall i,
          In i (Grouping.visible (text := Latin1.host) "FAILED"
                  (Report.issues Fixture.mixedReport)) ->
          exists g,
            In g groups /\ In i (Analyzer.issues g)
            /\ forall g', In g' groups -> In i (Analyzer.issues g') -> g' = g).
Proof.
  apply (X20_groups_divide_the_visible_issues (text := Latin1.host)
           Sample.codeUnitCompare Fixture.mixedReport "FAILED" Analyzer.severity_desc).
  apply Forall_forall. vm_compute. repeat constructor.
Defined.

(** On the sample report the filter keeps three Issues, in two groups; a
    rule called [constructor] makes the grouping throw. *)
Example grouping_of_the_sample_report :
  option_map (map (fun g => (Analyzer.ruleId g, map Issue.lineNumber (Analyzer.issues g))))
    (Grouping.groupedIssues (text := Latin1.host) Sample.codeUnitCompare
       (Some Fixture.mixedReport) "FAILED" Analyzer.severity_desc)
  = Some [("6", [1]); ("7", [3; 4])]
  /\ Grouping.groupedIssues (text := Latin1.host) Sample.codeUnitCompare
       (Some (Engine.report (Sample.run Fixture.mixedLog [Fixture.inheritedId])))
       "" Analyzer.severity_desc
     = None.
Proof. split; vm_compute; reflexivity. Qed.

(** ** The ids of the Issues *)

Lemma afterLastDash_digits (u : Decimal.uint) :
  afterLastDash (NilEmpty.string_of_uint u) = None.
Proof. induction u; cbn [NilEmpty.string_of_uint afterLastDash]; try rewrite IHu; reflexivity. Qed.

Lemma afterLastDash_append (r d : string) :
  afterLastDash d = None -> afterLastDash (r ++ String "-" d) = Some d.
Proof.
  intros Hd. induction r as [|c r IH]; cbn [String.append afterLastDash].
  - now rewrite Hd.
  - now rewrite IH.
Qed.

Lemma toString_positive (z : Z) :
  0 < z ->
  exists u, u <> Decimal.Nil /\ JsNumber.toString z = NilEmpty.string_of_uint u
            /\ Z.to_int z = Decimal.Pos u.
Proof.
  intros Hz. destruct z as [|p|p]; try lia.
  exists (Pos.to_uint p). split; [apply DecimalPos.Unsigned.to_uint_nonnil|].
  split; [|reflexivity].
  unfold JsNumber.toString. cbn [Z.to_int NilZero.string_of_int]. unfold Pos.to_int.
  cbn [NilZero.string_of_int]. unfold NilZero.string_of_uint.
  pose proof (DecimalPos.Unsigned.to_uint_nonnil p) as Hn.
  destruct (Pos.to_uint p); [congruence | reflexivity..].
Qed.

Lemma toString_injective (a b : Z) :
  0 < a -> 0 < b -> JsNumber.toString a = JsNumber.toString b -> a = b.
Proof.
  intros Ha Hb E.
  destruct (toString_positive a Ha) as (u & Hu & Eu & Iu).
  destruct (toString_positive b Hb) as (v & Hv & Ev & Iv).
  rewrite Eu, Ev in E.
  assert (Huv : Some u = Some v).
  { rewrite <- (NilEmpty.usu u), <- (NilEmpty.usu v). now rewrite E. }
  injection Huv as ->.
  rewrite <- (DecimalZ.of_to a), <- (DecimalZ.of_to b). now rewrite Iu, Iv.
Qed.

Lemma getIssueId_line (a b : Issue.AnalyzedIssue) :
  0 < Issue.lineNumber a -> 0 < Issue.lineNumber b ->
  Grouping.getIssueId a = Grouping.getIssueId b ->
  Issue.lineNumber a = Issue.lineNumber b.
Proof.
  intros Ha Hb E. apply toString_injective; auto.
  destruct (toString_positive _ Ha) as (u & _ & Eu & _).
  destruct (toString_positive _ Hb) as (v & _ & Ev & _).
  unfold Grouping.getIssueId in E. cbn [String.append] in E.
  assert (Ea : afterLastDash
                 (Issue.ruleId a ++ String "-" (JsNumber.toString (Issue.lineNumber a)))
               = Some (JsNumber.toString (Issue.lineNumber a))).
  { apply afterLastDash_append. rewrite Eu. apply afterLastDash_digits. }
  assert (Eb : afterLastDash
                 (Issue.ruleId b ++ String "-" (JsNumber.toString (Issue.lineNumber b)))
               = Some (JsNumber.toString (Issue.lineNumber b))).
  { apply afterLastDash_append. rewrite Ev. apply afterLastDash_digits. }
  rewrite E in Ea. rewrite Ea in Eb. now injection Eb.
Qed.

Lemma sorted_lines_injective (l : list Issue.AnalyzedIssue) (a b : Issue.AnalyzedIssue) :
  StronglySorted Vocabulary.lineBefore l ->
  In a l -> In b l -> Issue.lineNumber a = Issue.lineNumber b -> a = b.
Proof.
  induction 1 as [|x l Hs IH Hall]; intros Ha Hb E; [contradiction|].
  rewrite Forall_forall in Hall. unfold Vocabulary.lineBefore in Hall.
  destruct Ha as [->|Ha], Hb as [->|Hb]; auto.
  - specialize (Hall b Hb). lia.
  - specialize (Hall a Ha). lia.
Qed.

(** X22.  Within a report the id of an Issue, its rule id, a dash and its
    line number, belongs to that Issue alone: the ids are all different, and
    looking an Issue up by its id finds the Issue itself. *)
Theorem X22_issue_ids_identify_issues {host : RegExpHost}
    (stored : list Rule.LogRule) (clock : Engine.Clock) (text fileName : string)
    (customRules : option (list Rule.LogRule)) (issue : Issue.AnalyzedIssue) :
  In issue
     (Report.issues
        (Engine.report (Engine.analyzeLog stored clock text fileName customRules))) ->
  find (fun i => String.eqb (Grouping.getIssueId i) (Grouping.getIssueId issue))
    (Report.issues
       (Engine.report (Engine.analyzeLog stored clock text fileName customRules)))
  = Some issue
  /\ NoDup
       (map Grouping.getIssueId
          (Report.issues
             (Engine.report (Engine.analyzeLog stored clock text fileName customRules)))).
Proof.
  intros Hin.
  destruct (report_issues_by_line stored clock text fileName customRules)
    as (Hsorted & Hrange & _).
  set (issues := Report.issues
                   (Engine.report
                      (Engine.analyzeLog stored clock text fileName customRules))) in *.
  rewrite Forall_forall in Hrange.
  assert (Hinj : forall a b, In a issues -> In b issues ->
                             Grouping.getIssueId a = Grouping.getIssueId b -> a = b).
  { intros a b Ha Hb E. apply (sorted_lines_injective issues a b Hsorted Ha Hb).
    apply getIssueId_line; auto.
    - specialize (Hrange a Ha). lia.
    - specialize (Hrange b Hb). lia. }
  split.
  - destruct (find (fun i => String.eqb (Grouping.getIssueId i) (Grouping.getIssueId issue))
                issues) as [x|] eqn:E.
    + apply find_some in E. destruct E as [Hx E]. apply String.eqb_eq in E.
      f_equal. now apply Hinj.
    + apply (find_none _ _ E) in Hin. now rewrite String.eqb_refl in Hin.
  - clear Hin. clearbody issues. clear Hrange.
    induction Hsorted as [|x l Hs IH Hall]; [constructor|].
    cbn [map]. constructor.
    + intros Hx. apply in_map_iff in Hx. destruct Hx as (y & E & Hy).
      assert (x = y) by (apply Hinj; [now left | now right | now symmetry]).
      subst y. rewrite Forall_forall in Hall. specialize (Hall x Hy).
      unfold Vocabulary.lineBefore in Hall. lia.
    + apply IH. intros a b Ha Hb. apply Hinj; now right.
Qed.

Lemma X22_witness :
  exists issue,
    In issue (Report.issues Fixture.mixedReport)
    /\ find (fun i => String.eqb (Grouping.getIssueId i) (Grouping.getIssueId issue))
         (Report.issues Fixture.mixedReport) = Some issue
    /\ NoDup (map Grouping.getIssueId (Report.issues Fixture.mixedReport)).
Proof.
  eexists. split.
  - vm_compute. right. left. reflexivity.
  - apply (X22_issue_ids_identify_issues (host := MiniRegExp.host) Sample.stored
             Sample.clock1 Fixture.mixedLog "Editor.log" (Some Sample.stored)).
    vm_compute. right. left. reflexivity.
Defined.

(** ** The pager of the knowledge base *)

Lemma slice_nth_error {A : Type} (l : list A) (a b : Z) (k : nat) :
  0 <= a <= b ->
  (k < List.length (Js.slice l a b))%nat ->
  nth_error (Js.slice l a b) k = nth_error l (Z.to_nat a + k).
Proof.
  intros H Hk. pose proof (slice_length l a b H) as Hlen.
  rewrite slice_between in * by exact H.
  rewrite length_firstn, length_skipn in Hk.
  rewrite nth_error_firstn.
  destruct (Nat.ltb_spec k
              (Z.to_nat (Z.min b (Z.of_nat (List.length l)))
               - Z.to_nat (Z.min a (Z.of_nat (List.length l))))) as [_|Hge]; [|lia].
  rewrite nth_error_skipn. f_equal. lia.
Qed.

(** X23.  On a page of the knowledge base, the two buttons of the pager lead
    to a page again, the first page is the only one "previous" leaves
    unchanged and the last page the only one "next" leaves unchanged; the
    footer "a to b of n" names a non-empty range inside the list, as long as
    the page shown, and the page holds the rules at the positions a to b of
    the list. *)
Theorem X23_pager_stays_on_the_pages {text : CaseHost}
    (rules : list Rule.LogRule) (searchTerm : string)
    (currentPage : Z) :
  1 <= currentPage <= KnowledgeBase.totalPages rules searchTerm ->
  let totalPages := KnowledgeBase.totalPages rules searchTerm in
  let shown := KnowledgeBase.filteredRules rules searchTerm in
  let page := KnowledgeBase.paginatedRules rules searchTerm currentPage in
  let a := KnowledgeBaseActions.shownFrom currentPage in
  let b := KnowledgeBaseActions.shownTo currentPage (Z.of_nat (List.length shown)) in
  1 <= KnowledgeBaseActions.previousPage currentPage <= totalPages
  /\ 1 <= KnowledgeBaseActions.nextPage totalPages currentPage <= totalPages
  /\ (KnowledgeBaseActions.previousPage currentPage = currentPage <-> currentPage = 1)
  /\ (KnowledgeBaseActions.nextPage totalPages currentPage = currentPage
      <-> currentPage = totalPages)
  /\ 1 <= a <= b
  /\ b <= Z.of_nat (List.length shown)
  /\ Z.of_nat (List.length page) = b - a + 1
  /\ forall k, (k < List.length page)%nat ->
       nth_error page k = nth_error shown (Z.to_nat (a - 1) + k).
Proof.
  intros Hp totalPages shown page a b.
  assert (Hb : (totalPages - 1) * 8 < Z.of_nat (List.length shown) <= totalPages * 8)
    by exact (ceilDiv_bounds (Z.of_nat (List.length shown)) KnowledgeBase.PAGE_SIZE
                ltac:(reflexivity)).
  change (1 <= currentPage <= totalPages) in Hp.
  assert (Hpage : page = Js.slice shown ((currentPage - 1) * 8) (currentPage * 8))
    by reflexivity.
  assert (Ha : a = (currentPage - 1) * 8 + 1) by reflexivity.
  assert (Hb' : b = Z.min (currentPage * 8) (Z.of_nat (List.length shown))) by reflexivity.
  assert (Hprev : KnowledgeBaseActions.previousPage currentPage = Z.max 1 (currentPage - 1))
    by reflexivity.
  assert (Hnext : KnowledgeBaseActions.nextPage totalPages currentPage
                  = Z.min totalPages (currentPage + 1)) by reflexivity.
  clearbody totalPages shown page a b.
  rewrite Hprev, Hnext, Hpage. clear Hprev Hnext Hpage. subst a b.
  pose proof (slice_length shown ((currentPage - 1) * 8) (currentPage * 8) ltac:(lia)) as Hlen.
  repeat match goal with |- _ /\ _ => split end; try lia.
  intros k Hk. rewrite slice_nth_error; [|lia|exact Hk]. f_equal. lia.
Qed.

Lemma X23_witness :
  1 <= 1 <= KnowledgeBase.totalPages (text := Latin1.host) Fixture.defaults ""
  /\ 1 <= KnowledgeBaseActions.previousPage 1
     <= KnowledgeBase.totalPages (text := Latin1.host) Fixture.defaults "".
Proof.
  split; [vm_compute; split; discriminate|].
  apply (X23_pager_stays_on_the_pages (text := Latin1.host) Fixture.defaults "" 1).
  vm_compute; split; discriminate.
Defined.

(** ** The keywords box of the form *)

Lemma splitOnFrom_noChar (sep : ascii) (s : string) :
  Counting.countChar sep (fst (KnowledgeBaseActions.splitOnFrom sep s)) = O
  /\ Forall (fun l => Counting.countChar sep l = O)
       (snd (KnowledgeBaseActions.splitOnFrom sep s)).
Proof.
  induction s as [|c s [IH1 IH2]]; [split; [reflexivity | constructor]|].
  cbn [KnowledgeBaseActions.splitOnFrom].
  destruct (KnowledgeBaseActions.splitOnFrom sep s) as [piece rest]. cbn [fst snd] in *.
  destruct (Ascii.eqb c sep) eqn:Hc; cbn [fst snd].
  - split; [reflexivity | now constructor].
  - split; [|exact IH2]. cbn [Counting.countChar]. now rewrite Hc.
Qed.

Lemma splitOnFrom_without (sep : ascii) (s : string) :
  Counting.countChar sep s = O -> KnowledgeBaseActions.splitOnFrom sep s = (s, []).
Proof.
  induction s as [|c s IH]; [reflexivity|].
  cbn [Counting.countChar KnowledgeBaseActions.splitOnFrom].
  destruct (Ascii.eqb c sep); [discriminate|]. intros H. now rewrite (IH H).
Qed.

Lemma splitOn_app (sep : ascii) (s t : string) :
  KnowledgeBaseActions.splitOn sep (s ++ String sep t)%string
  = KnowledgeBaseActions.splitOn sep s ++ KnowledgeBaseActions.splitOn sep t.
Proof.
  unfold KnowledgeBaseActions.splitOn. induction s as [|c s IH].
  - cbn [String.append KnowledgeBaseActions.splitOnFrom]. rewrite Ascii.eqb_refl.
    now destruct (KnowledgeBaseActions.splitOnFrom sep t).
  - cbn [String.append KnowledgeBaseActions.splitOnFrom].
    destruct (KnowledgeBaseActions.splitOnFrom sep (s ++ String sep t)) as [p r].
    destruct (KnowledgeBaseActions.splitOnFrom sep s) as [p' r'].
    destruct (KnowledgeBaseActions.splitOnFrom sep t) as [p'' r''].
    cbn [app] in IH. injection IH as -> ->.
    now destruct (Ascii.eqb c sep).
Qed.

Lemma trimStart_noChar (c : ascii) (s : string) :
  Counting.countChar c s = O -> Counting.countChar c (Js.trimStart s) = O.
Proof.
  induction s as [|d s IH]; [reflexivity|].
  intros H. cbn [Js.trimStart]. destruct (Js.isWhiteSpace d); [|exact H].
  apply IH. cbn [Counting.countChar] in H. destruct (Ascii.eqb d c); [discriminate | exact H].
Qed.

Lemma trimEnd_noChar (c : ascii) (s : string) :
  Counting.countChar c s = O -> Counting.countChar c (Js.trimEnd s) = O.
Proof.
  induction s as [|d s IH]; [reflexivity|].
  cbn [Counting.countChar]. destruct (Ascii.eqb d c) eqn:Hd; [discriminate|].
  intros H. specialize (IH H). cbn [Js.trimEnd].
  destruct (Js.trimEnd s) as [|e t].
  - destruct (Js.isWhiteSpace d); [reflexivity|]. cbn [Counting.countChar]. now rewrite Hd.
  - cbn [Counting.countChar] in *. now rewrite Hd.
Qed.

Lemma trimStart_head (s : string) :
  Js.trimStart s = EmptyString
  \/ exists c u, Js.trimStart s = String c u /\ Js.isWhiteSpace c = false.
Proof.
  induction s as [|c s IH]; [now left|].
  cbn [Js.trimStart]. destruct (Js.isWhiteSpace c) eqn:Hc; [exact IH|].
  right. now exists c, s.
Qed.

Lemma trimEnd_idempotent (s : string) : Js.trimEnd (Js.trimEnd s) = Js.trimEnd s.
Proof.
  induction s as [|c s IH]; [reflexivity|].
  cbn [Js.trimEnd]. destruct (Js.trimEnd s) as [|d t] eqn:E.
  - destruct (Js.isWhiteSpace c) eqn:Hc; [reflexivity|].
    cbn [Js.trimEnd]. now rewrite Hc.
  - change (Js.trimEnd (String c (String d t))) with
      (match Js.trimEnd (String d t) with
       | EmptyString => if Js.isWhiteSpace c then EmptyString else String c EmptyString
       | u => String c u
       end).
    now rewrite IH.
Qed.

Lemma trimEnd_head (c : ascii) (u : string) :
  Js.isWhiteSpace c = false -> exists v, Js.trimEnd (String c u) = String c v.
Proof.
  intros Hc. cbn [Js.trimEnd]. destruct (Js.trimEnd u) as [|d t].
  - rewrite Hc. now exists EmptyString.
  - now exists (String d t).
Qed.

Lemma trim_idempotent (s : string) : Js.trim (Js.trim s) = Js.trim s.
Proof.
  unfold Js.trim. destruct (trimStart_head s) as [->|(c & u & -> & Hc)]; [reflexivity|].
  destruct (trimEnd_head c u Hc) as [v Hv].
  assert (Hs : Js.trimStart (Js.trimEnd (String c u)) = Js.trimEnd (String c u)).
  { rewrite Hv. cbn [Js.trimStart]. now rewrite Hc. }
  rewrite Hs. apply trimEnd_idempotent.
Qed.

Lemma keywordsOfInput_app (s t : string) :
  KnowledgeBaseActions.keywordsOfInput (s ++ String "," t)%string
  = KnowledgeBaseActions.keywordsOfInput s ++ KnowledgeBaseActions.keywordsOfInput t.
Proof.
  unfold KnowledgeBaseActions.keywordsOfInput.
  now rewrite splitOn_app, map_app, filter_app.
Qed.

Lemma keywordsOfInput_blank (s : string) :
  KnowledgeBaseActions.keywordsOfInput (String " " s)
  = KnowledgeBaseActions.keywordsOfInput s.
Proof.
  unfold KnowledgeBaseActions.keywordsOfInput, KnowledgeBaseActions.splitOn.
  cbn [KnowledgeBaseActions.splitOnFrom].
  destruct (KnowledgeBaseActions.splitOnFrom "," s) as [p r].
  change (Ascii.eqb " " ",") with false. cbv iota. cbn [map]. reflexivity.
Qed.

Lemma keywordsOfInput_keyword (k : string) :
  Counting.keyword k -> KnowledgeBaseActions.keywordsOfInput k = [k].
Proof.
  intros (Hne & Hcomma & Htrim).
  unfold KnowledgeBaseActions.keywordsOfInput, KnowledgeBaseActions.splitOn.
  rewrite (splitOnFrom_without _ _ Hcomma). cbn [map filter]. rewrite Htrim.
  destruct (String.eqb_spec k ""); [contradiction | reflexivity].
Qed.

Lemma keywordsOfInput_box (keywords : list string) :
  Forall Counting.keyword keywords ->
  KnowledgeBaseActions.keywordsOfInput (KnowledgeBaseActions.keywordsBox keywords)
  = keywords.
Proof.
  unfold KnowledgeBaseActions.keywordsBox.
  induction 1 as [|k ks Hk Hks IH]; [reflexivity|].
  destruct ks as [|k' ks].
  - now apply keywordsOfInput_keyword.
  - change (String.concat ", " (k :: k' :: ks))
      with (k ++ String "," (String " " (String.concat ", " (k' :: ks))))%string.
    rewrite keywordsOfInput_app, keywordsOfInput_blank, IH.
    now rewrite (keywordsOfInput_keyword k Hk).
Qed.

(** X24.  Whatever is typed in the keywords box, the form keeps keywords
    only: each one is not empty, holds no comma and has no white space at
    either end. *)
Theorem X24_keywords_box_keeps_keywords (value : string) :
  Forall Counting.keyword (KnowledgeBaseActions.keywordsOfInput value).
Proof.
  unfold KnowledgeBaseActions.keywordsOfInput, KnowledgeBaseActions.splitOn.
  pose proof (splitOnFrom_noChar "," value) as [H1 H2].
  destruct (KnowledgeBaseActions.splitOnFrom "," value) as [piece rest]. cbn [fst snd] in *.
  assert (Hall : Forall (fun l => Counting.countChar "," l = O) (piece :: rest))
    by now constructor.
  clear H1 H2. induction Hall as [|p ps Hp _ IH]; [constructor|].
  cbn [map filter]. destruct (String.eqb_spec (Js.trim p) "") as [_|Hne]; [exact IH|].
  cbn [negb]. constructor; [|exact IH].
  repeat split; [exact Hne | | apply trim_idempotent].
  unfold Js.trim. now apply trimEnd_noChar, trimStart_noChar.
Qed.

(** X25.  The box shows the keywords joined by a comma and a blank.  Read
    back, that text gives the same keywords again, and so does that text
    with a comma or a blank typed at its end: a trailing comma or blank is
    dropped.  The part before a comma and the part after it are read on
    their own. *)
Theorem X25_keywords_box_round_trip (keywords : list string) :
  Forall Counting.keyword keywords ->
  let shown := KnowledgeBaseActions.keywordsBox keywords in
  KnowledgeBaseActions.keywordsOfInput shown = keywords
  /\ KnowledgeBaseActions.keywordsOfInput (shown ++ ",")%string = keywords
  /\ KnowledgeBaseActions.keywordsOfInput (shown ++ ", ")%string = keywords
  /\ forall before after,
       KnowledgeBaseActions.keywordsOfInput (before ++ "," ++ after)%string
       = KnowledgeBaseActions.keywordsOfInput before
         ++ KnowledgeBaseActions.keywordsOfInput after.
Proof.
  intros H shown. pose proof (keywordsOfInput_box keywords H) as Hbox. fold shown in Hbox.
  split; [exact Hbox|]. split; [|split].
  - change (shown ++ ",")%string with (shown ++ String "," EmptyString)%string.
    rewrite keywordsOfInput_app, Hbox. apply app_nil_r.
  - change (shown ++ ", ")%string with (shown ++ String "," " ")%string.
    rewrite keywordsOfInput_app, Hbox. apply app_nil_r.
  - intros before after. apply keywordsOfInput_app.
Qed.

Lemma X25_witness :
  Forall Counting.keyword ["error"; "CS0"]
  /\ KnowledgeBaseActions.keywordsOfInput "error, CS0," = ["error"; "CS0"].
Proof.
  assert (H : Forall Counting.keyword ["error"; "CS0"]).
  { repeat constructor; try discriminate. }
  split; [exact H|].
  apply (X25_keywords_box_round_trip ["error"; "CS0"] H).
Defined.

(** ** The form and the import of the knowledge base *)

Lemma existsb_regex (rules : list Rule.LogRule) (x : string) :
  existsb (fun r => String.eqb (Rule.regex r) x) rules = true
  <-> In x (map Rule.regex rules).
Proof.
  rewrite existsb_exists, in_map_iff. split.
  - intros (r & Hin & E). apply String.eqb_eq in E. now exists r.
  - intros (r & E & Hin). exists r. split; [exact Hin | now apply String.eqb_eq].
Qed.

Lemma not_existsb_regex (rules : list Rule.LogRule) (x : string) :
  existsb (fun r => String.eqb (Rule.regex r) x) rules = false
  <-> ~ In x (map Rule.regex rules).
Proof.
  rewrite <- existsb_regex. destruct (existsb _ rules); split; congruence.
Qed.

Lemma NoDup_regex_push (rules : list Rule.LogRule) (r : Rule.LogRule) :
  ~ In (Rule.regex r) (map Rule.regex rules) ->
  NoDup (map Rule.regex rules) -> NoDup (map Rule.regex (rules ++ [r])).
Proof.
  intros Hnew Hnd. rewrite map_app. apply NoDup_app; [exact Hnd | |].
  - cbn [map]. constructor; [intros [] | constructor].
  - intros a Ha [<-|[]]. contradiction.
Qed.

Lemma truthy_orElse (o : option string) :
  KnowledgeBaseActions.truthy o = true -> KnowledgeBaseActions.orElse o "" <> "".
Proof.
  destruct o as [s|]; [|discriminate]. cbn. now destruct (String.eqb_spec s "").
Qed.

Lemma weightOr10_nonzero (o : option Z) : KnowledgeBaseActions.weightOr10 o <> 0.
Proof.
  destruct o as [n|]; cbn; [|discriminate]. now destruct (Z.eqb_spec n 0).
Qed.

(** X26.  Saving the form for a new rule (the form holds no id), with the
    page in step with the store and a fresh id: either the name or the
    pattern is missing, or the pattern is already the pattern of a stored
    rule, and in both cases nothing is written; or the store gains exactly
    the new rule, at its end.  The rule saved has a name, a pattern that no
    stored rule had and a weight other than 0, so that patterns that were
    distinct in the store stay distinct. *)
Theorem X26_new_rule_keeps_patterns_distinct {json : JsonHost} (w : Store.World)
    (formData : KnowledgeBaseActions.FormData) (uuid : string) :
  KnowledgeBaseActions.truthy (KnowledgeBaseActions.id formData) = false ->
  ~ In uuid (map Rule.id (Store.getRules w)) ->
  Store.readsBack (Store.getRules w ++ [KnowledgeBaseActions.ruleOfForm formData uuid]) ->
  match KnowledgeBaseActions.handleSave (Store.getRules w) w formData uuid with
  | KnowledgeBaseActions.MissingFields =>
      KnowledgeBaseActions.truthy (KnowledgeBaseActions.name formData) = false
      \/ KnowledgeBaseActions.truthy (KnowledgeBaseActions.regex formData) = false
  | KnowledgeBaseActions.DuplicateRegex =>
      exists r, In r (Store.getRules w)
                /\ KnowledgeBaseActions.regex formData = Some (Rule.regex r)
  | KnowledgeBaseActions.Saved newRule w' =>
      Store.getRules w' = Store.getRules w ++ [newRule]
      /\ Rule.id newRule = uuid
      /\ Rule.name newRule <> ""
      /\ Rule.regex newRule <> ""
      /\ Rule.weight newRule <> 0
      /\ ~ In (Rule.regex newRule) (map Rule.regex (Store.getRules w))
      /\ (NoDup (map Rule.regex (Store.getRules w)) ->
          NoDup (map Rule.regex (Store.getRules w')))
  end.
Proof.
  intros Hid Hfresh Hback. unfold KnowledgeBaseActions.handleSave. rewrite Hid. cbn [negb andb].
  destruct (KnowledgeBaseActions.truthy (KnowledgeBaseActions.name formData)) eqn:Hname;
    [|now left].
  destruct (KnowledgeBaseActions.truthy (KnowledgeBaseActions.regex formData)) eqn:Hregex;
    [|now right].
  cbn [negb orb].
  destruct (existsb _ (Store.getRules w)) eqn:Hex.
  - apply existsb_exists in Hex. destruct Hex as (r & Hin & E). apply String.eqb_eq in E.
    exists r. split; [exact Hin|].
    destruct (KnowledgeBaseActions.regex formData) as [s|]; [|discriminate]. cbn in E.
    now rewrite E.
  - apply not_existsb_regex in Hex.
    assert (Hnew : Rule.id (KnowledgeBaseActions.ruleOfForm formData uuid) = uuid).
    { unfold KnowledgeBaseActions.ruleOfForm. cbn [Rule.id]. now rewrite Hid. }
    assert (Hget : Store.getRules
                     (Store.saveRule w (KnowledgeBaseActions.ruleOfForm formData uuid))
                   = Store.getRules w ++ [KnowledgeBaseActions.ruleOfForm formData uuid]).
    { assert (Hup : Store.upsert (Store.getRules w)
                      (KnowledgeBaseActions.ruleOfForm formData uuid)
                    = Store.getRules w ++ [KnowledgeBaseActions.ruleOfForm formData uuid]).
      { rewrite upsert_replaceOrAppend. apply replaceOrAppend_new. rewrite Hnew.
        destruct (existsb _ (Store.getRules w)) eqn:E; [|reflexivity].
        apply existsb_exists in E. destruct E as (r & Hin & E). apply String.eqb_eq in E.
        exfalso. apply Hfresh. rewrite <- E. now apply in_map. }
      unfold Store.saveRule. rewrite Hup. now apply getRules_setItem. }
    rewrite Hget. repeat split.
    + exact Hnew.
    + now apply truthy_orElse.
    + now apply truthy_orElse.
    + apply weightOr10_nonzero.
    + exact Hex.
    + now apply NoDup_regex_push.
Qed.

Lemma X26_witness :
  match KnowledgeBaseActions.handleSave (json := JsonText.host)
          (Store.getRules (json := JsonText.host) (Fixture.holding Fixture.twoRules))
          (Fixture.holding Fixture.twoRules) Desk.newForm "u-0" with
  | KnowledgeBaseActions.Saved newRule w' =>
      Store.getRules (json := JsonText.host) w' = Fixture.twoRules ++ [newRule]
      /\ Rule.weight newRule = 10
  | _ => False
  end.
Proof.
  pose proof (X26_new_rule_keeps_patterns_distinct (json := JsonText.host)
                (Fixture.holding Fixture.twoRules) Desk.newForm "u-0") as H.
  assert (H1 : KnowledgeBaseActions.truthy (KnowledgeBaseActions.id Desk.newForm) = false)
    by reflexivity.
  assert (H2 : ~ In "u-0"
                 (map Rule.id
                    (Store.getRules (json := JsonText.host)
                       (Fixture.holding Fixture.twoRules)))).
  { vm_compute. intros [E|[E|[]]]; discriminate. }
  assert (H3 : Store.readsBack (json := JsonText.host)
                 (Store.getRules (json := JsonText.host) (Fixture.holding Fixture.twoRules)
                  ++ [KnowledgeBaseActions.ruleOfForm Desk.newForm "u-0"])).
  { split; [vm_compute; reflexivity | vm_compute; discriminate]. }
  specialize (H H1 H2 H3).
  destruct (KnowledgeBaseActions.handleSave (json := JsonText.host)
              (Store.getRules (json := JsonText.host) (Fixture.holding Fixture.twoRules))
              (Fixture.holding Fixture.twoRules) Desk.newForm "u-0") as [| |newRule w'] eqn:E;
    try (vm_compute in E; discriminate).
  destruct H as (Hget & _). split; [|vm_compute in E; now injection E as <- _].
  rewrite Hget. reflexivity.
Defined.


(** ** The import of a file of rules *)

Section ImportFacts.
Import RuleImport.
Variable uuid : nat -> string.

Lemma strictEquals_eq (a b : option value) : strictEquals a b = true -> a = b.
Proof.
  destruct a as [[]|], b as [[]|]; cbn [strictEquals]; try discriminate; try reflexivity.
  - intros H. apply Bool.eqb_prop in H. now subst.
  - intros H. apply Z.eqb_eq in H. now subst.
  - intros H. apply String.eqb_eq in H. now subst.
Qed.

Lemma strictEquals_primitive (a : option value) :
  primitive a = true -> strictEquals a a = true.
Proof.
  destruct a as [[]|]; cbn [strictEquals primitive]; try discriminate; try reflexivity.
  - intros _. apply Bool.eqb_reflx.
  - intros _. apply Z.eqb_refl.
  - intros _. apply String.eqb_refl.
Qed.

Lemma property_set (o : JsObject.t value) (k k' : string) (v : value) :
  property (JsObject.set o k v) k'
  = if String.eqb k k' then Some v else property o k'.
Proof.
  unfold property. induction o as [|[k0 v0] o IH]; cbn [JsObject.set find fst snd].
  - destruct (String.eqb k k'); reflexivity.
  - destruct (String.eqb_spec k0 k) as [->|Hne]; cbn [find fst snd].
    + destruct (String.eqb k k'); reflexivity.
    + destruct (String.eqb_spec k0 k') as [->|Hne'].
      * destruct (String.eqb_spec k k'); [congruence | reflexivity].
      * exact IH.
Qed.

Lemma find_nowhere {A : Type} (f : A -> bool) (l : list A) :
  (forall x, In x l -> f x = false) -> find f l = None.
Proof.
  induction l as [|x l IH]; intros H; [reflexivity|].
  cbn [find]. rewrite (H x (or_introl eq_refl)). apply IH. intros y Hy. apply H. now right.
Qed.

Lemma find_filter {A : Type} (f g : A -> bool) (l : list A) :
  (forall x, f x = true -> g x = true) -> find f (filter g l) = find f l.
Proof.
  intros H. induction l as [|x l IH]; [reflexivity|].
  cbn [filter find]. destruct (g x) eqn:Hg; cbn [find].
  - now rewrite IH.
  - destruct (f x) eqn:Hf; [|exact IH]. apply H in Hf. congruence.
Qed.

Lemma find_app_nowhere {A : Type} (f : A -> bool) (l1 l2 : list A) :
  (forall x, In x l1 -> f x = false) -> find f (l1 ++ l2) = find f l2.
Proof.
  induction l1 as [|x l1 IH]; intros H; [reflexivity|].
  cbn [app find]. rewrite (H x (or_introl eq_refl)). apply IH. intros y Hy. apply H. now right.
Qed.

(** A name that is no array index is found in the enumeration where it is
    in the object. *)
Lemma property_ownEntries (o : JsObject.t value) (k : string) :
  JsObject.isIndex k = false -> property (ownEntries o) k = property o k.
Proof.
  intros Hk. unfold property, ownEntries. f_equal.
  rewrite find_app_nowhere.
  - apply find_filter. intros [k0 v0]. cbn [fst]. intros E. apply String.eqb_eq in E.
    subst k0. now rewrite Hk.
  - intros [k0 v0] Hin. cbn [fst].
    apply (Permutation_in _ (Permutation_sym (sort_perm _ _))) in Hin.
    apply filter_In in Hin. destruct Hin as [_ Hidx]. cbn [fst] in Hidx.
    destruct (String.eqb_spec k0 k) as [->|_]; [congruence | reflexivity].
Qed.

(** The object pushed for an entry has the name and the pattern of the
    entry, the id given, and a weight that is not falsy. *)
Lemma newRule_properties (item : JsObject.t value) (id : string) :
  property (newRule item id) "name" = property item "name"
  /\ property (newRule item id) "regex" = property item "regex"
  /\ property (newRule item id) "id" = Some (Text id)
  /\ truthy (property (newRule item id) "weight") = true.
Proof.
  unfold newRule. rewrite !property_set. cbn [String.eqb Ascii.eqb Bool.eqb].
  rewrite !property_ownEntries by reflexivity. repeat split.
  unfold orElse. destruct (property item "weight") as [v|] eqn:E; [|reflexivity].
  destruct (truthy (Some v)) eqn:Hv; [exact Hv | reflexivity].
Qed.

Lemma usableCount_cons (item : value) (items : list value) :
  usableCount (item :: items) = (if usable item then 1 else 0) + usableCount items.
Proof.
  unfold usableCount. cbn [filter]. destruct (usable item); cbn [List.length]; lia.
Qed.

Lemma fold_thrown (items : list value) :
  fold_left (importStep uuid) items None = None.
Proof. induction items as [|item items IH]; [reflexivity | exact IH]. Qed.

(** What one entry does to the state. *)
Lemma importStep_cases (st : ImportState) (item : value) :
  (item = Null /\ importStep uuid (Some st) item = None)
  \/ (item <> Null /\ usable item = false /\ importStep uuid (Some st) item = Some st)
  \/ (exists fields r,
        item = Object fields /\ usable item = true
        /\ In r (newRules st) /\ property r "regex" = property fields "regex"
        /\ importStep uuid (Some st) item
           = Some {| newRules := newRules st; addedCount := addedCount st;
                     duplicateCount := duplicateCount st + 1 |})
  \/ (exists fields,
        item = Object fields /\ usable item = true
        /\ existsb (fun r => strictEquals (property r "regex") (property fields "regex"))
             (newRules st) = false
        /\ importStep uuid (Some st) item
           = Some {| newRules :=
                       newRules st ++ [newRule fields (uuid (Z.to_nat (addedCount st)))];
                     addedCount := addedCount st + 1;
                     duplicateCount := duplicateCount st |}).
Proof.
  destruct item as [|b|n|s|l|fields]; cbn [importStep usable];
    try (right; left; repeat split; discriminate).
  - left. now split.
  - destruct (truthy (property fields "name") && truthy (property fields "regex")) eqn:Hu;
      [|right; left; repeat split; discriminate].
    right. right.
    destruct (existsb _ (newRules st)) eqn:Hex.
    + left. apply existsb_exists in Hex. destruct Hex as (r & Hr & E).
      apply strictEquals_eq in E. exists fields, r.
      split; [reflexivity|]. split; [reflexivity|]. split; [exact Hr|].
      split; [exact E | reflexivity].
    + right. exists fields. now repeat split.
Qed.

(** What the loop over the entries does to the state it is started in. *)
Lemma import_fold (items : list value) (st : ImportState) :
  0 <= addedCount st ->
  match fold_left (importStep uuid) items (Some st) with
  | None => In Null items
  | Some st' =>
      ~ In Null items
      /\ exists added,
           newRules st' = newRules st ++ added
           /\ addedCount st' = addedCount st + Z.of_nat (List.length added)
           /\ addedCount st' + duplicateCount st'
              = addedCount st + duplicateCount st + usableCount items
           /\ map (fun r => property r "id") added
              = map (fun k => Some (Text (uuid k)))
                  (seq (Z.to_nat (addedCount st)) (List.length added))
           /\ Forall (fun r => exists fields k,
                        In (Object fields) items /\ usable (Object fields) = true
                        /\ r = newRule fields (uuid k)) added
           /\ (forall pre r post,
                 added = pre ++ r :: post ->
                 existsb (fun r' => strictEquals (property r' "regex") (property r "regex"))
                   (newRules st ++ pre) = false)
           /\ (forall item, In item items -> usable item = true ->
                 exists r, In r (newRules st') /\ property r "regex" = regexOf item)
           /\ (plainPatterns items ->
               NoDup (map (fun r => property r "regex") (newRules st)) ->
               NoDup (map (fun r => property r "regex") (newRules st')))
  end.
Proof.
  revert st. induction items as [|item items IH]; intros st Hst.
  - cbn [fold_left]. split; [intros []|]. exists []. cbn [List.length map seq].
    rewrite app_nil_r. unfold usableCount. cbn [filter List.length].
    repeat split; try lia; try constructor; auto.
    + intros [|? ?] r post E; discriminate E.
    + intros item [].
  - cbn [fold_left]. rewrite usableCount_cons.
    destruct (importStep_cases st item)
      as [(-> & ->)|[(Hnn & Hu & ->)|[(fields & r0 & -> & Hu & Hr0 & Hreg & ->)
                                     |(fields & -> & Hu & Hex & ->)]]].
    + rewrite fold_thrown. now left.
    + rewrite Hu. specialize (IH st Hst).
      destruct (fold_left (importStep uuid) items (Some st)) as [st'|];
        [|now right].
      destruct IH as (Hnull & added & Hnew & Hadd & Hsum & Hids & Hfrom & Hpre & Hin & Hnd).
      split; [intros [E|E]; [now apply Hnn | now apply Hnull]|].
      exists added. repeat split; try assumption; try lia.
      * eapply Forall_impl; [|exact Hfrom].
        intros r (f & k & Hf & Hus & ->). exists f, k. repeat split; auto. now right.
      * intros it [<-|Hit] Hus; [congruence | now apply Hin].
      * intros Hplain. apply Hnd. intros it Hit. apply Hplain. now right.
    + rewrite Hu.
      match goal with |- context [fold_left _ items (Some ?s)] => set (st1 := s) end.
      specialize (IH st1 Hst).
      destruct (fold_left (importStep uuid) items (Some st1)) as [st'|];
        [|now right].
      destruct IH as (Hnull & added & Hnew & Hadd & Hsum & Hids & Hfrom & Hpre & Hin & Hnd).
      cbn [newRules addedCount duplicateCount st1] in *.
      split; [intros [E|E]; [discriminate E | now apply Hnull]|].
      exists added. repeat split; try assumption; try lia.
      * eapply Forall_impl; [|exact Hfrom].
        intros r (f & k & Hf & Hus & ->). exists f, k. repeat split; auto. now right.
      * intros it [<-|Hit] Hus; [|now apply Hin].
        exists r0. split; [|exact Hreg]. rewrite Hnew. apply in_or_app. now left.
      * intros Hplain. apply Hnd. intros it Hit. apply Hplain. now right.
    + rewrite Hu.
      set (r := newRule fields (uuid (Z.to_nat (addedCount st)))) in *.
      match goal with |- context [fold_left _ items (Some ?s)] => set (st1 := s) end.
      specialize (IH st1 ltac:(cbn; lia)).
      destruct (fold_left (importStep uuid) items (Some st1)) as [st'|];
        [|now right].
      destruct IH as (Hnull & added & Hnew & Hadd & Hsum & Hids & Hfrom & Hpre & Hin & Hnd).
      cbn [newRules addedCount duplicateCount st1] in *.
      rewrite <- app_assoc in Hnew. cbn [app] in Hnew.
      assert (Hreg : property r "regex" = property fields "regex")
        by apply newRule_properties.
      split; [intros [E|E]; [discriminate E | now apply Hnull]|].
      exists (r :: added). repeat split; try assumption.
      * cbn [List.length]. lia.
      * lia.
      * cbn [List.length map seq]. f_equal; [apply newRule_properties|].
        rewrite Hids. f_equal. f_equal. lia.
      * constructor.
        -- exists fields, (Z.to_nat (addedCount st)). repeat split; auto. now left.
        -- eapply Forall_impl; [|exact Hfrom].
           intros r' (f & k & Hf & Hus & ->). exists f, k. repeat split; auto. now right.
      * intros [|p pre] r' post E; cbn [app] in E; injection E as <- E.
        -- rewrite app_nil_r, Hreg. exact Hex.
        -- subst added. specialize (Hpre pre r' post eq_refl).
           now rewrite <- app_assoc in Hpre.
      * intros it [<-|Hit] Hus; [|now apply Hin].
        exists r. split; [|exact Hreg]. rewrite Hnew. apply in_or_app. right. now left.
      * intros Hplain Hnd0. apply Hnd; [intros it Hit; apply Hplain; now right|].
        rewrite map_app. apply NoDup_app; [exact Hnd0 | |].
        -- cbn [map]. constructor; [intros [] | constructor].
        -- intros a Ha [<-|[]]. apply in_map_iff in Ha. destruct Ha as (r' & E & Hr').
           assert (Hp : primitive (property fields "regex") = true)
             by (apply (Hplain (Object fields)); [now left | exact Hu]).
           assert (Hfalse : strictEquals (property r' "regex") (property fields "regex")
                            = false).
           { destruct (strictEquals (property r' "regex") (property fields "regex")) eqn:Es;
               [|reflexivity].
             rewrite <- Hex. symmetry. apply existsb_exists. now exists r'. }
           rewrite E, Hreg, strictEquals_primitive in Hfalse by exact Hp. discriminate.
Qed.


End ImportFacts.

(** X27.  The import of a file fails, with nothing saved, when the text is
    not JSON or the array holds [null]; it stops, with nothing saved, when
    the root is no array.  Otherwise it saves the rules it was given
    followed by the rules it adds.  The two counts it reports add up to the
    number of entries that have a name and a pattern; every rule added is the
    object pushed for such an entry, with a name, a pattern and a weight that
    are not falsy and with the next id.  A rule is added only when no rule
    before it has the same pattern, and after the import the pattern of every
    entry with a name and a pattern is the pattern of a rule.  When these
    patterns are texts, numbers or booleans, patterns that were distinct stay
    distinct. *)
Theorem X27_import_adds_each_new_pattern_once (uuid : nat -> string)
    (currentRules : list (JsObject.t RuleImport.value))
    (parsed : option RuleImport.value) :
  match RuleImport.handleJsonImport uuid currentRules parsed with
  | RuleImport.ParseFailed =>
      parsed = None
      \/ exists items, parsed = Some (RuleImport.Array items) /\ In RuleImport.Null items
  | RuleImport.NotAnArray =>
      exists v, parsed = Some v /\ forall items, v <> RuleImport.Array items
  | RuleImport.Imported newRules addedCount duplicateCount =>
      exists items added,
        parsed = Some (RuleImport.Array items)
        /\ ~ In RuleImport.Null items
        /\ newRules = currentRules ++ added
        /\ addedCount = Z.of_nat (List.length added)
        /\ addedCount + duplicateCount = RuleImport.usableCount items
        /\ map (fun r => RuleImport.property r "id") added
           = map (fun k => Some (RuleImport.Text (uuid k))) (seq 0 (List.length added))
        /\ Forall (fun r =>
                     RuleImport.truthy (RuleImport.property r "name") = true
                     /\ RuleImport.truthy (RuleImport.property r "regex") = true
                     /\ RuleImport.truthy (RuleImport.property r "weight") = true
                     /\ exists fields k,
                          In (RuleImport.Object fields) items
                          /\ r = RuleImport.newRule fields (uuid k))
             added
        /\ (forall pre r post,
              added = pre ++ r :: post ->
              existsb
                (fun r' =>
                   RuleImport.strictEquals (RuleImport.property r' "regex")
                     (RuleImport.property r "regex"))
                (currentRules ++ pre) = false)
        /\ Forall (fun item =>
                     RuleImport.usable item = true ->
                     exists r,
                       In r newRules
                       /\ RuleImport.property r "regex" = RuleImport.regexOf item)
             items
        /\ (RuleImport.plainPatterns items ->
            NoDup (map (fun r => RuleImport.property r "regex") currentRules) ->
            NoDup (map (fun r => RuleImport.property r "regex") newRules))
  end.
Proof.
  unfold RuleImport.handleJsonImport.
  destruct parsed as [v|]; [|now left].
  destruct v as [|b|n|s|items|fields];
    try (eexists; split; [reflexivity | intros items; discriminate]).
  pose proof (import_fold uuid items
                {| RuleImport.newRules := currentRules; RuleImport.addedCount := 0;
                   RuleImport.duplicateCount := 0 |} ltac:(reflexivity)) as H.
  destruct (fold_left (RuleImport.importStep uuid) items _) as [st'|].
  - destruct H as (Hnull & added & Hnew & Hadd & Hsum & Hids & Hfrom & Hpre & Hin & Hnd).
    cbn [RuleImport.newRules RuleImport.addedCount RuleImport.duplicateCount] in *.
    exists items, added. repeat split; try assumption; try lia.
    + eapply Forall_impl; [|exact Hfrom].
      intros r (fields & k & Hitem & Hus & ->).
      destruct (newRule_properties fields (uuid k)) as (Hn & Hr & _ & Hw).
      cbn [RuleImport.usable] in Hus. apply andb_true_iff in Hus. destruct Hus as [Hun Hur].
      rewrite Hn, Hr. repeat split; try assumption. now exists fields, k.
    + apply Forall_forall. intros item Hitem Hus. now apply Hin.
  - right. now exists items.
Qed.



(** A file with an entry whose pattern is an array is imported anew each
    time, since an array is the same as no other; a file with the entry
    [null] is not imported at all, the entries before it included. *)
Example import_of_odd_files :
  (exists first second,
      RuleImport.handleJsonImport Desk.uuid Desk.stored
        (Some (RuleImport.Array [Desk.oddEntry]))
      = RuleImport.Imported first 1 0
      /\ RuleImport.handleJsonImport Desk.uuid first
           (Some (RuleImport.Array [Desk.oddEntry]))
         = RuleImport.Imported second 1 0
      /\ List.length second = 4%nat)
  /\ RuleImport.handleJsonImport Desk.uuid Desk.stored
       (Some (RuleImport.Array (Desk.items ++ [RuleImport.Null])))
     = RuleImport.ParseFailed.
Proof.
  split; [|vm_compute; reflexivity].
  eexists. eexists. split; [vm_compute; reflexivity|].
  split; vm_compute; reflexivity.
Qed.
